(** * Forecast-aggregation study: panel builder, BQN reconstruction, seeding

    A shallow embedding of the parts of the repository that the
    specification talks about:

    - [results.py]      : [get_panel_data], [get_best_result_table],
                          [get_skills_table]
    - [BQNModels.py]    : the default quantile grid of [BQNBaseModel.__init__],
                          the Bernstein basis and the loss of [_build], and
                          the reconstruction and rank rescaling of
                          [get_results]
    - [ss_1_ensemble.py]: [run_ensemble], its seeds and its files
    - [figures.py]      : the Vincentization parameters of
                          [plot_example_aggregation], the index vectors of
                          [plot_pit_ens]

    Numbers.  The Python code computes with IEEE doubles.  Here a double is
    an exact rational or one of the three special values (+inf, -inf, NaN):
    rounding is not modelled, the special values and the way they spread
    through the arithmetic are.  The two signed zeros are identified and a
    zero divisor is taken as +0 (which is what [x - x] gives). *)

From Stdlib Require Import ZArith QArith Qround Lia Lqa String List Sorted.
From stdpp Require Import base option list list_numbers strings pretty gmap.

Import ListNotations.
Local Open Scope Z_scope.
Local Open Scope string_scope.
Local Open Scope list_scope.

(* ===================================================================== *)
(** * Part I: the program *)
(* ===================================================================== *)

(* ===================================================================== *)
(** ** Exceptions and the error monad *)
(* ===================================================================== *)

(** The Python exceptions that the modelled functions can raise. *)
Inductive exn : Type :=
| FileNotFoundError (path : string)
| KeyError (key : string)
| TypeError (what : string)
| ValueError (what : string)
| AttributeError (name : string).

Inductive result (A : Type) : Type :=
| Ok (a : A)
| Raise (e : exn).
Arguments Ok {A} a.
Arguments Raise {A} e.

#[global] Instance result_ret : MRet result := fun A a => Ok a.

#[global] Instance result_bind : MBind result := fun A B k m =>
  match m with
  | Ok a => k a
  | Raise e => Raise e
  end.

(** A Python [for] loop over [xs] whose body updates the loop state and may
    raise; [continue] is a body that returns the state unchanged. *)
Fixpoint for_each {A S : Type} (xs : list A) (s : S)
    (body : A -> S -> result S) : result S :=
  match xs with
  | [] => Ok s
  | x :: xs' => s' ← body x s; for_each xs' s' body
  end.

(** What a loop whose body only appends to its state has appended when it
    is done: the rows of each round, in order. *)
Fixpoint collect {A R : Type} (xs : list A) (g : A -> result (list R))
    : result (list R) :=
  match xs with
  | [] => Ok []
  | x :: xs' => new ← g x; rest ← collect xs' g; Ok (new ++ rest)
  end.

(* ===================================================================== *)
(** ** Doubles: rationals with +inf, -inf and NaN *)
(* ===================================================================== *)

Inductive float : Type :=
| Fin (q : Q)
| PInf
| NInf
| NaN.

Definition of_int (z : Z) : float := Fin (inject_Z z).

Definition is_nan (x : float) : bool :=
  match x with NaN => true | _ => false end.

Definition is_finite (x : float) : bool :=
  match x with Fin _ => true | _ => false end.

Definition Qsign (q : Q) : comparison := (q ?= 0)%Q.

Definition fneg (x : float) : float :=
  match x with
  | Fin q => Fin (- q)%Q
  | PInf => NInf
  | NInf => PInf
  | NaN => NaN
  end.

Definition fadd (x y : float) : float :=
  match x, y with
  | NaN, _ | _, NaN => NaN
  | Fin a, Fin b => Fin (a + b)%Q
  | PInf, NInf | NInf, PInf => NaN
  | PInf, _ | _, PInf => PInf
  | NInf, _ | _, NInf => NInf
  end.

Definition fsub (x y : float) : float := fadd x (fneg y).

(** The infinity that carries the sign of a comparison with zero;
    [0 * inf] is NaN. *)
Definition inf_of_sign (c : comparison) : float :=
  match c with
  | Gt => PInf
  | Lt => NInf
  | Eq => NaN
  end.

Definition fmul (x y : float) : float :=
  match x, y with
  | NaN, _ | _, NaN => NaN
  | Fin a, Fin b => Fin (a * b)%Q
  | Fin a, PInf | PInf, Fin a => inf_of_sign (Qsign a)
  | Fin a, NInf | NInf, Fin a => inf_of_sign (CompOpp (Qsign a))
  | PInf, PInf | NInf, NInf => PInf
  | PInf, NInf | NInf, PInf => NInf
  end.

(** numpy scalar division: a zero divisor does not raise, it gives
    [nan] for [0/0] and a signed infinity otherwise (with a warning that
    nothing in the repository turns into an error). *)
Definition fdiv (x y : float) : float :=
  match x, y with
  | NaN, _ | _, NaN => NaN
  | Fin a, Fin b =>
      match Qsign b with
      | Eq => inf_of_sign (Qsign a)
      | _ => Fin (a / b)%Q
      end
  | Fin _, PInf | Fin _, NInf => Fin 0
  | PInf, Fin b =>
      match Qsign b with Lt => NInf | _ => PInf end
  | NInf, Fin b =>
      match Qsign b with Lt => PInf | _ => NInf end
  | PInf, PInf | PInf, NInf | NInf, PInf | NInf, NInf => NaN
  end.

(** [x <= y] and [x == y] on doubles; every comparison with NaN is false. *)
Definition fle (x y : float) : bool :=
  match x, y with
  | NaN, _ | _, NaN => false
  | NInf, _ => true
  | _, PInf => true
  | Fin a, Fin b => Qle_bool a b
  | _, _ => false
  end.

Definition feq (x y : float) : bool :=
  match x, y with
  | Fin a, Fin b => Qeq_bool a b
  | PInf, PInf | NInf, NInf => true
  | _, _ => false
  end.

Definition flt (x y : float) : bool := fle x y && negb (feq x y).

Fixpoint fsum_from (acc : float) (xs : list float) : float :=
  match xs with
  | [] => acc
  | x :: xs' => fsum_from (fadd acc x) xs'
  end.

Definition fsum (xs : list float) : float := fsum_from (Fin 0) xs.

(** [Series.mean()] (pandas, [skipna=True]): NaN cells are left out, the
    mean of no cell at all is NaN. *)
Definition mean (xs : list float) : float :=
  let vals := List.filter (fun x => negb (is_nan x)) xs in
  match vals with
  | [] => NaN
  | _ => fdiv (fsum vals) (of_int (Z.of_nat (List.length vals)))
  end.

(* ===================================================================== *)
(** ** Strings *)
(* ===================================================================== *)

Definition str_in (s : string) (l : list string) : bool :=
  existsb (String.eqb s) l.

(** [s.startswith(p)] *)
Definition startswith (s p : string) : bool := String.prefix p s.

(** [s.replace(old, new)] for a non-empty [old]: left to right, without
    overlap; [skip] counts the characters of a match still to be dropped. *)
Fixpoint replace_from (old new s : string) (skip : nat) : string :=
  match s with
  | EmptyString => EmptyString
  | String c s' =>
      match skip with
      | S k => replace_from old new s' k
      | O =>
          if String.prefix old s
          then new +:+ replace_from old new s' (Nat.pred (String.length old))
          else String c (replace_from old new s' O)
      end
  end.

Definition str_replace (s old new : string) : string :=
  replace_from old new s O.

(** [os.path.join(a, b)] for a relative [b] (POSIX). *)
Definition path_join (a b : string) : string :=
  if String.eqb a "" then b
  else if String.eqb (substring (Nat.pred (String.length a)) 1 a) "/"
       then a +:+ b
       else a +:+ "/" +:+ b.

(* ===================================================================== *)
(** ** results.py *)
(* ===================================================================== *)

Module results.

(** One line of the evaluation table [df_scores] that is unpickled from
    [eval_{dataset}_{ens_method}.pkl]: the three text columns that the code
    compares with strings, and the numeric columns ([n_rep], [n_ens], [crps],
    [me], ...) by name.  A cell that is missing in a line is NaN. *)
Record score_row : Type := mk_score_row {
  sr_model : string;
  sr_type : string;
  sr_nn : string;
  sr_num : gmap string float
}.

(** A DataFrame of scores: the names of its numeric columns and its lines. *)
Record frame : Type := mk_frame {
  columns : list string;
  rows : list score_row
}.

(** The files that [open] can find, by path. *)
Definition file_system : Type := string -> option frame.

(** [df[mask]] *)
Definition select (df : frame) (mask : score_row -> bool) : frame :=
  mk_frame (columns df) (List.filter mask (rows df)).

Definition cell (name : string) (r : score_row) : float :=
  default NaN (sr_num r !! name).

(** [df[name]] for a column that the code averages or compares with a
    number: the column as a function of the line.  A name that is no column
    is a [KeyError]; the text columns cannot be averaged. *)
Definition column (df : frame) (name : string) : result (score_row -> float) :=
  if str_in name ["model"; "type"; "nn"] then Raise (TypeError name)
  else if str_in name (columns df) then Ok (cell name)
  else Raise (KeyError name).

(** [df[mask][name].mean()] *)
Definition column_mean (df : frame) (mask : score_row -> bool)
    (name : string) : result float :=
  col ← column (select df mask) name;
  Ok (mean (List.map col (rows (select df mask)))).

(** One line of the panel: columns dataset, nn, metric, n_ens, agg, score. *)
Record panel_row : Type := mk_panel_row {
  dataset : string;
  nn : string;
  metric : string;
  n_ens : Z;
  agg : string;
  score : float
}.

(** The four [continue] branches at the head of the innermost loop. *)
Definition skipped (temp_sr temp_agg : string) : bool :=
  if (temp_sr =? "crpss") && (temp_agg =? "ens") then true
  else if (temp_sr =? "crpss") && (temp_agg =? "opt") then true
  else if (temp_sr =? "a") && (temp_agg =? "opt") then true
  else if (temp_sr =? "w") && (temp_agg =? "opt") then true
  else false.

(** Reference: average score of the ensemble members,
    [df_nn[(df_nn["n_rep"] <= i_ens) & (df_nn["type"] == "ind")][temp_out].mean()] *)
Definition reference_score (df_nn : frame) (temp_out : string) (i_ens : Z)
    : result float :=
  n_rep ← column df_nn "n_rep";
  column_mean df_nn
    (fun r => fle (n_rep r) (of_int i_ens) && (sr_type r =? "ind")) temp_out.

(** [df_nn[(df_nn["n_ens"] == i_ens) & (df_nn["type"] == temp_agg)][temp_out].mean()] *)
Definition read_out_score (df_nn : frame) (temp_out : string) (i_ens : Z)
    (temp_agg : string) : result float :=
  n_ens_col ← column df_nn "n_ens";
  column_mean df_nn
    (fun r => feq (n_ens_col r) (of_int i_ens) && (sr_type r =? temp_agg))
    temp_out.

(** [100 * (s_ref - score) / (s_ref - s_opt)] *)
Definition skill (s_ref sc s_opt : float) : float :=
  fdiv (fmul (of_int 100) (fsub s_ref sc)) (fsub s_ref s_opt).

(** [100 * (i_ens * score - 1)] *)
Definition rel_weight_diff (i_ens : Z) (sc : float) : float :=
  fmul (of_int 100) (fsub (fmul (of_int i_ens) sc) (of_int 1)).

(** [new_row["score"]] of a cell that is not skipped. *)
Definition cell_score (temp_sr temp_out : string) (s_opt : float)
    (df_nn : frame) (i_ens : Z) (temp_agg : string) : result float :=
  s_ref ← reference_score df_nn temp_out i_ens;
  if temp_agg =? "ens" then Ok s_ref
  else if temp_agg =? "opt" then Ok s_opt
  else
    sc0 ← read_out_score df_nn temp_out i_ens temp_agg;
    let sc1 := if temp_sr =? "crpss" then skill s_ref sc0 s_opt else sc0 in
    let sc2 := if temp_sr =? "w" then rel_weight_diff i_ens sc1 else sc1 in
    Ok sc2.

(** The body of the innermost loop (over [temp_agg]). *)
Definition agg_body (ds temp_sr temp_out temp_nn : string) (s_opt : float)
    (df_nn : frame) (i_ens : Z) (temp_agg : string)
    (df_plot : list panel_row) : result (list panel_row) :=
  if skipped temp_sr temp_agg then Ok df_plot
  else
    sc ← cell_score temp_sr temp_out s_opt df_nn i_ens temp_agg;
    Ok (df_plot ++ [mk_panel_row ds temp_nn temp_sr i_ens temp_agg sc]).

(** [s_opt]: 0 unless the optimal scores are available and the score is
    neither "a" nor "w". *)
Definition optimal_score (optimal_scores_available : bool) (df_sc : frame)
    (temp_sr temp_out : string) : result float :=
  if optimal_scores_available && negb (str_in temp_sr ["a"; "w"])
  then column_mean df_sc (fun r => sr_type r =? "ref") temp_out
  else Ok (of_int 0).

(** [temp_out]: the column that holds the score; CRPSS is made from CRPS. *)
Definition output_column (temp_sr : string) : string :=
  if temp_sr =? "crpss" then "crps" else temp_sr.

(** [df_scores[df_scores["model"] == dataset]] and [df_sc[df_sc["nn"] == temp_nn]] *)
Definition scenario_frame (df_scores : frame) (ds : string) : frame :=
  select df_scores (fun r => sr_model r =? ds).

Definition network_frame (df_sc : frame) (temp_nn : string) : frame :=
  select df_sc (fun r => sr_nn r =? temp_nn).

(** The body of the loop over the quantities of interest. *)
Definition score_body (ds : string) (optimal_scores_available : bool)
    (df_sc : frame) (nn_vec : list string) (n_ens_vec : list Z)
    (agg_meths : list string) (temp_sr : string)
    (df_plot : list panel_row) : result (list panel_row) :=
  let temp_out := output_column temp_sr in
  s_opt ← optimal_score optimal_scores_available df_sc temp_sr temp_out;
  for_each nn_vec df_plot (fun temp_nn df_plot =>
    let df_nn := network_frame df_sc temp_nn in
    for_each n_ens_vec df_plot (fun i_ens df_plot =>
      for_each (["opt"; "ens"] ++ agg_meths) df_plot
        (agg_body ds temp_sr temp_out temp_nn s_opt df_nn i_ens))).

Definition eval_path (data_path ds ens_method : string) : string :=
  path_join (str_replace data_path "dataset" ds)
            ("eval_" +:+ ds +:+ "_" +:+ ens_method +:+ ".pkl").

(** [open(path, "rb")] and [pickle.load]. *)
Definition load (fs : file_system) (path : string) : result frame :=
  match fs path with
  | Some df => Ok df
  | None => Raise (FileNotFoundError path)
  end.

(** The body of the loop over the datasets. *)
Definition dataset_body (fs : file_system) (data_path : string)
    (score_vec nn_vec : list string) (n_ens_vec : list Z)
    (agg_meths : list string) (ens_method : string) (ds : string)
    (df_plot : list panel_row) : result (list panel_row) :=
  df_scores ← load fs (eval_path data_path ds ens_method);
  let optimal_scores_available := startswith ds "scen" in
  let df_sc := scenario_frame df_scores ds in
  for_each score_vec df_plot
    (score_body ds optimal_scores_available df_sc nn_vec n_ens_vec agg_meths).

Definition get_panel_data (fs : file_system) (data_path : string)
    (dataset_ls score_vec nn_vec : list string) (n_ens_vec : list Z)
    (agg_meths : list string) (ens_method : string)
    : result (list panel_row) :=
  for_each dataset_ls []
    (dataset_body fs data_path score_vec nn_vec n_ens_vec agg_meths ens_method).

(** *** The rows of each loop

    What the five nested loops append, loop by loop; [get_panel_data] is
    shown below to return exactly [panel_rows]. *)

Definition agg_rows (ds temp_sr temp_out temp_nn : string) (s_opt : float)
    (df_nn : frame) (i_ens : Z) (temp_agg : string)
    : result (list panel_row) :=
  if skipped temp_sr temp_agg then Ok []
  else
    sc ← cell_score temp_sr temp_out s_opt df_nn i_ens temp_agg;
    Ok [mk_panel_row ds temp_nn temp_sr i_ens temp_agg sc].

Definition ens_rows (ds temp_sr temp_out temp_nn : string) (s_opt : float)
    (df_nn : frame) (agg_meths : list string) (i_ens : Z)
    : result (list panel_row) :=
  collect (["opt"; "ens"] ++ agg_meths)
    (agg_rows ds temp_sr temp_out temp_nn s_opt df_nn i_ens).

Definition nn_rows (ds temp_sr temp_out : string) (s_opt : float)
    (df_sc : frame) (n_ens_vec : list Z) (agg_meths : list string)
    (temp_nn : string) : result (list panel_row) :=
  collect n_ens_vec
    (ens_rows ds temp_sr temp_out temp_nn s_opt
       (network_frame df_sc temp_nn) agg_meths).

Definition score_rows (ds : string) (optimal_scores_available : bool)
    (df_sc : frame) (nn_vec : list string) (n_ens_vec : list Z)
    (agg_meths : list string) (temp_sr : string) : result (list panel_row) :=
  s_opt ← optimal_score optimal_scores_available df_sc temp_sr
            (output_column temp_sr);
  collect nn_vec
    (nn_rows ds temp_sr (output_column temp_sr) s_opt df_sc n_ens_vec
       agg_meths).

Definition dataset_rows (fs : file_system) (data_path : string)
    (score_vec nn_vec : list string) (n_ens_vec : list Z)
    (agg_meths : list string) (ens_method : string) (ds : string)
    : result (list panel_row) :=
  df_scores ← load fs (eval_path data_path ds ens_method);
  collect score_vec
    (score_rows ds (startswith ds "scen") (scenario_frame df_scores ds)
       nn_vec n_ens_vec agg_meths).

Definition panel_rows (fs : file_system) (data_path : string)
    (dataset_ls score_vec nn_vec : list string) (n_ens_vec : list Z)
    (agg_meths : list string) (ens_method : string)
    : result (list panel_row) :=
  collect dataset_ls
    (dataset_rows fs data_path score_vec nn_vec n_ens_vec agg_meths
       ens_method).

(** *** Cells

    [panel_cell r]: the loops reach the end of the innermost body with the
    loop variables and the score of the row [r]. *)
Definition panel_cell (fs : file_system) (data_path : string)
    (dataset_ls score_vec nn_vec : list string) (n_ens_vec : list Z)
    (agg_meths : list string) (ens_method : string) (r : panel_row) : Prop :=
  exists df_scores s_opt,
    dataset r ∈ dataset_ls /\
    load fs (eval_path data_path (dataset r) ens_method) = Ok df_scores /\
    metric r ∈ score_vec /\
    optimal_score (startswith (dataset r) "scen")
      (scenario_frame df_scores (dataset r)) (metric r)
      (output_column (metric r)) = Ok s_opt /\
    nn r ∈ nn_vec /\
    n_ens r ∈ n_ens_vec /\
    agg r ∈ ["opt"; "ens"] ++ agg_meths /\
    skipped (metric r) (agg r) = false /\
    cell_score (metric r) (output_column (metric r)) s_opt
      (network_frame (scenario_frame df_scores (dataset r)) (nn r))
      (n_ens r) (agg r) = Ok (score r).

(** [name] is a numeric column of [df]. *)
Definition numeric_column (df : frame) (name : string) : Prop :=
  str_in name ["model"; "type"; "nn"] = false /\
  str_in name (columns df) = true.

(** Every file is there and has the columns that the loops read. *)
Definition panel_inputs_ok (fs : file_system) (data_path : string)
    (dataset_ls score_vec : list string) (ens_method : string) : Prop :=
  forall ds, ds ∈ dataset_ls ->
    exists df_scores,
      fs (eval_path data_path ds ens_method) = Some df_scores /\
      numeric_column df_scores "n_rep" /\
      numeric_column df_scores "n_ens" /\
      forall temp_sr, temp_sr ∈ score_vec ->
        numeric_column df_scores (output_column temp_sr).

(** The three means that go into the skill of the cell
    [(ds, temp_nn, i_ens, temp_agg)]: reference (the ensemble members),
    candidate (the aggregated forecast) and optimal (0 unless the dataset is
    a simulated scenario). *)
Definition crps_reference (df_scores : frame) (ds temp_nn : string)
    (i_ens : Z) : result float :=
  reference_score (network_frame (scenario_frame df_scores ds) temp_nn)
    "crps" i_ens.

Definition crps_candidate (df_scores : frame) (ds temp_nn : string)
    (i_ens : Z) (temp_agg : string) : result float :=
  read_out_score (network_frame (scenario_frame df_scores ds) temp_nn)
    "crps" i_ens temp_agg.

Definition crps_optimal (df_scores : frame) (ds : string) : result float :=
  if startswith ds "scen"
  then column_mean (scenario_frame df_scores ds)
         (fun r => sr_type r =? "ref") "crps"
  else Ok (of_int 0).

(** The reference mean equals the optimal mean in the cells of
    [(ds, temp_nn, i_ens)]: the denominator of the skill is zero. *)
Definition zero_denominator (fs : file_system) (data_path ens_method : string)
    (ds temp_nn : string) (i_ens : Z) : Prop :=
  exists df_scores s_ref s_opt,
    fs (eval_path data_path ds ens_method) = Some df_scores /\
    crps_reference df_scores ds temp_nn i_ens = Ok s_ref /\
    crps_optimal df_scores ds = Ok s_opt /\
    feq s_ref s_opt = true.

(** The mean score of the rows of type "ref", whatever the dataset. *)
Definition crps_ref_rows (df_scores : frame) (ds : string) : result float :=
  column_mean (scenario_frame df_scores ds) (fun r => sr_type r =? "ref")
    "crps".

End results.

(* ===================================================================== *)
(** ** results.py: get_best_result_table *)
(* ===================================================================== *)

Module best.
Import results.

(** A cell of a result table: a score, a name or an ensemble size. *)
Inductive cell : Type :=
| CFloat (x : float)
| CStr (s : string)
| CInt (z : Z).

(** A DataFrame indexed by dataset: the names of its columns, and for each
    dataset of the index the cells of its line by column.  A cell that is
    absent is NaN.  (pandas keeps the lines in the order of the sorted
    dataset names; the order is not kept here.) *)
Record table : Type := mk_table {
  tb_columns : list string;
  tb_rows : gmap string (gmap string cell)
}.

(** [results = {"drn_results": None, "bqn_results": None}] *)
Record best_results : Type := mk_best_results {
  drn_results : option table;
  bqn_results : option table
}.

(** [results["drn_results"]] for the network "drn", [results["bqn_results"]]
    for every other network. *)
Definition slot (nn : string) (results : best_results) : option table :=
  if nn =? "drn" then drn_results results else bqn_results results.

Definition store (nn : string) (temp_results : table)
    (results : best_results) : best_results :=
  if nn =? "drn"
  then mk_best_results (Some temp_results) (bqn_results results)
  else mk_best_results (drn_results results) (Some temp_results).

(** [Series.idxmin()]: the first line with the least score. *)
Fixpoint idxmin_from (best : panel_row) (rows : list panel_row) : panel_row :=
  match rows with
  | [] => best
  | r :: rows' =>
      idxmin_from (if flt (score r) (score best) then r else best) rows'
  end.

Definition idxmin (rows : list panel_row) : option panel_row :=
  match rows with
  | [] => None
  | r :: rows' => Some (idxmin_from r rows')
  end.

(** [df_nn.groupby("dataset")]: the names of the groups, and the lines of a
    group in the order of the frame. *)
Definition groups (df_nn : list panel_row) : list string :=
  remove_dups (List.map dataset df_nn).

Definition group (df_nn : list panel_row) (d : string) : list panel_row :=
  List.filter (fun r => dataset r =? d) df_nn.

(** [df_nn.loc[list(df_nn.groupby("dataset").score.idxmin())]] *)
Definition best_rows (df_nn : list panel_row) : list panel_row :=
  omap (fun d => idxmin (group df_nn d)) (groups df_nn).

(** The dict [data] of one best line: the keys are written in the order of
    the source, a later key replaces an equal earlier one. *)
Definition data_cells (ens_method : string) (r : panel_row)
    : gmap string cell :=
  <[ens_method +:+ "_n_ens" := CInt (n_ens r)]>
    (<[ens_method +:+ "_agg" := CStr (agg r)]>
       (<["dataset" := CStr (dataset r)]>
          (<[ens_method := CFloat (score r)]> ∅))).

Definition data_keys (ens_method : string) : list string :=
  remove_dups
    [ens_method; "dataset"; ens_method +:+ "_agg"; ens_method +:+ "_n_ens"].

(** [pd.DataFrame(data).set_index("dataset")] *)
Definition ens_result (ens_method : string) (best_row : list panel_row)
    : table :=
  mk_table
    (List.filter (fun c => negb (c =? "dataset")) (data_keys ens_method))
    (list_to_map
       (List.map (fun r => (dataset r, delete "dataset" (data_cells ens_method r)))
          best_row)).

(** [left.join(right)]: a left join on the index; columns of the same name
    on both sides are an error. *)
Definition join (left right : table) : result table :=
  if existsb (fun c => str_in c (tb_columns left)) (tb_columns right)
  then Raise (ValueError "columns overlap but no suffix specified")
  else Ok (mk_table (tb_columns left ++ tb_columns right)
             (map_imap
                (fun d line => Some (line ∪ default ∅ (tb_rows right !! d)))
                (tb_rows left))).

(** [df[df["nn"] == nn]] *)
Definition network_rows (nn : string) (df : list panel_row)
    : list panel_row :=
  List.filter (fun r => results.nn r =? nn) df.

(** The loop over the network types; [break] leaves the loop. *)
Fixpoint nn_loop (ens_method : string) (df : list panel_row)
    (nns : list string) (results : best_results) : result best_results :=
  match nns with
  | [] => Ok results
  | nn :: nns' =>
      let temp_results := slot nn results in
      let df_nn := network_rows nn df in
      if existsb (fun r => is_nan (score r)) df_nn then Ok results
      else
        (* Group by and get idx of best scores *)
        let best_row := best_rows df_nn in
        let df_ens_result := ens_result ens_method best_row in
        temp_results ← match temp_results with
                       | None => Ok df_ens_result
                       | Some t => join t df_ens_result
                       end;
        nn_loop ens_method df nns' (store nn temp_results results)
  end.

Definition score_vec : list string :=
  ["crps"; "crpss"; "me"; "lgt"; "cov"; "a"; "w"].

(** Basic filtering: [df[df["agg"].isin(agg_meths)]], then
    [df[df["metric"] == "crps"]].  A panel without lines has no columns. *)
Definition basic_filter (agg_meths : list string) (df : list panel_row)
    : result (list panel_row) :=
  match df with
  | [] => Raise (KeyError "agg")
  | _ =>
      Ok (List.filter (fun r => metric r =? "crps")
            (List.filter (fun r => str_in (agg r) agg_meths) df))
  end.

(** The body of the loop over the ensemble methods. *)
Definition method_body (fs : file_system) (data_path : string)
    (nn_vec agg_meths dataset_ls : list string) (n_ens_vec : list Z)
    (ens_method : string) (results : best_results) : result best_results :=
  df ← get_panel_data fs data_path dataset_ls score_vec nn_vec n_ens_vec
         agg_meths ens_method;
  df ← basic_filter agg_meths df;
  nn_loop ens_method df nn_vec results.

Definition get_best_result_table (fs : file_system) (data_path : string)
    (nn_vec ens_method_ls agg_meths dataset_ls : list string)
    (n_ens_vec : list Z) : result best_results :=
  for_each ens_method_ls (mk_best_results None None)
    (method_body fs data_path nn_vec agg_meths dataset_ls n_ens_vec).

(** *** Notions for the properties *)

(** The lines of the panel among which the best line of the network [nn]
    and the dataset [d] is chosen. *)
Definition candidates (agg_meths : list string) (df : list panel_row)
    (nn d : string) : list panel_row :=
  List.filter
    (fun r => str_in (agg r) agg_meths && (metric r =? "crps")
              && (results.nn r =? nn) && (dataset r =? d))
    df.

(** No CRPS score of the network [nn] under the considered aggregation
    methods is missing, for any dataset. *)
Definition nan_free (agg_meths : list string) (df : list panel_row)
    (nn : string) : Prop :=
  forall r, r ∈ df -> str_in (agg r) agg_meths = true ->
    metric r = "crps" -> results.nn r = nn -> is_nan (score r) = false.

(** The score of a line is there (not NaN). *)
Definition present (r : panel_row) : Prop := is_nan (score r) = false.

(** The cells of every line of a table belong to its columns. *)
Definition well_formed (t : table) : Prop :=
  forall d line c,
    tb_rows t !! d = Some line -> is_Some (line !! c) -> c ∈ tb_columns t.

(** Every table that is there is well formed and has a line for each
    dataset of [G]. *)
Definition covers (G : string -> Prop) (res : best_results) : Prop :=
  forall nn t, slot nn res = Some t ->
    well_formed t /\ forall d, G d -> is_Some (tb_rows t !! d).

(** The datasets that have candidate lines: those of [dataset_ls], when
    there is an ensemble size and an aggregation method at all. *)
Definition has_lines (dataset_ls : list string) (n_ens_vec : list Z)
    (agg_meths : list string) (d : string) : Prop :=
  d ∈ dataset_ls /\ n_ens_vec ≠ [] /\ agg_meths ≠ [].

(** The table of the network [nn] reports, for the dataset [d] and the
    ensemble method, the score, the aggregation method and the ensemble size
    of the line [r]. *)
Definition reported (res : best_results) (nn ens_method d : string)
    (r : panel_row) : Prop :=
  exists t line,
    slot nn res = Some t /\
    tb_rows t !! d = Some line /\
    line !! ens_method = Some (CFloat (score r)) /\
    line !! (ens_method +:+ "_agg") = Some (CStr (agg r)) /\
    line !! (ens_method +:+ "_n_ens") = Some (CInt (n_ens r)).

(** The best lines of the ensemble method [m] are reported in [res]: for
    every network type that the loop reaches with all scores present, and
    every dataset with candidates, the first candidate of least score. *)
Definition best_reported (fs : file_system) (data_path : string)
    (nn_vec agg_meths dataset_ls : list string) (n_ens_vec : list Z)
    (res : best_results) (m : string) : Prop :=
  exists df,
    get_panel_data fs data_path dataset_ls score_vec nn_vec n_ens_vec
      agg_meths m = Ok df /\
    forall pre nn post d,
      nn_vec = pre ++ nn :: post ->
      (forall nn', nn' ∈ pre ++ [nn] -> nan_free agg_meths df nn') ->
      candidates agg_meths df nn d ≠ [] ->
      exists r,
        idxmin (candidates agg_meths df nn d) = Some r /\
        reported res nn m d r.

(** [nan_free], decided. *)
Definition nan_free_b (agg_meths : list string) (df : list panel_row)
    (nn : string) : bool :=
  forallb
    (fun r => negb (str_in (agg r) agg_meths && (metric r =? "crps")
                    && (results.nn r =? nn))
              || negb (is_nan (score r)))
    df.

End best.

(* ===================================================================== *)
(** ** BQNModels.py *)
(* ===================================================================== *)

Module BQNModels.

Local Open Scope Q_scope.

(** [np.arange(start, stop, step)] for a positive step:
    [ceil((stop - start) / step)] values [start + i * step]. *)
Definition arange (start stop step : Q) : list Q :=
  List.map (fun i => start + inject_Z (Z.of_nat i) * step)
    (seq 0 (Z.to_nat (Qceiling ((stop - start) / step)))).

(** [BQNBaseModel.__init__]: the quantile levels of the model. *)
Definition init_q_levels (q_levels : option (list Q)) : list Q :=
  match q_levels with
  | None => let step := 1 / 100 in arange (1 / 100) (1 + step) step
  | Some levels => levels
  end.

(** The hyperparameters that the reconstruction reads. *)
Definition p_degree : nat := 12.
Definition n_q : Z := 99.

(** [_build]: equidistant quantile levels for the loss function. *)
Definition q_levels_loss : list Q :=
  arange (1 / inject_Z (n_q + 1)) (inject_Z (n_q + 1) / inject_Z (n_q + 1))
    (1 / inject_Z (n_q + 1)).

Fixpoint choose (n k : nat) : nat :=
  match k, n with
  | O, _ => 1%nat
  | S _, O => 0%nat
  | S k', S n' => (choose n' k' + choose n' k)%nat
  end.

Fixpoint qpow (x : Q) (n : nat) : Q :=
  match n with
  | O => 1
  | S n' => x * qpow x n'
  end.

(** [ss.binom.pmf(k, n, p)], the [k]-th Bernstein basis polynomial of
    degree [n] at [p]. *)
Definition binom_pmf (k n : nat) (p : Q) : Q :=
  inject_Z (Z.of_nat (choose n k)) * qpow p k * qpow (1 - p) (n - k).

(** The basis of degree [n] at one level: [pmf(0..n, n, p)]. *)
Definition basis_row (n : nat) (p : Q) : list Q :=
  List.map (fun k => binom_pmf k n p) (seq 0 (S n)).

(** [_build]: [self.B], one line per quantile level of the loss. *)
Definition B : list (list Q) := List.map (basis_row p_degree) q_levels_loss.

(** [np.cumsum] / [K.cumsum] along a line. *)
Fixpoint cumsum_from (acc : Q) (xs : list Q) : list Q :=
  match xs with
  | [] => []
  | x :: xs' => (acc + x) :: cumsum_from (acc + x) xs'
  end.

Definition cumsum (xs : list Q) : list Q := cumsum_from 0 xs.

Fixpoint dot (xs ys : list Q) : Q :=
  match xs, ys with
  | x :: xs', y :: ys' => x * y + dot xs' ys'
  | _, _ => 0
  end.

(** [qt_loss]: [q = K.dot(K.cumsum(y_pred, axis=1), K.constant(self.B.T))],
    one line of quantiles per line of [y_pred]. *)
Definition loss_quantiles (y_pred : list (list Q)) : list (list Q) :=
  List.map (fun coeff => List.map (dot (cumsum coeff)) B) y_pred.

(** Modelled from the spec: [bern_quants] of [fn_eval], which is not among
    the sources.  "Evaluate the degree-p Bernstein basis at each target
    quantile level and take the dot product with the accumulated
    coefficients"; the degree is the number of coefficients less one, the
    basis is the one of [_build]. *)
Definition bern_quants (alpha : list (list Q)) (q_levels : list Q)
    : list (list Q) :=
  List.map (fun a =>
              List.map (fun p => dot a (basis_row (length a - 1) p)) q_levels)
    alpha.

(** [get_results]: accumulate the increments, then sum up the quantiles. *)
Definition get_results_alpha (coeff_bern : list (list Q)) : list (list Q) :=
  List.map cumsum coeff_bern.

Definition get_results_f (coeff_bern : list (list Q)) (q_levels : list Q)
    : list (list Q) :=
  bern_quants (get_results_alpha coeff_bern) q_levels.

(** [get_results]: transform the ranks to [n_ens + 1] bins,
    [np.ceil(rank * (n_ens + 1) / (q.shape[1] + 1))], unless the forecast
    has [n_ens] quantiles. *)
Definition transform_rank (n_ens : Z) (n_quantiles : nat) (rank : Q) : Q :=
  if (Z.of_nat n_quantiles =? n_ens)%Z then rank
  else inject_Z (Qceiling (rank * inject_Z (n_ens + 1)
                           / inject_Z (Z.of_nat n_quantiles + 1))).

Definition transform_ranks (n_ens : Z) (n_quantiles : nat) (ranks : list Q)
    : list Q :=
  List.map (transform_rank n_ens n_quantiles) ranks.

(** *** Notions for the properties *)

(** Consecutive levels are [step] apart. *)
Definition equidistant (step : Q) (levels : list Q) : Prop :=
  forall (i : nat) p q,
    levels !! i = Some p -> levels !! S i = Some q -> q - p == step.

(** The coefficients after the first (the increments that come out of the
    softplus layer) are not negative. *)
Definition increments_nonneg (coeff : list Q) : Prop :=
  Forall (fun a => 0 <= a) (tl coeff).

Definition sumQ (l : list Q) : Q := fold_right Qplus 0 l.

(** The Bernstein polynomial of degree [n] with coefficients [c 0 .. c n]. *)
Definition bernstein (n : nat) (c : nat -> Q) (t : Q) : Q :=
  sumQ (List.map (fun k => c k * binom_pmf k n t) (seq 0 (S n))).

End BQNModels.

(* ===================================================================== *)
(** ** ss_1_ensemble.py *)
(* ===================================================================== *)

Module ss_1_ensemble.

(** The generation of the deep ensembles acts on the world: it reads one
    file, sets the seed of the global random generator of numpy, lets the
    networks draw from that generator, and writes one file per member.
    What is behind the imports ([fn_nn_ss], [fn_upit], the generator, the
    contents of the files) is kept abstract. *)
Section Ensemble.

(** The contents of [scen_{i_scenario}_sim_{i_sim}.pkl] and of a member. *)
Variable dataset : Type.
Variable prediction : Type.

(** The state of [np.random], and the state that [np.random.seed] sets. *)
Variable rng_state : Type.
Variable seed_state : Z -> rng_state.

(** What the run does, in order. *)
Inductive event : Type :=
| Seeded (seed : Z)
| Fitted (temp_nn : string) (i_ens : nat) (rng_before : rng_state)
| Dumped (path : string) (pred_nn : prediction).

Record world : Type := mk_world {
  files : string -> option dataset;
  rng : rng_state;
  trace : list event
}.

(** A post-processing function [{nn}_pp]: from the data, the indices of
    the validation set, the size of the ensemble and the number of cores,
    drawing from the generator. *)
Definition pp_fn : Type :=
  dataset -> list Z -> Z -> Q -> rng_state -> result (prediction * rng_state).

(** The module [fn_nn_ss], by attribute name. *)
Variable fn_nn_ss : string -> option pp_fn.

(** [fn_upit] applied to the ranks of a prediction, where it has ranks. *)
Variable transform_ranks_to_pit : prediction -> prediction.

(** [multiprocessing.cpu_count()] *)
Variable cpu_count : Z.

(** Actions: a state monad over the world, with exceptions. *)
Definition io (A : Type) : Type := world -> world * result A.

#[export] Instance io_ret : MRet io := fun A a w => (w, Ok a).

#[export] Instance io_bind : MBind io := fun A B k m w =>
  match m w with
  | (w', Ok a) => k a w'
  | (w', Raise e) => (w', Raise e)
  end.

Definition raise {A : Type} (e : exn) : io A := fun w => (w, Raise e).

Definition log (ev : event) : io unit := fun w =>
  (mk_world (files w) (rng w) (trace w ++ [ev]), Ok tt).

(** [with open(path, "rb") as f: pickle.load(f)] *)
Definition pickle_load (path : string) : io dataset := fun w =>
  match files w path with
  | Some d => (w, Ok d)
  | None => (w, Raise (FileNotFoundError path))
  end.

(** [getattr(fn_nn_ss, name)] *)
Definition get_pp (name : string) : io pp_fn :=
  match fn_nn_ss name with
  | Some f => mret f
  | None => raise (AttributeError name)
  end.

(** [np.random.seed(seed)]: the seed must fit 32 bits. *)
Definition np_random_seed (seed : Z) : io unit := fun w =>
  if ((0 <=? seed) && (seed <? 2 ^ 32))%Z
  then (mk_world (files w) (seed_state seed) (trace w ++ [Seeded seed]),
        Ok tt)
  else (w, Raise (ValueError "Seed must be between 0 and 2**32 - 1")).

(** A call of the post-processing function: it starts from the current
    state of the generator and leaves the next one. *)
Definition call_pp (fn_pp : pp_fn) (temp_nn : string) (i_ens : nat)
    (d : dataset) (i_valid : list Z) (n_ens : Z) (num_cores : Q)
    : io prediction := fun w =>
  let w1 := mk_world (files w) (rng w)
              (trace w ++ [Fitted temp_nn i_ens (rng w)]) in
  match fn_pp d i_valid n_ens num_cores (rng w) with
  | Ok (pred_nn, rng') => (mk_world (files w1) rng' (trace w1), Ok pred_nn)
  | Raise e => (w1, Raise e)
  end.

(** [pickle.dump([pred_nn, y_valid, y_test], f)] *)
Definition pickle_dump (path : string) (pred_nn : prediction) : io unit :=
  log (Dumped path pred_nn).

Fixpoint for_io {A : Type} (xs : list A) (body : A -> io unit) : io unit :=
  match xs with
  | [] => mret tt
  | x :: xs' => _ ← body x; for_io xs' body
  end.

Definition member_file (temp_nn : string) (i_scenario i_sim : Z)
    (i_ens : nat) : string :=
  temp_nn +:+ "_scen_" +:+ pretty i_scenario +:+ "_sim_" +:+ pretty i_sim
    +:+ "_ens_" +:+ pretty i_ens +:+ ".pkl".

(** The body of the loop over the ensemble members: postprocessing,
    transformation of the ranks, saving of the member. *)
Definition member_body (fn_pp : pp_fn) (temp_nn : string)
    (i_scenario i_sim n_ens : Z) (d : dataset) (i_valid : list Z)
    (num_cores : Q) (data_out_path : string) (i_ens : nat) : io unit :=
  pred_nn ← call_pp fn_pp temp_nn i_ens d i_valid n_ens num_cores;
  let pred_nn := transform_ranks_to_pit pred_nn in
  pickle_dump
    (path_join data_out_path (member_file temp_nn i_scenario i_sim i_ens))
    pred_nn.

(** The body of the loop over the network variants. *)
Definition variant_body (i_scenario i_sim n_ens : Z) (d : dataset)
    (i_valid : list Z) (num_cores : Q) (data_out_path : string)
    (temp_nn : string) : io unit :=
  (* Read out function *)
  fn_pp ← get_pp (temp_nn +:+ "_pp");
  (* Set seed (same for each network variant) *)
  _ ← np_random_seed (123 + 10 * i_scenario + 100 * i_sim);
  (* For-Loop over ensemble member *)
  for_io (seq 0 (Z.to_nat n_ens))
    (member_body fn_pp temp_nn i_scenario i_sim n_ens d i_valid num_cores
       data_out_path).

Definition run_ensemble (i_scenario i_sim n_ens : Z) (nn_vec : list string)
    (data_in_path data_out_path : string) : io unit :=
  (* Choose number of cores *)
  let num_cores := (inject_Z cpu_count / 2 - 1)%Q in
  (* Load corresponding data *)
  let temp_data_in_path :=
    path_join data_in_path
      ("scen_" +:+ pretty i_scenario +:+ "_sim_" +:+ pretty i_sim +:+ ".pkl")
  in
  d ← pickle_load temp_data_in_path;
  (* Indices of validation set *)
  let i_valid := if (i_scenario =? 6)%Z then seqZ 2500 (3000 - 2500)
                 else seqZ 5000 (6000 - 5000) in
  (* For-Loop over network variants *)
  for_io nn_vec
    (variant_body i_scenario i_sim n_ens d i_valid num_cores data_out_path).

(** The seeds that a trace has set, in order. *)
Definition seeds (evs : list event) : list Z :=
  omap (fun ev => match ev with Seeded s => Some s | _ => None end) evs.

(** The states of the generator from which the first member of each
    network variant was fitted. *)
Definition first_member_states (evs : list event) : list rng_state :=
  omap (fun ev => match ev with
                  | Fitted _ O st => Some st
                  | _ => None
                  end) evs.

(** The events that an action adds to the trace of the world. *)
Definition events_of (m : io unit) (w : world) : list event :=
  drop (length (trace w)) (trace (fst (m w))).

End Ensemble.

Arguments Seeded {prediction rng_state} seed.
Arguments Fitted {prediction rng_state} temp_nn i_ens rng_before.
Arguments Dumped {prediction rng_state} path pred_nn.
Arguments mk_world {dataset prediction rng_state} files rng trace.
Arguments files {dataset prediction rng_state} w.
Arguments rng {dataset prediction rng_state} w.
Arguments trace {dataset prediction rng_state} w.
Arguments seeds {prediction rng_state} evs.
Arguments first_member_states {prediction rng_state} evs.
Arguments events_of {dataset prediction rng_state} m w.
Arguments raise {dataset prediction rng_state A} e.
Arguments log {dataset prediction rng_state} ev.
Arguments pickle_load {dataset prediction rng_state} path.
Arguments get_pp {dataset prediction rng_state} fn_nn_ss name.
Arguments np_random_seed {dataset prediction rng_state} seed_state seed.
Arguments call_pp {dataset prediction rng_state} fn_pp temp_nn i_ens d
  i_valid n_ens num_cores.
Arguments pickle_dump {dataset prediction rng_state} path pred_nn.
Arguments for_io {dataset prediction rng_state A} xs body.
Arguments member_body {dataset prediction rng_state} transform_ranks_to_pit
  fn_pp temp_nn i_scenario i_sim n_ens d i_valid num_cores data_out_path
  i_ens.
Arguments variant_body {dataset prediction rng_state} seed_state fn_nn_ss
  transform_ranks_to_pit i_scenario i_sim n_ens d i_valid num_cores
  data_out_path temp_nn.
Arguments run_ensemble {dataset prediction rng_state} seed_state fn_nn_ss
  transform_ranks_to_pit cpu_count i_scenario i_sim n_ens nn_vec
  data_in_path data_out_path.

End ss_1_ensemble.

(* ===================================================================== *)
(** ** Vincentization *)
(* ===================================================================== *)

Module aggregation.

Local Open Scope Q_scope.

(** The four variants of Vincentization ("vi", "vi-a", "vi-w", "vi-aw"). *)
Inductive variant : Type := vi | vi_a | vi_w | vi_aw.

(** [figures.py], [plot_example_aggregation]: the intercept and the weight
    of each variant in the example with [n] normal forecasts, and the mean
    and standard deviation of the aggregated normal distribution,
    [mu_vi = a + w * sum(mu)], [sd_vi = w * sum(sd)]. *)
Definition example_intercept (temp : variant) : Q :=
  match temp with
  | vi | vi_w => 0
  | vi_a | vi_aw => - 6
  end.

Definition example_weight (temp : variant) (n : Z) : Q :=
  match temp with
  | vi | vi_a => 1 / inject_Z n
  | vi_w | vi_aw => 1 / inject_Z n + (15 # 100)
  end.

Definition example_mu_sd (temp : variant) (n : Z) (mus sds : list Q) : Q * Q :=
  let a := example_intercept temp in
  let w := example_weight temp n in
  (a + w * BQNModels.sumQ mus, w * BQNModels.sumQ sds).

(** The parameters that a variant estimates on the validation data. *)
Record estimate : Type := mk_estimate {
  est_a : Q;
  est_w : list Q
}.

(** Modelled from the spec: the Vincentization aggregator of the
    aggregation step ([ss_2_aggregation]), which is not among the sources.
    "[Q_agg(p) = a + sum_k w_k * Q_k(p)] for every quantile level [p]", the
    members being given on the same grid of levels. *)
Definition vincentize (a : Q) (w : list Q) (members : list (list Q))
    : list Q :=
  match members with
  | [] => []
  | f :: _ =>
      List.map
        (fun j =>
           a + BQNModels.sumQ
                 (List.map (fun wm => fst wm * nth j (snd wm) 0)
                    (combine w members)))
        (seq 0 (length f))
  end.

(** Modelled from the spec: the table of the variants.  The intercept is
    fixed at 0 for "vi" and "vi-w" and estimated otherwise; the weights are
    fixed at 1/K each for "vi" and "vi-a" and estimated otherwise. *)
Definition intercept_of (v : variant) (est : estimate) : Q :=
  match v with
  | vi | vi_w => 0
  | vi_a | vi_aw => est_a est
  end.

Definition weights_of (v : variant) (est : estimate) (K : nat) : list Q :=
  match v with
  | vi | vi_a => repeat (1 / inject_Z (Z.of_nat K)) K
  | vi_w | vi_aw => est_w est
  end.

(** Modelled from the spec: the aggregated forecast of a variant.  "Edge
    case: if [K=1] (no aggregation needed), all variants must degenerate to
    the identity forecast"; otherwise the formula with the intercept and the
    weights of the variant. *)
Definition aggregate (v : variant) (est : estimate)
    (members : list (list Q)) : list Q :=
  match members with
  | [f] => f
  | _ =>
      vincentize (intercept_of v est) (weights_of v est (length members))
        members
  end.

(** The estimated weights are constrained: one for each member, sum 1. *)
Definition constrained (est : estimate) (K : nat) : Prop :=
  length (est_w est) = K /\ BQNModels.sumQ (est_w est) == 1.

(** Two forecasts on the same grid agree at every level. *)
Definition same_forecast (f g : list Q) : Prop := Forall2 Qeq f g.

End aggregation.

(* ===================================================================== *)
(** ** figures.py: the indices of plot_pit_ens *)
(* ===================================================================== *)

Module pit_indices.

(** [list(range(n))] *)
Definition range (n : Z) : list Z := seqZ 0 n.

(** [max(l)] of a list of integers. *)
Definition max (l : list Z) : result Z :=
  match l with
  | [] => Raise (ValueError "max() arg is an empty sequence")
  | x :: l' => Ok (foldl Z.max x l')
  end.

(** [[f(el) for el in l]]: the elements are computed one after the other. *)
Fixpoint comprehension {A B : Type} (f : A -> result B) (l : list A)
    : result (list B) :=
  match l with
  | [] => Ok []
  | x :: l' => y ← f x; ys ← comprehension f l'; Ok (y :: ys)
  end.

(** [plot_pit_ens]: the index vectors for validation and testing, from the
    cells [n_valid] and [n_test] of the evaluation table. *)
Definition i_valid (n_valid : Z) : list Z := range n_valid.

Definition i_test (n_valid n_test : Z) : result (list Z) :=
  comprehension (fun el => m ← max (i_valid n_valid); Ok (m + el))
    (range n_test).

End pit_indices.
(* ===================================================================== *)
(** ** Example data *)
(* ===================================================================== *)

Module examples.
Import results.

Definition line (model type nn : string) (cells : list (string * float))
    : score_row :=
  mk_score_row model type nn (list_to_map cells).

(** A simulated scenario in which the ensemble members score exactly as
    well as the optimal forecast. *)
Definition scen_1_scores : frame :=
  mk_frame ["n_rep"; "n_ens"; "crps"]
    [ line "scen_1" "ref" "ref" [("crps", of_int 2)];
      line "scen_1" "ind" "drn" [("n_rep", of_int 1); ("crps", of_int 2)];
      line "scen_1" "ind" "drn" [("n_rep", of_int 2); ("crps", of_int 2)];
      line "scen_1" "vi" "drn" [("n_ens", of_int 2); ("crps", of_int 1)] ].

(** A dataset that is no simulated scenario. *)
Definition boston_scores : frame :=
  mk_frame ["n_rep"; "n_ens"; "crps"]
    [ line "boston" "ref" "ref" [("crps", of_int 2)];
      line "boston" "ind" "drn" [("n_rep", of_int 1); ("crps", of_int 4)];
      line "boston" "ind" "drn" [("n_rep", of_int 2); ("crps", of_int 4)];
      line "boston" "vi" "drn" [("n_ens", of_int 2); ("crps", of_int 3)];
      line "boston" "vi" "bqn" [("n_ens", of_int 2); ("crps", of_int 5)];
      line "boston" "ind" "bqn" [("n_rep", of_int 1); ("crps", of_int 6)] ].

Definition files : file_system := fun path =>
  if path =? "data/scen_1/eval_scen_1_rand_init.pkl" then Some scen_1_scores
  else if path =? "data/boston/eval_boston_rand_init.pkl"
       then Some boston_scores
  else None.

(** The panels of the two datasets: one network, one ensemble size, one
    aggregation method. *)
Definition run_panel (ds : string) : result (list panel_row) :=
  get_panel_data files "data/dataset" [ds] ["crps"; "crpss"] ["drn"] [2]
    ["vi"] "rand_init".

Definition scen_1_panel : list panel_row :=
  Eval vm_compute in
    match run_panel "scen_1" with Ok df => df | Raise _ => [] end.

Definition boston_panel : list panel_row :=
  Eval vm_compute in
    match run_panel "boston" with Ok df => df | Raise _ => [] end.

(** Scores of a dataset for which only the network "bqn" was run. *)
Definition all_columns : list string :=
  ["n_rep"; "n_ens"; "crps"; "me"; "lgt"; "cov"; "a"; "w"].

Definition energy_scores : frame :=
  mk_frame all_columns
    [ line "energy" "ind" "bqn" [("n_rep", of_int 1); ("crps", of_int 6)];
      line "energy" "ind" "bqn" [("n_rep", of_int 2); ("crps", of_int 8)];
      line "energy" "lp" "bqn" [("n_ens", of_int 2); ("crps", of_int 5)];
      line "energy" "vi" "bqn" [("n_ens", of_int 2); ("crps", of_int 4)];
      line "energy" "lp" "bqn" [("n_ens", of_int 4); ("crps", of_int 3)];
      line "energy" "vi" "bqn" [("n_ens", of_int 4); ("crps", of_int 3)] ].

Definition energy_files : file_system := fun path =>
  if path =? "data/energy/eval_energy_rand_init.pkl" then Some energy_scores
  else None.

Definition energy_best (nn_vec : list string) : result best.best_results :=
  best.get_best_result_table energy_files "data/dataset" nn_vec ["rand_init"]
    ["lp"; "vi"] ["energy"] [2; 4].

Definition energy_panel : list panel_row :=
  Eval vm_compute in
    match get_panel_data energy_files "data/dataset" ["energy"]
            best.score_vec ["bqn"; "drn"] [2; 4] ["lp"; "vi"] "rand_init"
    with Ok df => df | Raise _ => [] end.

Definition energy_panel_drn_first : list panel_row :=
  Eval vm_compute in
    match get_panel_data energy_files "data/dataset" ["energy"]
            best.score_vec ["drn"; "bqn"] [2; 4] ["lp"; "vi"] "rand_init"
    with Ok df => df | Raise _ => [] end.

Definition energy_tables : best.best_results :=
  Eval vm_compute in
    match energy_best ["bqn"; "drn"] with
    | Ok res => res
    | Raise _ => best.mk_best_results None None
    end.

(** A toy world for [run_ensemble]: the data are opaque, a prediction is
    the number drawn, the generator is a counter that the seed sets. *)
Definition toy_pp : ss_1_ensemble.pp_fn unit Z Z :=
  fun _ _ _ _ st => Ok (st, st + 1).

Definition toy_fn_nn_ss (name : string)
    : option (ss_1_ensemble.pp_fn unit Z Z) :=
  if (name =? "drn_pp") || (name =? "bqn_pp") then Some toy_pp else None.

Definition toy_world : ss_1_ensemble.world unit Z Z :=
  ss_1_ensemble.mk_world
    (fun path => if path =? "data/ss_data/scen_1_sim_1.pkl" then Some tt
                 else None)
    0 [].

Definition toy_run (n_ens : Z) (nn_vec : list string)
    : ss_1_ensemble.io unit Z Z unit :=
  ss_1_ensemble.run_ensemble (fun seed => seed) toy_fn_nn_ss (fun p => p) 8
    1 1 n_ens nn_vec "data/ss_data" "data/model".

End examples.

(* ===================================================================== *)
(** ** results.py: get_skills_table *)
(* ===================================================================== *)

Module skills.
Import results.

(** [get_skills_table] can raise what [get_panel_data] raises, a
    [KeyError], and the [IndexError] of [.iloc[0]] on no lines. *)
Inductive error : Type :=
| Exn (e : exn)
| IndexError (what : string).

Inductive outcome (A : Type) : Type :=
| Done (a : A)
| Failed (e : error).
Arguments Done {A} a.
Arguments Failed {A} e.

Fixpoint for_out {A S : Type} (xs : list A) (s : S)
    (body : A -> S -> outcome S) : outcome S :=
  match xs with
  | [] => Done s
  | x :: xs' =>
      match body x s with
      | Done s' => for_out xs' s' body
      | Failed e => Failed e
      end
  end.

(** [Series.unique()]: the values in the order of their first appearance. *)
Fixpoint unique (l : list string) : list string :=
  match l with
  | [] => []
  | x :: l' => x :: List.filter (fun y => negb (y =? x)) (unique l')
  end.

(** [np.mean] of a list: the sum over the length, no cell is left out;
    the mean of no cell at all is NaN. *)
Definition np_mean (xs : list float) : float :=
  fdiv (fsum xs) (of_int (Z.of_nat (List.length xs))).

(** One line of [df_skills].  The columns [skill_{n_ens}] are kept by name;
    a column that a line does not have is NaN in that line. *)
Record skills_row : Type := mk_skills_row {
  sk_ens_method : string;
  sk_dataset : string;
  sk_nn : string;
  sk_agg : string;
  sk_skills : gmap string float;
  avg_skill : float
}.

Definition skill_key (n_ens : Z) : string := "skill_" +:+ pretty n_ens.

(** [{f"skill_{n_ens}": skill for (n_ens, skill) in zip(n_ens_vec, skills)}]:
    a later pair replaces an earlier one of the same key. *)
Definition dict_skills (n_ens_vec : list Z) (skills : list float)
    : gmap string float :=
  foldl (fun d p => <[skill_key p.1 := p.2]> d) ∅ (zip n_ens_vec skills).

(** [df_temp[df_temp["agg"] == agg]] and the list [skills]. *)
Definition agg_frame (df_temp : list panel_row) (agg : string)
    : list panel_row :=
  List.filter (fun r => results.agg r =? agg) df_temp.

Definition skills_of (df_temp_agg : list panel_row) : list float :=
  List.map score (List.filter (fun r => metric r =? "crpss") df_temp_agg).

(** The body of the loop over the aggregation methods. *)
Definition agg_body (ens_method : string) (n_ens_vec : list Z)
    (df_temp : list panel_row) (agg : string) (df_skills : list skills_row)
    : outcome (list skills_row) :=
  let df_temp_agg := agg_frame df_temp agg in
  let skills := skills_of df_temp_agg in
  let dict_skills := dict_skills n_ens_vec skills in
  match df_temp_agg with
  | [] => Failed (IndexError "single positional indexer is out-of-bounds")
  | r0 :: _ =>
      Done (df_skills ++
            [mk_skills_row ens_method (dataset r0) (nn r0) (results.agg r0)
               dict_skills (np_mean skills)])
  end.

(** [df[(df["dataset"] == dataset) & (df["nn"] == nn)]] *)
Definition network_frame (df : list panel_row) (dataset nn : string)
    : list panel_row :=
  List.filter
    (fun r => (results.dataset r =? dataset) && (results.nn r =? nn)) df.

(** The body of the loop over the ensemble methods.  A panel without lines
    has no columns. *)
Definition method_body (fs : file_system) (data_path : string)
    (dataset_ls score_vec nn_vec : list string) (n_ens_vec : list Z)
    (agg_meths : list string) (ens_method : string)
    (df_skills : list skills_row) : outcome (list skills_row) :=
  match get_panel_data fs data_path dataset_ls score_vec nn_vec n_ens_vec
          agg_meths ens_method with
  | Raise e => Failed (Exn e)
  | Ok [] => Failed (Exn (KeyError "dataset"))
  | Ok df =>
      for_out (unique (List.map results.dataset df)) df_skills
        (fun dataset df_skills =>
           for_out (unique (List.map results.nn df)) df_skills
             (fun nn df_skills =>
                (* Filtered for dataset, NN type and ens_method *)
                let df_temp := network_frame df dataset nn in
                for_out agg_meths df_skills
                  (agg_body ens_method n_ens_vec df_temp)))
  end.

Definition get_skills_table (fs : file_system) (data_path : string)
    (dataset_ls score_vec nn_vec : list string) (n_ens_vec : list Z)
    (agg_meths ens_method_ls : list string) : outcome (list skills_row) :=
  for_out ens_method_ls []
    (method_body fs data_path dataset_ls score_vec nn_vec n_ens_vec
       agg_meths).

(** *** The rows of each loop *)

Fixpoint collect_out {A R : Type} (xs : list A)
    (g : A -> outcome (list R)) : outcome (list R) :=
  match xs with
  | [] => Done []
  | x :: xs' =>
      match g x with
      | Done new =>
          match collect_out xs' g with
          | Done rest => Done (new ++ rest)
          | Failed e => Failed e
          end
      | Failed e => Failed e
      end
  end.

(** The line of a dataset, a network and an aggregation method. *)
Definition agg_line (ens_method : string) (n_ens_vec : list Z)
    (df : list panel_row) (dataset nn agg : string)
    : outcome (list skills_row) :=
  agg_body ens_method n_ens_vec (network_frame df dataset nn) agg [].

Definition method_lines (fs : file_system) (data_path : string)
    (dataset_ls score_vec nn_vec : list string) (n_ens_vec : list Z)
    (agg_meths : list string) (ens_method : string)
    : outcome (list skills_row) :=
  match get_panel_data fs data_path dataset_ls score_vec nn_vec n_ens_vec
          agg_meths ens_method with
  | Raise e => Failed (Exn e)
  | Ok [] => Failed (Exn (KeyError "dataset"))
  | Ok df =>
      collect_out (unique (List.map results.dataset df)) (fun dataset =>
        collect_out (unique (List.map results.nn df)) (fun nn =>
          collect_out agg_meths (agg_line ens_method n_ens_vec df dataset nn)))
  end.

(** *** Notions for the properties *)

(** The key columns (dataset, nn, metric, n_ens, agg) of the lines of the
    panel from which the skills of a dataset, a network and an aggregation
    method are read. *)
Definition crpss_key (dataset nn agg : string)
    (k : string * string * string * Z * string) : bool :=
  match k with
  | (d, t, s, _, g) =>
      (s =? "crpss") && ((g =? agg) && ((d =? dataset) && (t =? nn)))
  end.

End skills.

(* ===================================================================== *)
(** ** The shape of the panel *)
(* ===================================================================== *)

Module panel_shape.
Import results.

(** The five key columns of a line of the panel. *)
Definition panel_key (r : panel_row) : string * string * string * Z * string :=
  (dataset r, nn r, metric r, n_ens r, agg r).

(** The keys of the lines that the loops of [get_panel_data] append, in
    loop order: datasets, scores, networks, ensemble sizes, and the
    aggregation methods ["opt"; "ens"] + agg_meths less the skipped pairs. *)
Definition agg_keys (ds sr temp_nn : string) (i_ens : Z)
    (agg_meths : list string) : list (string * string * string * Z * string) :=
  List.map (fun g => (ds, temp_nn, sr, i_ens, g))
    (List.filter (fun g => negb (skipped sr g)) (["opt"; "ens"] ++ agg_meths)).

Definition panel_keys (dataset_ls score_vec nn_vec : list string)
    (n_ens_vec : list Z) (agg_meths : list string)
    : list (string * string * string * Z * string) :=
  flat_map (fun ds =>
    flat_map (fun sr =>
      flat_map (fun temp_nn =>
        flat_map (fun i_ens => agg_keys ds sr temp_nn i_ens agg_meths)
          n_ens_vec)
        nn_vec)
      score_vec)
    dataset_ls.

End panel_shape.

(* ===================================================================== *)
(** ** More example data *)
(* ===================================================================== *)

Module examples_more.
Import results examples.

(** The panel and the tables of the energy data when the network "bqn" is
    listed twice, and when it is listed alone. *)
Definition energy_panel_twice : list panel_row :=
  Eval vm_compute in
    match get_panel_data energy_files "data/dataset" ["energy"]
            best.score_vec ["bqn"; "bqn"] [2; 4] ["lp"; "vi"] "rand_init"
    with Ok df => df | Raise _ => [] end.

Definition energy_tables_bqn : best.best_results :=
  Eval vm_compute in
    match energy_best ["bqn"] with
    | Ok res => res
    | Raise _ => best.mk_best_results None None
    end.

(** The panel and the table of skills of the energy data. *)
Definition energy_skill_panel : list panel_row :=
  Eval vm_compute in
    match get_panel_data energy_files "data/dataset" ["energy"]
            ["crps"; "crpss"] ["bqn"] [2; 4] ["lp"; "vi"] "rand_init"
    with Ok df => df | Raise _ => [] end.

Definition energy_crpss_line : panel_row :=
  Eval vm_compute in
    match List.filter
            (fun r => (metric r =? "crpss") && (agg r =? "vi")
                      && (n_ens r =? 4)%Z)
            energy_skill_panel
    with r :: _ => r | [] => mk_panel_row "" "" "" 0 "" NaN end.

Definition table_of (o : skills.outcome (list skills.skills_row))
    : list skills.skills_row :=
  match o with skills.Done tbl => tbl | skills.Failed _ => [] end.

Definition energy_skills : list skills.skills_row :=
  Eval vm_compute in
    table_of
      (skills.get_skills_table energy_files "data/dataset" ["energy"]
         ["crps"; "crpss"] ["bqn"] [2; 4] ["lp"; "vi"] ["rand_init"]).

(** The same without the score "crpss", and for a network that has no
    lines in the evaluation table. *)
Definition energy_skills_crps_only : list skills.skills_row :=
  Eval vm_compute in
    table_of
      (skills.get_skills_table energy_files "data/dataset" ["energy"]
         ["crps"] ["bqn"] [2; 4] ["lp"; "vi"] ["rand_init"]).

Definition energy_skills_drn : list skills.skills_row :=
  Eval vm_compute in
    table_of
      (skills.get_skills_table energy_files "data/dataset" ["energy"]
         ["crps"; "crpss"] ["drn"] [2; 4] ["lp"] ["rand_init"]).

End examples_more.

(* ===================================================================== *)
(** ** BQNModels.py: the loss function *)
(* ===================================================================== *)

Module BQN_loss.
Import BQNModels.
Local Open Scope Q_scope.

(** [K.maximum] and [K.mean(.., axis=1)] on one line. *)
Definition qmax (a b : Q) : Q := if Qle_bool a b then b else a.

Definition mean_line (xs : list Q) : Q :=
  sumQ xs / inject_Z (Z.of_nat (length xs)).

Fixpoint times (xs ys : list Q) : list Q :=
  match xs, ys with
  | x :: xs', y :: ys' => x * y :: times xs' ys'
  | _, _ => []
  end.

Fixpoint maximum (xs ys : list Q) : list Q :=
  match xs, ys with
  | x :: xs', y :: ys' => qmax x y :: maximum xs' ys'
  | _, _ => []
  end.

(** The quantile loss of one observation [y] with the quantiles [q] of its
    line: [err = y_true - q], [e1 = err * q_levels_loss],
    [e2 = err * (q_levels_loss - 1)], [mean(maximum(e1, e2))]. *)
Definition quantile_loss (y : Q) (q : list Q) : Q :=
  let err := List.map (fun qj => y - qj) q in
  let e1 := times err q_levels_loss in
  let e2 := times err (List.map (fun tau => tau - 1) q_levels_loss) in
  mean_line (maximum e1 e2).

Fixpoint lines_loss (y_true : list Q) (q : list (list Q)) : list Q :=
  match y_true, q with
  | y :: y_true', qline :: q' => quantile_loss y qline :: lines_loss y_true' q'
  | _, _ => []
  end.

(** [qt_loss(y_true, y_pred)]: one loss for each observation. *)
Definition qt_loss (y_true : list Q) (y_pred : list (list Q)) : list Q :=
  lines_loss y_true (loss_quantiles y_pred).

End BQN_loss.

(* ===================================================================== *)
(** ** ss_1_ensemble.py: the files of the ensemble members *)
(* ===================================================================== *)

Module ensemble_files.
Import ss_1_ensemble.

(** The paths that a trace has written to, in order. *)
Definition dumped {prediction rng_state : Type}
    (evs : list (event prediction rng_state)) : list string :=
  omap (fun ev => match ev with Dumped path _ => Some path | _ => None end)
    evs.

(** The members that a trace has fitted, in order. *)
Definition fitted {prediction rng_state : Type}
    (evs : list (event prediction rng_state)) : list (string * nat) :=
  omap (fun ev => match ev with
                  | Fitted temp_nn i_ens _ => Some (temp_nn, i_ens)
                  | _ => None
                  end) evs.

(** The members of the ensembles of the networks [nn_vec]. *)
Definition members (n_ens : Z) (nn_vec : list string) : list (string * nat) :=
  flat_map (fun temp_nn =>
              List.map (fun i_ens => (temp_nn, i_ens))
                (seq 0 (Z.to_nat n_ens))) nn_vec.

(** The file of a member, [temp_data_out_path]. *)
Definition member_path (data_out_path : string) (i_scenario i_sim : Z)
    (member : string * nat) : string :=
  path_join data_out_path
    (member_file (fst member) i_scenario i_sim (snd member)).

End ensemble_files.

(* ===================================================================== *)
(** * Part II: properties *)
(* ===================================================================== *)

(* ===================================================================== *)
(** ** Loops that append *)
(* ===================================================================== *)

Section Loops.
Context {A R : Type}.
Implicit Types (xs : list A) (g : A -> result (list R)).

Lemma bind_Ok_inv {X Y : Type} (m : result X) (k : X -> result Y) (y : Y) :
  (x ← m; k x) = Ok y -> exists x, m = Ok x /\ k x = Ok y.
Proof. destruct m as [x|e]; simpl; intros H; [eauto | discriminate]. Qed.

(** A loop whose body appends [g x] to the state appends [collect xs g]. *)
Lemma for_each_collect xs g (body : A -> list R -> result (list R)) :
  (forall x acc, body x acc = (new ← g x; Ok (acc ++ new))) ->
  forall acc, for_each xs acc body = (new ← collect xs g; Ok (acc ++ new)).
Proof.
  intros Hbody. induction xs as [|x xs IH]; intros acc; simpl.
  - by rewrite app_nil_r.
  - rewrite Hbody. destruct (g x) as [new|e]; simpl; [|done].
    rewrite IH. destruct (collect xs g) as [rest|e]; simpl; [|done].
    by rewrite app_assoc.
Qed.

Lemma collect_ext xs g g' :
  (forall x, g x = g' x) -> collect xs g = collect xs g'.
Proof.
  intros E. induction xs as [|x xs IH]; simpl; [done|]. by rewrite E, IH.
Qed.

(** The rows of a finished loop are the rows of its rounds. *)
Lemma collect_elem xs g rs (r : R) :
  collect xs g = Ok rs ->
  r ∈ rs <-> exists x new, x ∈ xs /\ g x = Ok new /\ r ∈ new.
Proof.
  revert rs. induction xs as [|x xs IH]; simpl; intros rs H.
  - injection H as <-. split.
    + intros Hr. by apply elem_of_nil in Hr.
    + intros (x & new & Hx & _). by apply elem_of_nil in Hx.
  - apply bind_Ok_inv in H as (new & Hg & H).
    apply bind_Ok_inv in H as (rest & Hrest & H). injection H as <-.
    rewrite elem_of_app, (IH rest Hrest). split.
    + intros [Hr | (y & new' & Hy & Hgy & Hr)].
      * exists x, new. split; [apply list_elem_of_here | done].
      * exists y, new'. split; [by apply list_elem_of_further | done].
    + intros (y & new' & Hy & Hgy & Hr).
      apply elem_of_cons in Hy as [-> | Hy].
      * left. congruence.
      * right. eauto.
Qed.

(** A loop finishes when each of its rounds does. *)
Lemma collect_total xs g :
  (forall x, x ∈ xs -> exists new, g x = Ok new) ->
  exists rs, collect xs g = Ok rs.
Proof.
  induction xs as [|x xs IH]; simpl; intros H; [eauto|].
  destruct (H x) as (new & ->); [apply list_elem_of_here|]. simpl.
  destruct IH as (rest & ->); [|simpl; eauto].
  intros y Hy. apply H. by apply list_elem_of_further.
Qed.

(** ... and only then. *)
Lemma collect_Ok_each xs g rs x :
  collect xs g = Ok rs -> x ∈ xs -> exists new, g x = Ok new.
Proof.
  revert rs. induction xs as [|y xs IH]; simpl; intros rs H Hx.
  - by apply elem_of_nil in Hx.
  - apply bind_Ok_inv in H as (new & Hg & H).
    apply bind_Ok_inv in H as (rest & Hrest & _).
    apply elem_of_cons in Hx as [-> | Hx]; eauto.
Qed.
End Loops.

(* ===================================================================== *)
(** ** get_panel_data: what the loops return *)
(* ===================================================================== *)

Section Panel.
Import results.

Variable fs : file_system.
Variables (data_path ens_method : string).
Variables (dataset_ls score_vec nn_vec agg_meths : list string).
Variable n_ens_vec : list Z.

Lemma agg_body_rows ds temp_sr temp_out temp_nn s_opt df_nn i_ens temp_agg
    df_plot :
  agg_body ds temp_sr temp_out temp_nn s_opt df_nn i_ens temp_agg df_plot =
  (new ← agg_rows ds temp_sr temp_out temp_nn s_opt df_nn i_ens temp_agg;
   Ok (df_plot ++ new)).
Proof.
  unfold agg_body, agg_rows. destruct (skipped temp_sr temp_agg); simpl.
  - by rewrite app_nil_r.
  - by destruct (cell_score _ _ _ _ _ _).
Qed.

Lemma score_body_rows ds avail df_sc temp_sr df_plot :
  score_body ds avail df_sc nn_vec n_ens_vec agg_meths temp_sr df_plot =
  (new ← score_rows ds avail df_sc nn_vec n_ens_vec agg_meths temp_sr;
   Ok (df_plot ++ new)).
Proof.
  unfold score_body, score_rows.
  destruct (optimal_score _ _ _ _) as [s_opt|e]; simpl; [|done].
  apply for_each_collect. intros temp_nn acc. unfold nn_rows.
  apply for_each_collect. intros i_ens acc'. unfold ens_rows.
  exact (for_each_collect (["opt"; "ens"] ++ agg_meths) _ _
           (agg_body_rows _ _ _ _ _ _ _) acc').
Qed.

Lemma dataset_body_rows ds df_plot :
  dataset_body fs data_path score_vec nn_vec n_ens_vec agg_meths ens_method
    ds df_plot =
  (new ← dataset_rows fs data_path score_vec nn_vec n_ens_vec agg_meths
           ens_method ds;
   Ok (df_plot ++ new)).
Proof.
  unfold dataset_body, dataset_rows.
  destruct (load _ _) as [df|e]; simpl; [|done].
  apply for_each_collect. intros temp_sr acc. apply score_body_rows.
Qed.

(** [get_panel_data] returns the rows of its loops, in loop order. *)
Lemma get_panel_data_rows :
  get_panel_data fs data_path dataset_ls score_vec nn_vec n_ens_vec
    agg_meths ens_method =
  panel_rows fs data_path dataset_ls score_vec nn_vec n_ens_vec agg_meths
    ens_method.
Proof.
  unfold get_panel_data, panel_rows.
  rewrite (for_each_collect _ _ _ dataset_body_rows).
  by destruct (collect _ _).
Qed.

Lemma agg_rows_elem ds temp_sr temp_out temp_nn s_opt df_nn i_ens temp_agg
    new r :
  agg_rows ds temp_sr temp_out temp_nn s_opt df_nn i_ens temp_agg = Ok new ->
  r ∈ new <->
  skipped temp_sr temp_agg = false /\
  exists sc, cell_score temp_sr temp_out s_opt df_nn i_ens temp_agg = Ok sc /\
             r = mk_panel_row ds temp_nn temp_sr i_ens temp_agg sc.
Proof.
  unfold agg_rows. destruct (skipped temp_sr temp_agg).
  - intros [= <-]. rewrite elem_of_nil. split; [done | by intros [? _]].
  - intros H. apply bind_Ok_inv in H as (sc & Hsc & [= <-]).
    rewrite list_elem_of_singleton. split.
    + intros ->. eauto.
    + intros (_ & sc' & Hsc' & ->). congruence.
Qed.

Lemma panel_rows_elem df r :
  panel_rows fs data_path dataset_ls score_vec nn_vec n_ens_vec agg_meths
    ens_method = Ok df ->
  r ∈ df <->
  panel_cell fs data_path dataset_ls score_vec nn_vec n_ens_vec agg_meths
    ens_method r.
Proof.
  unfold panel_rows, panel_cell. intros Hdf.
  rewrite (collect_elem _ _ _ _ Hdf). split.
  - intros (ds & new1 & Hds & H1 & Hr). unfold dataset_rows in H1.
    apply bind_Ok_inv in H1 as (df_scores & Hload & H1).
    apply (collect_elem _ _ _ r) in H1. apply H1 in Hr.
    destruct Hr as (temp_sr & new2 & Hsr & H2 & Hr). unfold score_rows in H2.
    apply bind_Ok_inv in H2 as (s_opt & Hopt & H2).
    apply (collect_elem _ _ _ r) in H2. apply H2 in Hr.
    destruct Hr as (temp_nn & new3 & Hnn & H3 & Hr). unfold nn_rows in H3.
    apply (collect_elem _ _ _ r) in H3. apply H3 in Hr.
    destruct Hr as (i_ens & new4 & Hens & H4 & Hr). unfold ens_rows in H4.
    apply (collect_elem _ _ _ r) in H4. apply H4 in Hr.
    destruct Hr as (temp_agg & new5 & Hagg & H5 & Hr).
    apply (agg_rows_elem _ _ _ _ _ _ _ _ _ _ H5) in Hr.
    destruct Hr as (Hskip & sc & Hsc & ->). simpl.
    exists df_scores, s_opt. done.
  - intros (df_scores & s_opt & Hds & Hload & Hsr & Hopt & Hnn & Hens & Hagg
            & Hskip & Hsc).
    destruct (collect_Ok_each _ _ _ _ Hdf Hds) as (new1 & H1).
    exists (dataset r), new1. split_and!; [done..|].
    unfold dataset_rows in H1. rewrite Hload in H1. simpl in H1.
    rewrite (collect_elem _ _ _ _ H1).
    destruct (collect_Ok_each _ _ _ _ H1 Hsr) as (new2 & H2).
    exists (metric r), new2. split_and!; [done..|].
    unfold score_rows in H2. rewrite Hopt in H2. simpl in H2.
    rewrite (collect_elem _ _ _ _ H2).
    destruct (collect_Ok_each _ _ _ _ H2 Hnn) as (new3 & H3).
    exists (nn r), new3. split_and!; [done..|].
    unfold nn_rows in H3. rewrite (collect_elem _ _ _ _ H3).
    destruct (collect_Ok_each _ _ _ _ H3 Hens) as (new4 & H4).
    exists (n_ens r), new4. split_and!; [done..|].
    unfold ens_rows in H4. rewrite (collect_elem _ _ _ _ H4).
    destruct (collect_Ok_each _ _ _ _ H4 Hagg) as (new5 & H5).
    exists (agg r), new5. split_and!; [done..|].
    rewrite (agg_rows_elem _ _ _ _ _ _ _ _ _ _ H5). split; [done|].
    exists (score r). split; [done|]. by destruct r.
Qed.
(** The rows returned by [get_panel_data] are the cells of the panel. *)
Lemma get_panel_data_elem df r :
  get_panel_data fs data_path dataset_ls score_vec nn_vec n_ens_vec
    agg_meths ens_method = Ok df ->
  r ∈ df <->
  panel_cell fs data_path dataset_ls score_vec nn_vec n_ens_vec agg_meths
    ens_method r.
Proof. rewrite get_panel_data_rows. apply panel_rows_elem. Qed.

End Panel.


Section PanelTotal.
Import results.

Lemma column_select df mask name :
  column (select df mask) name = column df name.
Proof. done. Qed.

Lemma column_numeric df name :
  numeric_column df name -> column df name = Ok (cell name).
Proof. intros [H1 H2]. unfold column. by rewrite H1, H2. Qed.

Lemma column_mean_numeric df mask name :
  numeric_column df name ->
  column_mean df mask name =
  Ok (mean (List.map (cell name) (List.filter mask (rows df)))).
Proof.
  intros H. unfold column_mean. rewrite column_select, (column_numeric _ _ H).
  done.
Qed.

Lemma reference_score_numeric df mask temp_out i_ens :
  numeric_column df "n_rep" -> numeric_column df temp_out ->
  exists v, reference_score (select df mask) temp_out i_ens = Ok v.
Proof.
  intros H1 H2. unfold reference_score.
  rewrite column_select, (column_numeric _ _ H1). simpl.
  rewrite column_mean_numeric; [eauto | done].
Qed.

Lemma read_out_score_numeric df mask temp_out i_ens temp_agg :
  numeric_column df "n_ens" -> numeric_column df temp_out ->
  exists v, read_out_score (select df mask) temp_out i_ens temp_agg = Ok v.
Proof.
  intros H1 H2. unfold read_out_score.
  rewrite column_select, (column_numeric _ _ H1). simpl.
  rewrite column_mean_numeric; [eauto | done].
Qed.

Lemma cell_score_numeric df mask temp_sr temp_out s_opt i_ens temp_agg :
  numeric_column df "n_rep" -> numeric_column df "n_ens" ->
  numeric_column df temp_out ->
  exists sc,
    cell_score temp_sr temp_out s_opt (select df mask) i_ens temp_agg = Ok sc.
Proof.
  intros H1 H2 H3. unfold cell_score.
  destruct (reference_score_numeric df mask temp_out i_ens H1 H3) as (v & ->).
  simpl. destruct (temp_agg =? "ens"); [eauto|].
  destruct (temp_agg =? "opt"); [eauto|].
  destruct (read_out_score_numeric df mask temp_out i_ens temp_agg H2 H3)
    as (w & ->).
  simpl. eauto.
Qed.

Lemma optimal_score_numeric avail df temp_sr temp_out :
  numeric_column df temp_out ->
  exists v, optimal_score avail df temp_sr temp_out = Ok v.
Proof.
  intros H. unfold optimal_score.
  destruct (avail && negb (str_in temp_sr ["a"; "w"])); [|eauto].
  rewrite column_mean_numeric; [eauto | done].
Qed.

(** [get_panel_data] returns whenever the files and the columns are there:
    no value of a cell makes it raise. *)
Lemma get_panel_data_total fs data_path dataset_ls score_vec nn_vec n_ens_vec
    agg_meths ens_method :
  panel_inputs_ok fs data_path dataset_ls score_vec ens_method ->
  exists df,
    get_panel_data fs data_path dataset_ls score_vec nn_vec n_ens_vec
      agg_meths ens_method = Ok df.
Proof.
  intros Hok. rewrite get_panel_data_rows. unfold panel_rows.
  apply collect_total. intros ds Hds.
  destruct (Hok ds Hds) as (df_scores & Hfs & Hrep & Hens & Hcols).
  unfold dataset_rows, load. rewrite Hfs. simpl.
  apply collect_total. intros temp_sr Hsr. unfold score_rows.
  destruct (optimal_score_numeric (startswith ds "scen")
              (scenario_frame df_scores ds) temp_sr (output_column temp_sr))
    as (s_opt & ->); [by apply Hcols|]. simpl.
  apply collect_total. intros temp_nn Hnn. unfold nn_rows.
  apply collect_total. intros i_ens Hi. unfold ens_rows.
  apply collect_total. intros temp_agg Hagg. unfold agg_rows.
  destruct (skipped temp_sr temp_agg); [eauto|].
  unfold network_frame.
  destruct (cell_score_numeric (scenario_frame df_scores ds)
              (fun r => sr_nn r =? temp_nn) temp_sr (output_column temp_sr)
              s_opt i_ens temp_agg) as (sc & ->); simpl; eauto.
Qed.
End PanelTotal.
(* ===================================================================== *)
(** ** get_panel_data: the claims *)
(* ===================================================================== *)

Section PanelClaims.
Import results.

Variable fs : file_system.
Variables (data_path ens_method : string).
Variables (dataset_ls score_vec nn_vec agg_meths : list string).
Variable n_ens_vec : list Z.

Lemma eqb_false_ne (s t : string) : s ≠ t -> (s =? t) = false.
Proof. intros H. by apply String.eqb_neq. Qed.

(** A cell that the loops reach and do not skip has a row in the panel. *)
Lemma panel_cell_reached df ds temp_sr temp_nn i_ens temp_agg :
  get_panel_data fs data_path dataset_ls score_vec nn_vec n_ens_vec
    agg_meths ens_method = Ok df ->
  ds ∈ dataset_ls -> temp_sr ∈ score_vec -> temp_nn ∈ nn_vec ->
  i_ens ∈ n_ens_vec -> temp_agg ∈ ["opt"; "ens"] ++ agg_meths ->
  skipped temp_sr temp_agg = false ->
  exists sc, mk_panel_row ds temp_nn temp_sr i_ens temp_agg sc ∈ df.
Proof.
  intros Hdf Hds Hsr Hnn Hi Hagg Hskip.
  pose proof Hdf as Hrows. rewrite get_panel_data_rows in Hrows.
  destruct (collect_Ok_each _ _ _ _ Hrows Hds) as (new1 & H1).
  unfold dataset_rows in H1.
  apply bind_Ok_inv in H1 as (df_scores & Hload & H1).
  destruct (collect_Ok_each _ _ _ _ H1 Hsr) as (new2 & H2).
  unfold score_rows in H2. apply bind_Ok_inv in H2 as (s_opt & Hopt & H2).
  destruct (collect_Ok_each _ _ _ _ H2 Hnn) as (new3 & H3).
  destruct (collect_Ok_each _ _ _ _ H3 Hi) as (new4 & H4).
  destruct (collect_Ok_each _ _ _ _ H4 Hagg) as (new5 & H5).
  unfold agg_rows in H5. rewrite Hskip in H5.
  apply bind_Ok_inv in H5 as (sc & Hsc & _).
  exists sc. apply (get_panel_data_elem _ _ _ _ _ _ _ _ _ _ Hdf).
  exists df_scores, s_opt. simpl. done.
Qed.

Lemma skipped_crpss temp_agg :
  skipped "crpss" temp_agg = false <->
  (temp_agg =? "ens") = false /\ (temp_agg =? "opt") = false.
Proof.
  unfold skipped. simpl.
  destruct (temp_agg =? "ens"), (temp_agg =? "opt"); simpl; intuition.
Qed.

Lemma optimal_score_crpss df_scores ds :
  optimal_score (startswith ds "scen") (scenario_frame df_scores ds)
    "crpss" "crps" = crps_optimal df_scores ds.
Proof.
  unfold optimal_score, crps_optimal. simpl.
  by destruct (startswith ds "scen").
Qed.

(** The score of a CRPSS cell is the quotient, whatever the denominator. *)
Lemma cell_score_crpss s_opt df_nn i_ens temp_agg sc :
  skipped "crpss" temp_agg = false ->
  cell_score "crpss" "crps" s_opt df_nn i_ens temp_agg = Ok sc <->
  exists s_ref s_cand,
    reference_score df_nn "crps" i_ens = Ok s_ref /\
    read_out_score df_nn "crps" i_ens temp_agg = Ok s_cand /\
    sc = skill s_ref s_cand s_opt.
Proof.
  intros [He Ho]%skipped_crpss. unfold cell_score. rewrite He, Ho. simpl.
  split.
  - intros H. apply bind_Ok_inv in H as (s_ref & Href & H).
    apply bind_Ok_inv in H as (s_cand & Hcand & [= <-]). eauto.
  - intros (s_ref & s_cand & -> & Hcand & ->). simpl. by rewrite Hcand.
Qed.

Lemma skill_zero_denominator s_ref s_cand s_opt :
  feq s_ref s_opt = true -> is_finite (skill s_ref s_cand s_opt) = false.
Proof.
  unfold skill.
  destruct s_ref as [a| | |], s_opt as [b| | |]; simpl; try discriminate.
  - intros Hab%Qeq_bool_eq.
    assert (Hz : Qsign (a + - b) = Eq).
    { unfold Qsign. apply Qeq_alt. rewrite Hab. ring. }
    destruct s_cand as [c| | |]; simpl; rewrite ?Hz; try done.
    by destruct (Qsign (_ * _)).
  - intros _. by destruct s_cand.
  - intros _. by destruct s_cand.
Qed.

(** C1 (as the code has it).  The skill of a cell is computed by a plain
    division: when the files and the columns are there, [get_panel_data]
    returns, and every cell whose reference mean equals its optimal mean has
    its CRPSS row in the panel, with a score that is no number (an infinity
    or NaN).  Nothing is raised for a zero denominator. *)
Theorem crpss_zero_denominator_divides :
  panel_inputs_ok fs data_path dataset_ls score_vec ens_method ->
  exists df,
    get_panel_data fs data_path dataset_ls score_vec nn_vec n_ens_vec
      agg_meths ens_method = Ok df /\
    forall ds temp_nn i_ens temp_agg,
      ds ∈ dataset_ls -> "crpss" ∈ score_vec -> temp_nn ∈ nn_vec ->
      i_ens ∈ n_ens_vec -> temp_agg ∈ agg_meths ->
      temp_agg ≠ "ens" -> temp_agg ≠ "opt" ->
      zero_denominator fs data_path ens_method ds temp_nn i_ens ->
      exists r,
        r ∈ df /\ dataset r = ds /\ nn r = temp_nn /\ metric r = "crpss" /\
        n_ens r = i_ens /\ agg r = temp_agg /\
        is_finite (score r) = false.
Proof.
  intros Hok.
  destruct (get_panel_data_total fs data_path dataset_ls score_vec nn_vec
              n_ens_vec agg_meths ens_method Hok) as (df & Hdf).
  exists df. split; [done|].
  intros ds temp_nn i_ens temp_agg Hds Hsr Hnn Hi Hagg He Ho
    (df_scores & s_ref & s_opt & Hfs & Href & Hopt & Heq).
  assert (Hskip : skipped "crpss" temp_agg = false).
  { apply skipped_crpss. split; by apply eqb_false_ne. }
  assert (Hagg' : temp_agg ∈ ["opt"; "ens"] ++ agg_meths).
  { simpl. by do 2 apply list_elem_of_further. }
  destruct (panel_cell_reached df ds "crpss" temp_nn i_ens temp_agg
              Hdf Hds Hsr Hnn Hi Hagg' Hskip) as (sc & Hr).
  exists (mk_panel_row ds temp_nn "crpss" i_ens temp_agg sc). simpl.
  split_and!; [done..|].
  apply (get_panel_data_elem _ _ _ _ _ _ _ _ _ _ Hdf) in Hr.
  destruct Hr as (df_scores' & s_opt' & _ & Hload & _ & Hopt' & _ & _ & _ & _
                  & Hsc).
  simpl in *. unfold load in Hload. rewrite Hfs in Hload.
  injection Hload as <-. change (output_column "crpss") with "crps" in *.
  rewrite optimal_score_crpss, Hopt in Hopt'. injection Hopt' as <-.
  apply (cell_score_crpss _ _ _ _ _ Hskip) in Hsc
    as (s_ref' & s_cand & Href' & _ & ->).
  unfold crps_reference in Href. rewrite Href in Href'. injection Href' as <-.
  by apply skill_zero_denominator.
Qed.

(** C2 (as the code has it).  Every CRPSS row of the panel carries
    [100 * (reference - candidate) / (reference - optimal)], where the
    reference is the mean CRPS of the individual members with
    [n_rep <= n_ens], the candidate is the mean CRPS of the aggregated
    forecast, and the optimal is the mean CRPS of the "ref" rows when the
    name of the dataset starts with "scen" and 0 otherwise; and every cell
    of an aggregation method has such a row. *)
Theorem crpss_formula df :
  get_panel_data fs data_path dataset_ls score_vec nn_vec n_ens_vec
    agg_meths ens_method = Ok df ->
  (forall r, r ∈ df -> metric r = "crpss" ->
     exists df_scores s_ref s_cand s_opt,
       fs (eval_path data_path (dataset r) ens_method) = Some df_scores /\
       crps_reference df_scores (dataset r) (nn r) (n_ens r) = Ok s_ref /\
       crps_candidate df_scores (dataset r) (nn r) (n_ens r) (agg r)
         = Ok s_cand /\
       crps_optimal df_scores (dataset r) = Ok s_opt /\
       score r =
         fdiv (fmul (of_int 100) (fsub s_ref s_cand)) (fsub s_ref s_opt)) /\
  (forall ds temp_nn i_ens temp_agg,
     ds ∈ dataset_ls -> "crpss" ∈ score_vec -> temp_nn ∈ nn_vec ->
     i_ens ∈ n_ens_vec -> temp_agg ∈ agg_meths ->
     temp_agg ≠ "ens" -> temp_agg ≠ "opt" ->
     exists r,
       r ∈ df /\ dataset r = ds /\ nn r = temp_nn /\ metric r = "crpss" /\
       n_ens r = i_ens /\ agg r = temp_agg).
Proof.
  intros Hdf. split.
  - intros r Hr Hm.
    apply (get_panel_data_elem _ _ _ _ _ _ _ _ _ _ Hdf) in Hr.
    destruct Hr as (df_scores & s_opt & _ & Hload & _ & Hopt & _ & _ & _
                    & Hskip & Hsc).
    rewrite Hm in *. change (output_column "crpss") with "crps" in *.
    rewrite optimal_score_crpss in Hopt.
    apply (cell_score_crpss _ _ _ _ _ Hskip) in Hsc
      as (s_ref & s_cand & Href & Hcand & Hscore).
    exists df_scores, s_ref, s_cand, s_opt. split_and!; try done.
    unfold load in Hload. by destruct (fs _) as [df'|]; simplify_eq.
  - intros ds temp_nn i_ens temp_agg Hds Hsr Hnn Hi Hagg He Ho.
    assert (Hskip : skipped "crpss" temp_agg = false).
    { apply skipped_crpss. split; by apply eqb_false_ne. }
    assert (Hagg' : temp_agg ∈ ["opt"; "ens"] ++ agg_meths).
    { simpl. by do 2 apply list_elem_of_further. }
    destruct (panel_cell_reached df ds "crpss" temp_nn i_ens temp_agg
                Hdf Hds Hsr Hnn Hi Hagg' Hskip) as (sc & Hr).
    by exists (mk_panel_row ds temp_nn "crpss" i_ens temp_agg sc).
Qed.

(** C3 (as the code has it).  For a dataset whose name does not start with
    "scen" the optimal score is the number 0, and that 0 is the score of
    every "opt" row of the dataset. *)
Theorem opt_rows_zero_without_reference df r :
  get_panel_data fs data_path dataset_ls score_vec nn_vec n_ens_vec
    agg_meths ens_method = Ok df ->
  r ∈ df -> startswith (dataset r) "scen" = false -> agg r = "opt" ->
  score r = of_int 0.
Proof.
  intros Hdf Hr Hscen Hagg.
  apply (get_panel_data_elem _ _ _ _ _ _ _ _ _ _ Hdf) in Hr.
  destruct Hr as (df_scores & s_opt & _ & _ & _ & Hopt & _ & _ & _ & _ & Hsc).
  rewrite Hscen in Hopt. unfold optimal_score in Hopt. simpl in Hopt.
  injection Hopt as <-.
  rewrite Hagg in Hsc. unfold cell_score in Hsc.
  apply bind_Ok_inv in Hsc as (s_ref & _ & Hsc). simpl in Hsc. congruence.
Qed.

(** C10.  The panel has no row that pairs the metric "crpss" with the
    aggregation "ens" or "opt", and none that pairs the metric "a" or "w"
    with the aggregation "opt". *)
Theorem panel_has_no_skipped_pair df r :
  get_panel_data fs data_path dataset_ls score_vec nn_vec n_ens_vec
    agg_meths ens_method = Ok df ->
  r ∈ df ->
  ~ (metric r = "crpss" /\ (agg r = "ens" \/ agg r = "opt")) /\
  ~ ((metric r = "a" \/ metric r = "w") /\ agg r = "opt").
Proof.
  intros Hdf Hr.
  apply (get_panel_data_elem _ _ _ _ _ _ _ _ _ _ Hdf) in Hr.
  destruct Hr as (_ & _ & _ & _ & _ & _ & _ & _ & _ & Hskip & _).
  split.
  - intros [Hm [Ha | Ha]]; rewrite Hm, Ha in Hskip; discriminate.
  - intros [[Hm | Hm] Ha]; rewrite Hm, Ha in Hskip; discriminate.
Qed.

End PanelClaims.
Section PanelExamples.
Import results examples.

Lemma run_panel_scen_1 : run_panel "scen_1" = Ok scen_1_panel.
Proof. vm_compute. reflexivity. Qed.

Lemma run_panel_boston : run_panel "boston" = Ok boston_panel.
Proof. vm_compute. reflexivity. Qed.

Lemma scen_1_zero_denominator :
  zero_denominator files "data/dataset" "rand_init" "scen_1" "drn" 2.
Proof.
  exists scen_1_scores, (Fin (4 # 2)), (Fin 2).
  split_and!; vm_compute; reflexivity.
Qed.

(** C1, a run: the members of scenario 1 score as well as the optimal
    forecast, and [get_panel_data] returns a panel all the same. *)
Lemma crpss_zero_denominator_returns :
  ~ (forall fs data_path dataset_ls score_vec nn_vec n_ens_vec agg_meths
       ens_method ds temp_nn i_ens temp_agg,
       ds ∈ dataset_ls -> "crpss" ∈ score_vec -> temp_nn ∈ nn_vec ->
       i_ens ∈ n_ens_vec -> temp_agg ∈ agg_meths ->
       temp_agg ≠ "ens" -> temp_agg ≠ "opt" ->
       zero_denominator fs data_path ens_method ds temp_nn i_ens ->
       exists e,
         get_panel_data fs data_path dataset_ls score_vec nn_vec n_ens_vec
           agg_meths ens_method = Raise e).
Proof.
  intros H.
  destruct (H files "data/dataset" ["scen_1"] ["crps"; "crpss"] ["drn"] [2]
              ["vi"] "rand_init" "scen_1" "drn" 2 "vi") as (e & He).
  - apply list_elem_of_here.
  - apply list_elem_of_further, list_elem_of_here.
  - apply list_elem_of_here.
  - apply list_elem_of_here.
  - apply list_elem_of_here.
  - discriminate.
  - discriminate.
  - exact scen_1_zero_denominator.
  - pose proof run_panel_scen_1 as Hrun. unfold run_panel in Hrun.
    rewrite Hrun in He. discriminate.
Qed.

Lemma scen_1_inputs_ok :
  panel_inputs_ok files "data/dataset" ["scen_1"] ["crps"; "crpss"]
    "rand_init".
Proof.
  intros ds ->%list_elem_of_singleton. exists scen_1_scores.
  split_and!; try (by vm_compute).
  intros temp_sr [-> | ->%list_elem_of_singleton]%elem_of_cons;
    by vm_compute.
Qed.

Lemma crpss_zero_denominator_divides_witness :
  panel_inputs_ok files "data/dataset" ["scen_1"] ["crps"; "crpss"]
    "rand_init" /\
  exists df,
    get_panel_data files "data/dataset" ["scen_1"] ["crps"; "crpss"] ["drn"]
      [2] ["vi"] "rand_init" = Ok df /\
    forall ds temp_nn i_ens temp_agg,
      ds ∈ ["scen_1"] -> "crpss" ∈ ["crps"; "crpss"] -> temp_nn ∈ ["drn"] ->
      i_ens ∈ [2] -> temp_agg ∈ ["vi"] ->
      temp_agg ≠ "ens" -> temp_agg ≠ "opt" ->
      zero_denominator files "data/dataset" "rand_init" ds temp_nn i_ens ->
      exists r,
        r ∈ df /\ dataset r = ds /\ nn r = temp_nn /\ metric r = "crpss" /\
        n_ens r = i_ens /\ agg r = temp_agg /\
        is_finite (score r) = false.
Proof.
  split; [exact scen_1_inputs_ok|].
  apply (crpss_zero_denominator_divides files "data/dataset" "rand_init"
           ["scen_1"] ["crps"; "crpss"] ["drn"] ["vi"] [2]).
  exact scen_1_inputs_ok.
Defined.

(** C2, a run: on a dataset that is no simulated scenario the panel takes 0
    for the optimal score, not the mean of the "ref" rows. *)
Lemma crpss_ignores_ref_rows_off_scenarios :
  ~ (forall fs data_path dataset_ls score_vec nn_vec n_ens_vec agg_meths
       ens_method df r df_scores s_ref s_cand s_optimal,
       get_panel_data fs data_path dataset_ls score_vec nn_vec n_ens_vec
         agg_meths ens_method = Ok df ->
       r ∈ df -> metric r = "crpss" ->
       fs (eval_path data_path (dataset r) ens_method) = Some df_scores ->
       crps_reference df_scores (dataset r) (nn r) (n_ens r) = Ok s_ref ->
       crps_candidate df_scores (dataset r) (nn r) (n_ens r) (agg r)
         = Ok s_cand ->
       crps_ref_rows df_scores (dataset r) = Ok s_optimal ->
       feq (fsub s_ref s_optimal) (of_int 0) = false ->
       feq (score r)
         (fdiv (fmul (of_int 100) (fsub s_ref s_cand))
            (fsub s_ref s_optimal)) = true).
Proof.
  intros H.
  specialize (H files "data/dataset" ["boston"] ["crps"; "crpss"] ["drn"] [2]
                ["vi"] "rand_init" boston_panel
                (mk_panel_row "boston" "drn" "crpss" 2 "vi" (Fin (400 # 16)))
                boston_scores (Fin (8 # 2)) (Fin 3) (Fin 2)).
  assert (Hin : mk_panel_row "boston" "drn" "crpss" 2 "vi" (Fin (400 # 16))
                ∈ boston_panel).
  { unfold boston_panel. do 3 apply list_elem_of_further.
    apply list_elem_of_here. }
  specialize (H run_panel_boston Hin eq_refl eq_refl eq_refl eq_refl eq_refl
                eq_refl).
  vm_compute in H. discriminate H.
Qed.

Lemma crpss_formula_witness :
  get_panel_data files "data/dataset" ["boston"] ["crps"; "crpss"] ["drn"]
    [2] ["vi"] "rand_init" = Ok boston_panel /\
  (forall r, r ∈ boston_panel -> metric r = "crpss" ->
     exists df_scores s_ref s_cand s_opt,
       files (eval_path "data/dataset" (dataset r) "rand_init")
         = Some df_scores /\
       crps_reference df_scores (dataset r) (nn r) (n_ens r) = Ok s_ref /\
       crps_candidate df_scores (dataset r) (nn r) (n_ens r) (agg r)
         = Ok s_cand /\
       crps_optimal df_scores (dataset r) = Ok s_opt /\
       score r =
         fdiv (fmul (of_int 100) (fsub s_ref s_cand)) (fsub s_ref s_opt)) /\
  (forall ds temp_nn i_ens temp_agg,
     ds ∈ ["boston"] -> "crpss" ∈ ["crps"; "crpss"] -> temp_nn ∈ ["drn"] ->
     i_ens ∈ [2] -> temp_agg ∈ ["vi"] ->
     temp_agg ≠ "ens" -> temp_agg ≠ "opt" ->
     exists r,
       r ∈ boston_panel /\ dataset r = ds /\ nn r = temp_nn /\
       metric r = "crpss" /\ n_ens r = i_ens /\ agg r = temp_agg).
Proof.
  split; [exact run_panel_boston|].
  apply (crpss_formula files "data/dataset" "rand_init" ["boston"]
           ["crps"; "crpss"] ["drn"] ["vi"] [2] boston_panel).
  exact run_panel_boston.
Defined.

(** C3, a run: the "opt" row of a dataset without optimal scores carries
    the number 0, which is not NaN. *)
Lemma opt_row_is_zero_not_nan :
  ~ (forall fs data_path dataset_ls score_vec nn_vec n_ens_vec agg_meths
       ens_method df r,
       get_panel_data fs data_path dataset_ls score_vec nn_vec n_ens_vec
         agg_meths ens_method = Ok df ->
       r ∈ df -> startswith (dataset r) "scen" = false -> agg r = "opt" ->
       is_nan (score r) = true).
Proof.
  intros H.
  specialize (H files "data/dataset" ["boston"] ["crps"; "crpss"] ["drn"] [2]
                ["vi"] "rand_init" boston_panel
                (mk_panel_row "boston" "drn" "crps" 2 "opt" (Fin 0))).
  assert (Hin : mk_panel_row "boston" "drn" "crps" 2 "opt" (Fin 0)
                ∈ boston_panel) by apply list_elem_of_here.
  specialize (H run_panel_boston Hin eq_refl eq_refl).
  discriminate H.
Qed.

Lemma opt_rows_zero_without_reference_witness :
  get_panel_data files "data/dataset" ["boston"] ["crps"; "crpss"] ["drn"]
    [2] ["vi"] "rand_init" = Ok boston_panel /\
  mk_panel_row "boston" "drn" "crps" 2 "opt" (Fin 0) ∈ boston_panel /\
  startswith "boston" "scen" = false /\
  score (mk_panel_row "boston" "drn" "crps" 2 "opt" (Fin 0)) = of_int 0.
Proof.
  assert (Hin : mk_panel_row "boston" "drn" "crps" 2 "opt" (Fin 0)
                ∈ boston_panel) by apply list_elem_of_here.
  split_and!; [exact run_panel_boston | exact Hin | reflexivity |].
  apply (opt_rows_zero_without_reference files "data/dataset" "rand_init"
           ["boston"] ["crps"; "crpss"] ["drn"] ["vi"] [2] boston_panel
           (mk_panel_row "boston" "drn" "crps" 2 "opt" (Fin 0))
           run_panel_boston Hin); reflexivity.
Defined.

Lemma panel_has_no_skipped_pair_witness :
  get_panel_data files "data/dataset" ["boston"] ["crps"; "crpss"] ["drn"]
    [2] ["vi"] "rand_init" = Ok boston_panel /\
  Forall (fun r =>
            ~ (metric r = "crpss" /\ (agg r = "ens" \/ agg r = "opt")) /\
            ~ ((metric r = "a" \/ metric r = "w") /\ agg r = "opt"))
    boston_panel.
Proof.
  split; [exact run_panel_boston|].
  apply Forall_forall. intros r Hr.
  exact (panel_has_no_skipped_pair files "data/dataset" "rand_init"
           ["boston"] ["crps"; "crpss"] ["drn"] ["vi"] [2] boston_panel r
           run_panel_boston Hr).
Defined.
End PanelExamples.

(* ===================================================================== *)
(** ** get_best_result_table: the order of the scores, idxmin *)
(* ===================================================================== *)

Section FloatOrder.

Lemma fle_refl x : is_nan x = false -> fle x x = true.
Proof.
  destruct x as [a| | |]; simpl; try done. intros _.
  apply Qle_bool_iff, Qle_refl.
Qed.

Lemma fle_trans x y z : fle x y = true -> fle y z = true -> fle x z = true.
Proof.
  destruct x as [a| | |], y as [b| | |], z as [c| | |]; simpl; try done.
  rewrite !Qle_bool_iff. apply Qle_trans.
Qed.

Lemma flt_fle x y : flt x y = true -> fle x y = true.
Proof. unfold flt. by intros [H _]%andb_prop. Qed.

(** Scores that are present are totally ordered. *)
Lemma flt_false_fle x y :
  is_nan x = false -> is_nan y = false -> flt x y = false -> fle y x = true.
Proof.
  unfold flt. destruct x as [a| | |], y as [b| | |]; simpl; try done.
  intros _ _ H. apply Qle_bool_iff.
  destruct (Qle_bool a b) eqn:Hab; simpl in H.
  - apply negb_false_iff, Qeq_bool_iff in H. rewrite H. apply Qle_refl.
  - destruct (Qlt_le_dec a b) as [Hlt | Hle]; [|done].
    apply Qlt_le_weak, Qle_bool_iff in Hlt. congruence.
Qed.

End FloatOrder.

Section Idxmin.
Import results best.

Lemma idxmin_from_elem rows : forall b,
  idxmin_from b rows = b \/ idxmin_from b rows ∈ rows.
Proof.
  induction rows as [|r rows IH]; intros b; simpl; [by left|].
  destruct (IH (if flt (score r) (score b) then r else b)) as [-> | Hin].
  - destruct (flt _ _); [right; apply list_elem_of_here | by left].
  - right. by apply list_elem_of_further.
Qed.

Lemma idxmin_from_least rows : forall b,
  present b -> Forall present rows ->
  fle (score (idxmin_from b rows)) (score b) = true /\
  Forall (fun r => fle (score (idxmin_from b rows)) (score r) = true) rows.
Proof.
  induction rows as [|r rows IH]; intros b Hb Hrows; simpl.
  - split; [by apply fle_refl | constructor].
  - apply Forall_cons in Hrows as [Hr Hrows].
    set (b' := if flt (score r) (score b) then r else b).
    assert (Hb' : present b') by (unfold b'; by destruct (flt _ _)).
    destruct (IH b' Hb' Hrows) as [Hle Hall].
    assert (Hb'b : fle (score b') (score b) = true).
    { unfold b'. destruct (flt _ _) eqn:Hlt;
        [by apply flt_fle | by apply fle_refl]. }
    assert (Hb'r : fle (score b') (score r) = true).
    { unfold b'. destruct (flt _ _) eqn:Hlt;
        [by apply fle_refl | by apply flt_false_fle]. }
    split; [by eapply fle_trans|].
    constructor; [by eapply fle_trans | done].
Qed.

(** [idxmin] picks a line of the group whose score is the least. *)
Lemma idxmin_spec rows :
  rows ≠ [] -> Forall present rows ->
  exists r,
    idxmin rows = Some r /\ r ∈ rows /\
    forall r', r' ∈ rows -> fle (score r) (score r') = true.
Proof.
  destruct rows as [|b rows]; [done|]. intros _ Hall.
  apply Forall_cons in Hall as [Hb Hrows].
  exists (idxmin_from b rows). split; [done|]. split.
  - destruct (idxmin_from_elem rows b) as [-> | Hin];
      [apply list_elem_of_here | by apply list_elem_of_further].
  - destruct (idxmin_from_least rows b Hb Hrows) as [Hle Hall].
    rewrite Forall_forall in Hall.
    intros r' [-> | Hr']%elem_of_cons; auto.
Qed.

End Idxmin.

(* ===================================================================== *)
(** ** get_best_result_table: tables *)
(* ===================================================================== *)

Section Tables.
Import results best.

Lemma str_in_elem (s : string) (l : list string) : str_in s l = true <-> s ∈ l.
Proof.
  unfold str_in. rewrite existsb_exists, list_elem_of_In. split.
  - intros (x & Hx & ->%String.eqb_eq). done.
  - intros H. exists s. split; [done | apply String.eqb_refl].
Qed.

Lemma append_ne_self (m suffix : string) : suffix ≠ "" -> m +:+ suffix ≠ m.
Proof.
  intros Hs. induction m as [|c m IH]; simpl; [done|].
  intros [= H]. by apply IH.
Qed.

Lemma append_inj_l (m s1 s2 : string) : m +:+ s1 = m +:+ s2 -> s1 = s2.
Proof. induction m as [|c m IH]; simpl; [done|]. intros [= H]. by apply IH. Qed.

Lemma agg_key_ne_dataset (m : string) : m +:+ "_agg" ≠ "dataset".
Proof.
  intros H. do 8 (destruct m as [|? m]; simpl in H; [discriminate H|];
                  try (injection H as _ H)).
  discriminate H.
Qed.

Lemma n_ens_key_ne_dataset (m : string) : m +:+ "_n_ens" ≠ "dataset".
Proof.
  intros H. do 8 (destruct m as [|? m]; simpl in H; [discriminate H|];
                  try (injection H as _ H)).
  discriminate H.
Qed.

(** The cells of a best line, by column. *)
Lemma data_cells_lookup (m : string) (r : panel_row) :
  m ≠ "dataset" ->
  delete "dataset" (data_cells m r) !! m = Some (CFloat (score r)) /\
  delete "dataset" (data_cells m r) !! (m +:+ "_agg") = Some (CStr (agg r)) /\
  delete "dataset" (data_cells m r) !! (m +:+ "_n_ens")
    = Some (CInt (n_ens r)).
Proof.
  intros Hm. unfold data_cells.
  assert (H1 : m +:+ "_agg" ≠ m) by (by apply append_ne_self).
  assert (H2 : m +:+ "_n_ens" ≠ m) by (by apply append_ne_self).
  assert (H3 : m +:+ "_n_ens" ≠ m +:+ "_agg").
  { intros H%append_inj_l. discriminate H. }
  pose proof (agg_key_ne_dataset m) as H4.
  pose proof (n_ens_key_ne_dataset m) as H5.
  split_and!.
  - rewrite lookup_delete_ne by done.
    rewrite !lookup_insert_ne by done. by rewrite lookup_insert_eq.
  - rewrite lookup_delete_ne by done.
    rewrite lookup_insert_ne by done. by rewrite lookup_insert_eq.
  - rewrite lookup_delete_ne by done. by rewrite lookup_insert_eq.
Qed.

Lemma data_cells_columns (m : string) (r : panel_row) (c : string) :
  is_Some (delete "dataset" (data_cells m r) !! c) ->
  c ∈ tb_columns (ens_result m []).
Proof.
  unfold data_cells. simpl. intros [v Hv].
  apply lookup_delete_Some in Hv as [Hc Hv].
  apply list_elem_of_In, filter_In. split.
  - apply list_elem_of_In. unfold data_keys. apply elem_of_remove_dups.
    repeat (apply lookup_insert_Some in Hv as [[<- _] | [_ Hv]];
            [set_solver|]).
    by rewrite lookup_empty in Hv.
  - apply negb_true_iff, String.eqb_neq. congruence.
Qed.

Lemma group_elem df d r : r ∈ group df d <-> r ∈ df /\ dataset r = d.
Proof.
  unfold group. rewrite !list_elem_of_In, filter_In, String.eqb_eq. done.
Qed.

Lemma groups_elem df d : d ∈ groups df <-> exists r, r ∈ df /\ dataset r = d.
Proof.
  unfold groups. rewrite elem_of_remove_dups, list_elem_of_In, in_map_iff.
  split; intros (r & H1 & H2); exists r; by rewrite ?list_elem_of_In in *.
Qed.

Lemma group_nonempty df d : d ∈ groups df <-> group df d ≠ [].
Proof.
  rewrite groups_elem. split.
  - intros (r & Hr & Hd) Hnil.
    assert (Hin : r ∈ group df d) by (by apply group_elem).
    rewrite Hnil in Hin. by apply elem_of_nil in Hin.
  - intros Hne. destruct (group df d) as [|r rows] eqn:Hg; [done|].
    exists r. apply group_elem. rewrite Hg. apply list_elem_of_here.
Qed.

Lemma idxmin_elem rows r : idxmin rows = Some r -> r ∈ rows.
Proof.
  destruct rows as [|b rows]; [done|]. intros [= <-].
  destruct (idxmin_from_elem rows b) as [-> | Hin];
    [apply list_elem_of_here | by apply list_elem_of_further].
Qed.

(** The best lines are keyed by the groups, one line for each group. *)
Lemma best_rows_keys df : List.map dataset (best_rows df) = groups df.
Proof.
  unfold best_rows.
  assert (H : forall d, d ∈ groups df ->
                exists r, idxmin (group df d) = Some r /\ dataset r = d).
  { intros d Hd%group_nonempty.
    destruct (group df d) as [|b rows] eqn:Hg; [done|].
    exists (idxmin_from b rows). split; [done|].
    assert (Hin : idxmin_from b rows ∈ group df d).
    { apply idxmin_elem. by rewrite Hg. }
    by apply group_elem in Hin as [_ ?]. }
  induction (groups df) as [|d gs IH]; [done|]. simpl.
  destruct (H d) as (r & -> & Hr); [apply list_elem_of_here|]. simpl.
  rewrite Hr. f_equal. apply IH. intros d' Hd'. apply H.
  by apply list_elem_of_further.
Qed.

Lemma ens_result_lookup m df d r :
  idxmin (group df d) = Some r ->
  tb_rows (ens_result m (best_rows df)) !! d
    = Some (delete "dataset" (data_cells m r)).
Proof.
  intros Hr. simpl.
  assert (Hd : dataset r = d).
  { apply idxmin_elem in Hr. by apply group_elem in Hr as [_ ?]. }
  apply elem_of_list_to_map_1.
  - change (NoDup (fst <$> ((fun r0 => (dataset r0,
               delete "dataset" (data_cells m r0))) <$> best_rows df))).
    rewrite <- list_fmap_compose.
    change (NoDup (List.map dataset (best_rows df))).
    rewrite best_rows_keys. apply NoDup_remove_dups.
  - apply list_elem_of_In, in_map_iff. exists r. split; [by rewrite Hd|].
    apply list_elem_of_In. unfold best_rows. apply list_elem_of_omap.
    exists d. split; [|done]. apply group_nonempty. intros Hnil.
    by rewrite Hnil in Hr.
Qed.

Lemma ens_result_well_formed m rows : well_formed (ens_result m rows).
Proof.
  intros d line c Hline Hc. simpl in Hline.
  apply elem_of_list_to_map_2, list_elem_of_In, in_map_iff in Hline
    as (r & [= _ <-] & _).
  by eapply data_cells_columns.
Qed.

(** A left join keeps the lines and the cells of the left table and adds
    the cells of the right table. *)
Lemma join_Ok left right t :
  join left right = Ok t ->
  (forall c, c ∈ tb_columns right -> c ∉ tb_columns left) /\
  tb_columns t = tb_columns left ++ tb_columns right /\
  forall d, tb_rows t !! d =
            (fun line => line ∪ default ∅ (tb_rows right !! d))
              <$> tb_rows left !! d.
Proof.
  unfold join. destruct (existsb _ _) eqn:Hov; [done|]. intros [= <-].
  split_and!; [|done|].
  - intros c Hc Hl. apply not_true_iff_false in Hov. apply Hov.
    apply existsb_exists. exists c. split; [by apply list_elem_of_In|].
    by apply str_in_elem.
  - intros d. simpl. rewrite map_lookup_imap.
    by destruct (tb_rows left !! d).
Qed.

Lemma join_well_formed left right t :
  well_formed left -> well_formed right -> join left right = Ok t ->
  well_formed t.
Proof.
  intros Hl Hr (_ & Hcols & Hrows)%join_Ok d line c Hline [v Hv].
  rewrite Hrows in Hline. rewrite Hcols, elem_of_app.
  destruct (tb_rows left !! d) as [lline|] eqn:Hld; [|done].
  injection Hline as <-.
  apply lookup_union_Some_raw in Hv as [Hv | [_ Hv]].
  - left. by eapply Hl.
  - right. destruct (tb_rows right !! d) as [rline|] eqn:Hrd; simpl in Hv.
    + by eapply Hr.
    + by rewrite lookup_empty in Hv.
Qed.

Lemma join_keeps_left left right t d lline :
  join left right = Ok t -> tb_rows left !! d = Some lline ->
  exists line,
    tb_rows t !! d = Some line /\
    forall c v, lline !! c = Some v -> line !! c = Some v.
Proof.
  intros (_ & _ & Hrows)%join_Ok Hld. rewrite Hrows, Hld. simpl.
  eexists. split; [done|]. intros c v Hv. by apply lookup_union_Some_l.
Qed.

Lemma join_adds_right left right t d lline rline :
  well_formed left -> well_formed right ->
  join left right = Ok t ->
  tb_rows left !! d = Some lline -> tb_rows right !! d = Some rline ->
  exists line,
    tb_rows t !! d = Some line /\
    forall c v, rline !! c = Some v -> line !! c = Some v.
Proof.
  intros Hl Hr (Hov & _ & Hrows)%join_Ok Hld Hrd.
  rewrite Hrows, Hld, Hrd. simpl.
  eexists. split; [done|]. intros c v Hv.
  apply lookup_union_Some_raw. right. split; [|done].
  destruct (lline !! c) as [u|] eqn:Hu; [|done]. exfalso.
  apply (Hov c); [by eapply Hr | by eapply Hl].
Qed.

End Tables.

(* ===================================================================== *)
(** ** get_best_result_table: the loops *)
(* ===================================================================== *)

Section BestLoops.
Import results best.

Lemma slot_store_same nn0 nn1 t res :
  (nn0 =? "drn") = (nn1 =? "drn") -> slot nn0 (store nn1 t res) = Some t.
Proof.
  unfold slot, store. intros ->. by destruct (nn1 =? "drn").
Qed.

Lemma slot_store_other nn0 nn1 t res :
  (nn0 =? "drn") ≠ (nn1 =? "drn") ->
  slot nn0 (store nn1 t res) = slot nn0 res.
Proof.
  unfold slot, store. by destruct (nn0 =? "drn"), (nn1 =? "drn").
Qed.

Lemma slot_same nn0 nn1 res :
  (nn0 =? "drn") = (nn1 =? "drn") -> slot nn0 res = slot nn1 res.
Proof. unfold slot. by intros ->. Qed.

Lemma no_nan_present (rows : list panel_row) :
  existsb (fun r => is_nan (score r)) rows = false <-> Forall present rows.
Proof.
  rewrite Forall_forall. split.
  - intros H r Hr. unfold present.
    destruct (is_nan (score r)) eqn:Hn; [|done].
    assert (existsb (fun r => is_nan (score r)) rows = true); [|congruence].
    apply existsb_exists. exists r. by rewrite <- list_elem_of_In.
  - intros H. apply not_true_iff_false.
    intros (r & Hr%list_elem_of_In & Hn)%existsb_exists.
    specialize (H r Hr). unfold present in H. congruence.
Qed.

(** The table that one round of the loop leaves for its network. *)
Lemma round_table m df nn res temp :
  match slot nn res with
  | None => Ok (ens_result m (best_rows (network_rows nn df)))
  | Some t => join t (ens_result m (best_rows (network_rows nn df)))
  end = Ok temp ->
  (forall t, slot nn res = Some t -> well_formed t) ->
  well_formed temp /\
  (forall d lline t,
     slot nn res = Some t -> tb_rows t !! d = Some lline ->
     exists line, tb_rows temp !! d = Some line /\
                  forall c v, lline !! c = Some v -> line !! c = Some v) /\
  (forall d r,
     idxmin (group (network_rows nn df) d) = Some r ->
     (forall t, slot nn res = Some t -> is_Some (tb_rows t !! d)) ->
     exists line, tb_rows temp !! d = Some line /\
                  forall c v, delete "dataset" (data_cells m r) !! c = Some v ->
                              line !! c = Some v).
Proof.
  intros Htemp Hwf. destruct (slot nn res) as [t|].
  - specialize (Hwf t eq_refl). split_and!.
    + eapply join_well_formed; [done | apply ens_result_well_formed | done].
    + intros d lline t' [= <-] Hl. by eapply join_keeps_left.
    + intros d r Hr Hsome. destruct (Hsome t eq_refl) as [lline Hl].
      eapply (join_adds_right t _ temp d lline);
        [done | apply ens_result_well_formed | done | done |].
      by apply ens_result_lookup.
  - injection Htemp as <-. split_and!.
    + apply ens_result_well_formed.
    + intros d lline t [=].
    + intros d r Hr _. eexists. split; [by apply ens_result_lookup | done].
Qed.

Lemma nn_loop_spec (G : string -> Prop) m df : forall nns res res',
  (forall nn d, nn ∈ nns -> G d -> group (network_rows nn df) d ≠ []) ->
  nn_loop m df nns res = Ok res' -> covers G res ->
  covers G res' /\
  (forall nn0 m0 d r, reported res nn0 m0 d r -> reported res' nn0 m0 d r) /\
  (m ≠ "dataset" ->
   forall pre nn post, nns = pre ++ nn :: post ->
     (forall nn', nn' ∈ pre ++ [nn] -> Forall present (network_rows nn' df)) ->
     forall d r, G d -> idxmin (group (network_rows nn df) d) = Some r ->
       reported res' nn m d r).
Proof.
  induction nns as [|nn1 nns IH]; intros res res' Hgroups Hloop Hcov.
  { injection Hloop as <-. split_and!; try done.
    intros _ pre nn post Hnil. by destruct pre. }
  cbn [nn_loop] in Hloop.
  destruct (existsb _ (network_rows nn1 df)) eqn:Hnan.
  { injection Hloop as <-. split_and!; try done.
    intros _ pre nn post Hsplit Hfree.
    assert (Hhead : nn1 ∈ pre ++ [nn]).
    { destruct pre as [|p pre]; injection Hsplit as -> _;
        apply list_elem_of_here. }
    apply Hfree, no_nan_present in Hhead. congruence. }
  apply bind_Ok_inv in Hloop as (temp & Htemp & Hloop).
  destruct (round_table m df nn1 res temp Htemp) as (Hwf & Hkeep & Hadd).
  { intros t Ht. by apply (Hcov nn1 t). }
  (* the state after this round *)
  assert (Hcov1 : covers G (store nn1 temp res)).
  { intros nn0 t Ht.
    destruct (decide ((nn0 =? "drn") = (nn1 =? "drn"))) as [Hs | Hs].
    - rewrite (slot_store_same _ _ _ _ Hs) in Ht. injection Ht as <-.
      split; [done|]. intros d Hd.
      destruct (idxmin (group (network_rows nn1 df) d)) as [r|] eqn:Hr.
      + destruct (Hadd d r Hr) as (line & -> & _); [|done].
        intros t Ht. by apply (Hcov nn1 t).
      + exfalso. apply (Hgroups nn1 d); [apply list_elem_of_here | done |].
        by destruct (group _ d).
    - rewrite (slot_store_other _ _ _ _ Hs) in Ht. by apply (Hcov nn0 t). }
  assert (Hpres1 : forall nn0 m0 d r,
             reported res nn0 m0 d r ->
             reported (store nn1 temp res) nn0 m0 d r).
  { intros nn0 m0 d r (t & line & Ht & Hline & H1 & H2 & H3).
    destruct (decide ((nn0 =? "drn") = (nn1 =? "drn"))) as [Hs | Hs].
    - rewrite (slot_same _ _ _ Hs) in Ht.
      destruct (Hkeep d line t Ht Hline) as (line' & Hline' & Hcells).
      exists temp, line'. rewrite (slot_store_same _ _ _ _ Hs). auto 10.
    - exists t, line. rewrite (slot_store_other _ _ _ _ Hs). auto 10. }
  destruct (IH (store nn1 temp res) res') as (Hcov' & Hpres' & Hrep');
    [|done|done|].
  { intros nn d Hnn. apply Hgroups. by apply list_elem_of_further. }
  split_and!; [done | by auto |].
  intros Hm pre nn post Hsplit Hfree d r Hd Hr.
  destruct pre as [|p pre]; injection Hsplit as -> ->.
  - apply Hpres'.
    destruct (Hadd d r Hr) as (line & Hline & Hcells).
    { intros t Ht. by apply (Hcov nn t). }
    destruct (data_cells_lookup m r Hm) as (H1 & H2 & H3).
    exists temp, line. rewrite slot_store_same by done. auto 10.
  - apply (Hrep' Hm pre nn post); try done.
    intros nn' Hnn'. apply Hfree. by apply list_elem_of_further.
Qed.

End BestLoops.

(* ===================================================================== *)
(** ** get_best_result_table: the claim *)
(* ===================================================================== *)

Section BestTable.
Import results best.

Variable fs : file_system.
Variable data_path : string.
Variables (nn_vec ens_method_ls agg_meths dataset_ls : list string).
Variable n_ens_vec : list Z.

Local Abbreviation G := (has_lines dataset_ls n_ens_vec agg_meths).
Local Abbreviation best_reported :=
  (best_reported fs data_path nn_vec agg_meths dataset_ls n_ens_vec).
Local Abbreviation panel_of m :=
  (get_panel_data fs data_path dataset_ls score_vec nn_vec n_ens_vec
     agg_meths m).

Lemma nonempty_elem {A} (l : list A) : l ≠ [] -> exists x, x ∈ l.
Proof. destruct l as [|x l]; [done|]. exists x. apply list_elem_of_here. Qed.

Lemma filter_filter_andb {A} (f g : A -> bool) (l : list A) :
  List.filter f (List.filter g l) = List.filter (fun x => g x && f x) l.
Proof.
  induction l as [|x l IH]; simpl; [done|].
  destruct (g x); simpl; [|done]. destruct (f x); by rewrite IH.
Qed.

Lemma basic_filter_Ok df df' :
  basic_filter agg_meths df = Ok df' ->
  df ≠ [] /\
  forall nn d, group (network_rows nn df') d = candidates agg_meths df nn d.
Proof.
  intros H.
  assert (Hne : df ≠ []) by (by destruct df).
  assert (Hdf' : df' = List.filter (fun r => metric r =? "crps")
                         (List.filter (fun r => str_in (agg r) agg_meths) df)).
  { destruct df; [done|]. by injection H. }
  subst df'. split; [done|]. intros nn d.
  unfold group, network_rows, candidates. rewrite !filter_filter_andb.
  apply filter_ext. intros r.
  by destruct (str_in _ _), (metric r =? _), (results.nn r =? _),
       (dataset r =? _).
Qed.

Lemma candidates_elem df nn d r :
  r ∈ candidates agg_meths df nn d <->
  r ∈ df /\ agg r ∈ agg_meths /\ metric r = "crps" /\ results.nn r = nn /\
  dataset r = d.
Proof.
  unfold candidates.
  rewrite (list_elem_of_In _ r), filter_In, <- list_elem_of_In,
    !andb_true_iff, !String.eqb_eq, str_in_elem. tauto.
Qed.

(** Which datasets have candidates does not depend on the scores. *)
Lemma candidates_nonempty m df nn d :
  panel_of m = Ok df -> nn ∈ nn_vec ->
  G d <-> candidates agg_meths df nn d ≠ [].
Proof.
  intros Hdf Hnn. split.
  - intros (Hd & [i Hi]%nonempty_elem & [g Hg]%nonempty_elem).
    destruct (panel_cell_reached fs data_path m dataset_ls score_vec nn_vec
                agg_meths n_ens_vec df d "crps" nn i g) as (sc & Hr);
      try done.
    + apply list_elem_of_here.
    + by do 2 apply list_elem_of_further.
    + intros Hnil.
      assert (Hin : mk_panel_row d nn "crps" i g sc
                    ∈ candidates agg_meths df nn d).
      { by apply candidates_elem. }
      rewrite Hnil in Hin. by apply elem_of_nil in Hin.
  - intros Hne. destruct (candidates agg_meths df nn d) as [|r rows] eqn:Hc;
      [done|].
    assert (Hr : r ∈ candidates agg_meths df nn d).
    { rewrite Hc. apply list_elem_of_here. }
    apply candidates_elem in Hr as (Hr & Hagg & _ & _ & Hd).
    apply (get_panel_data_elem _ _ _ _ _ _ _ _ _ _ Hdf) in Hr.
    destruct Hr as (_ & _ & Hds & _ & _ & _ & _ & Hens & _).
    split_and!.
    + by rewrite <- Hd.
    + intros Hnil. rewrite Hnil in Hens. by apply elem_of_nil in Hens.
    + intros Hnil. rewrite Hnil in Hagg. by apply elem_of_nil in Hagg.
Qed.

Lemma nan_free_present df nn d :
  nan_free agg_meths df nn -> Forall present (candidates agg_meths df nn d).
Proof.
  intros Hfree. apply Forall_forall.
  intros r (Hr & Hagg%str_in_elem & Hm & Hnn & _)%candidates_elem.
  by apply Hfree.
Qed.

Lemma nan_free_network_rows df df' nn :
  basic_filter agg_meths df = Ok df' -> nan_free agg_meths df nn ->
  Forall present (network_rows nn df').
Proof.
  intros H Hfree.
  assert (Hdf' : df' = List.filter (fun r => metric r =? "crps")
                         (List.filter (fun r => str_in (agg r) agg_meths) df)).
  { destruct df; [done|]. by injection H. }
  subst df'. apply Forall_forall. intros r Hr. unfold network_rows in Hr.
  rewrite !list_elem_of_In, !filter_In, !String.eqb_eq in Hr.
  destruct Hr as [[[Hr Hagg] Hm] Hnn]. apply Hfree; try done.
  by apply list_elem_of_In.
Qed.

Lemma method_body_spec m res res' :
  method_body fs data_path nn_vec agg_meths dataset_ls n_ens_vec m res
    = Ok res' ->
  covers G res ->
  covers G res' /\
  (forall nn0 m0 d r, reported res nn0 m0 d r -> reported res' nn0 m0 d r) /\
  (m ≠ "dataset" -> best_reported res' m).
Proof.
  unfold method_body. intros Hbody Hcov.
  apply bind_Ok_inv in Hbody as (df & Hdf & Hbody).
  apply bind_Ok_inv in Hbody as (df' & Hdf' & Hloop).
  destruct (basic_filter_Ok df df' Hdf') as [_ Hgroup].
  destruct (nn_loop_spec G m df' nn_vec res res') as (Hcov' & Hpres & Hrep);
    try done.
  { intros nn d Hnn Hd. rewrite Hgroup.
    by apply (candidates_nonempty m df nn d Hdf Hnn). }
  split_and!; try done.
  intros Hm. exists df. split; [done|].
  intros pre nn post d Hsplit Hfree Hne.
  assert (Hnn : nn ∈ nn_vec).
  { rewrite Hsplit, elem_of_app. right. apply list_elem_of_here. }
  destruct (idxmin (candidates agg_meths df nn d)) as [r|] eqn:Hr;
    [|by destruct (candidates agg_meths df nn d)].
  exists r. split; [done|].
  apply (Hrep Hm pre nn post Hsplit); try done.
  - intros nn' Hnn'. eapply nan_free_network_rows; [done|]. by apply Hfree.
  - by apply (candidates_nonempty m df nn d Hdf Hnn).
  - by rewrite Hgroup.
Qed.

Lemma best_reported_keeps res res' m :
  (forall nn0 m0 d r, reported res nn0 m0 d r -> reported res' nn0 m0 d r) ->
  best_reported res m -> best_reported res' m.
Proof.
  intros Hpres (df & Hdf & H). exists df. split; [done|].
  intros pre nn post d Hsplit Hfree Hne.
  destruct (H pre nn post d Hsplit Hfree Hne) as (r & Hr & Hrep). eauto.
Qed.

Lemma method_loop_spec ms : forall res res',
  for_each ms res
    (method_body fs data_path nn_vec agg_meths dataset_ls n_ens_vec)
    = Ok res' ->
  covers G res ->
  covers G res' /\
  (forall nn0 m0 d r, reported res nn0 m0 d r -> reported res' nn0 m0 d r) /\
  (forall m, m ∈ ms -> m ≠ "dataset" -> best_reported res' m).
Proof.
  induction ms as [|m1 ms IH]; intros res res' Hloop Hcov.
  { injection Hloop as <-. split_and!; try done.
    intros m Hm. by apply elem_of_nil in Hm. }
  cbn [for_each] in Hloop. apply bind_Ok_inv in Hloop as (res1 & H1 & Hloop).
  destruct (method_body_spec m1 res res1 H1 Hcov) as (Hcov1 & Hpres1 & Hrep1).
  destruct (IH res1 res' Hloop Hcov1) as (Hcov' & Hpres' & Hrep').
  split_and!; [done | by auto |].
  intros m [-> | Hm]%elem_of_cons Hne; [|by apply Hrep'].
  eapply best_reported_keeps; [exact Hpres' | by apply Hrep1].
Qed.


End BestTable.

Section BestExamples.
Import results best examples.

Lemma nan_free_b_spec agg_meths df nn :
  nan_free_b agg_meths df nn = true -> nan_free agg_meths df nn.
Proof.
  unfold nan_free_b. rewrite forallb_forall.
  intros H r Hr%list_elem_of_In Hagg Hm Hnn. specialize (H r Hr).
  rewrite Hagg, Hm, Hnn, !String.eqb_refl in H. simpl in H.
  by apply negb_true_iff in H.
Qed.

Lemma energy_best_bqn_first :
  get_best_result_table energy_files "data/dataset" ["bqn"; "drn"]
    ["rand_init"] ["lp"; "vi"] ["energy"] [2; 4] = Ok energy_tables.
Proof. vm_compute. reflexivity. Qed.

Lemma energy_best_drn_first :
  get_best_result_table energy_files "data/dataset" ["drn"; "bqn"]
    ["rand_init"] ["lp"; "vi"] ["energy"] [2; 4]
  = Ok (mk_best_results None None).
Proof. vm_compute. reflexivity. Qed.

Lemma energy_panel_drn_first_Ok :
  get_panel_data energy_files "data/dataset" ["energy"] score_vec
    ["drn"; "bqn"] [2; 4] ["lp"; "vi"] "rand_init"
  = Ok energy_panel_drn_first.
Proof. vm_compute. reflexivity. Qed.



End BestExamples.

(* ===================================================================== *)
(** ** BQNModels: the quantile grid and the rank transform *)
(* ===================================================================== *)

Section Grid.
Import BQNModels.
Local Open Scope Q_scope.

Lemma arange_lookup start stop step (i : nat) p :
  arange start stop step !! i = Some p ->
  p = start + inject_Z (Z.of_nat i) * step.
Proof.
  unfold arange. rewrite list_lookup_fmap.
  destruct (seq _ _ !! i) as [j|] eqn:Hj; simpl; [|discriminate].
  apply lookup_seq in Hj as [-> _]. by intros [= <-].
Qed.

Lemma arange_equidistant start stop step :
  equidistant step (arange start stop step).
Proof.
  intros i p q Hp Hq.
  apply arange_lookup in Hp as ->. apply arange_lookup in Hq as ->.
  rewrite Nat2Z.inj_succ. unfold Z.succ. rewrite inject_Z_plus. ring.
Qed.

Lemma default_q_levels_in_unit :
  Forall (fun p => 0 < p /\ p <= 1) (init_q_levels None).
Proof.
  apply Forall_forall. intros p [i Hi]%list_elem_of_lookup.
  assert (Hlt : (i < 100)%nat).
  { apply lookup_lt_Some in Hi. by vm_compute in Hi. }
  apply arange_lookup in Hi as ->.
  assert (H0 : 0 <= inject_Z (Z.of_nat i)).
  { rewrite <- (Zle_Qle 0). lia. }
  assert (H1 : inject_Z (Z.of_nat i) <= 99).
  { rewrite <- (Zle_Qle _ 99). lia. }
  assert (Hc : 1 / 100 == 1 # 100) by reflexivity. rewrite Hc.
  split; lra.
Qed.

(** C7 (as the code has it).  The default grid has exactly 100 levels, one
    hundredth apart, the median 1/2 among them; they lie in the half-open
    interval (0, 1], and the last one is 1. *)
Theorem default_q_levels_grid :
  length (init_q_levels None) = 100%nat /\
  equidistant (1 / 100) (init_q_levels None) /\
  (exists p, init_q_levels None !! 49%nat = Some p /\ p == 1 / 2) /\
  Forall (fun p => 0 < p /\ p <= 1) (init_q_levels None) /\
  (exists p, last (init_q_levels None) = Some p /\ p == 1).
Proof.
  split_and!.
  - by vm_compute.
  - apply arange_equidistant.
  - eexists. split; [by vm_compute | by vm_compute].
  - exact default_q_levels_in_unit.
  - eexists. split; [by vm_compute | by vm_compute].
Qed.

(** C7, as stated: the last level of the default grid is 1, which is not
    inside the open interval (0, 1). *)
Lemma default_q_levels_reach_one :
  ~ (length (init_q_levels None) = 100%nat /\
     equidistant (1 / 100) (init_q_levels None) /\
     (exists p, p ∈ init_q_levels None /\ p == 1 / 2) /\
     Forall (fun p => 0 < p /\ p < 1) (init_q_levels None)).
Proof.
  intros (_ & _ & _ & Hin). rewrite Forall_forall in Hin.
  destruct (Hin (1 / 100 + inject_Z (Z.of_nat 99) * (1 / 100))) as [_ Hlt].
  - apply list_elem_of_lookup. exists 99%nat. by vm_compute.
  - by vm_compute in Hlt.
Qed.

(** C5.  The rank transform keeps the order of the ranks: rescaling by the
    positive factor [(n_ens + 1) / (n_quantiles + 1)] and rounding up is
    monotone, for all ranks and so for those between 0 and the number of
    quantiles. *)
Theorem transform_rank_monotone (n_ens : Z) (n_quantiles : nat) (r1 r2 : Q) :
  (0 < n_ens + 1)%Z -> r1 <= r2 ->
  transform_rank n_ens n_quantiles r1 <= transform_rank n_ens n_quantiles r2.
Proof.
  intros Hens Hle. unfold transform_rank.
  destruct (Z.of_nat n_quantiles =? n_ens)%Z; [done|].
  rewrite <- Zle_Qle. apply Qceiling_resp_le.
  unfold Qdiv. apply Qmult_le_compat_r.
  - apply Qmult_le_compat_r; [done|]. rewrite <- (Zle_Qle 0). lia.
  - apply Qinv_le_0_compat. rewrite <- (Zle_Qle 0). lia.
Qed.

Lemma transform_rank_monotone_witness :
  (0 < 10 + 1)%Z /\ 49 <= 50 /\
  transform_rank 10 99 49 <= transform_rank 10 99 50.
Proof.
  assert (H1 : (0 < 10 + 1)%Z) by lia.
  assert (H2 : 49 <= 50) by (by vm_compute).
  split_and!; [done..|].
  exact (transform_rank_monotone 10 99 49 50 H1 H2).
Defined.

End Grid.

(* ===================================================================== *)
(** ** BQNModels: Bernstein polynomials with increasing coefficients *)
(* ===================================================================== *)

Section Bernstein.
Import BQNModels.
Local Open Scope Q_scope.

Lemma sumQ_app l1 l2 : sumQ (l1 ++ l2) == sumQ l1 + sumQ l2.
Proof.
  induction l1 as [|x l1 IH]; simpl; [ring|]. rewrite IH. ring.
Qed.

Lemma sumQ_ext {A} (f g : A -> Q) l :
  (forall k, In k l -> f k == g k) ->
  sumQ (List.map f l) == sumQ (List.map g l).
Proof.
  induction l as [|x l IH]; simpl; intros H; [reflexivity|].
  apply Qplus_comp; [apply H; by left|].
  apply IH. intros k Hk. apply H. by right.
Qed.

Lemma sumQ_le {A} (f g : A -> Q) l :
  (forall k, In k l -> f k <= g k) ->
  sumQ (List.map f l) <= sumQ (List.map g l).
Proof.
  induction l as [|x l IH]; simpl; intros H; [apply Qle_refl|].
  apply Qplus_le_compat; [apply H; by left|].
  apply IH. intros k Hk. apply H. by right.
Qed.

Lemma sumQ_scale {A} (a : Q) (f : A -> Q) l :
  sumQ (List.map (fun k => a * f k) l) == a * sumQ (List.map f l).
Proof. induction l as [|x l IH]; simpl; [ring|]. rewrite IH. ring. Qed.

Lemma sumQ_plus {A} (f g : A -> Q) l :
  sumQ (List.map (fun k => f k + g k) l) ==
  sumQ (List.map f l) + sumQ (List.map g l).
Proof. induction l as [|x l IH]; simpl; [ring|]. rewrite IH. ring. Qed.

Lemma choose_above n : forall k, (n < k)%nat -> choose n k = 0%nat.
Proof.
  induction n as [|n IH]; intros [|k] H; simpl; try lia.
  rewrite !IH; lia.
Qed.

Lemma qpow_nonneg x n : 0 <= x -> 0 <= qpow x n.
Proof.
  intros Hx. induction n as [|n IH]; simpl; [done|].
  by apply Qmult_le_0_compat.
Qed.

Lemma binom_pmf_nonneg k n t : 0 <= t -> t <= 1 -> 0 <= binom_pmf k n t.
Proof.
  intros H0 H1. unfold binom_pmf.
  repeat apply Qmult_le_0_compat.
  - rewrite <- (Zle_Qle 0). lia.
  - by apply qpow_nonneg.
  - apply qpow_nonneg. lra.
Qed.

Lemma sumQ_cons x l : sumQ (x :: l) = x + sumQ l.
Proof. reflexivity. Qed.

Lemma seq_0_S n : seq 0 (S n) = 0%nat :: List.map S (seq 0 n).
Proof. by rewrite seq_shift. Qed.

Lemma choose_0 n : choose n 0 = 1%nat.
Proof. by destruct n. Qed.

Lemma binom_pmf_0_S n t : binom_pmf 0 (S n) t == (1 - t) * binom_pmf 0 n t.
Proof.
  unfold binom_pmf. rewrite !choose_0, !Nat.sub_0_r. simpl. ring.
Qed.

(** The recurrence of de Casteljau, from the rule of Pascal. *)
Lemma bernstein_step n c t :
  bernstein (S n) c t ==
  (1 - t) * bernstein n c t + t * bernstein n (fun k => c (S k)) t.
Proof.
  unfold bernstein.
  set (u := fun k => c (S k) * (inject_Z (Z.of_nat (choose n (S k)))
                                * qpow t (S k) * qpow (1 - t) (n - k))).
  transitivity
    (c O * binom_pmf 0 (S n) t
     + (t * sumQ (List.map (fun k => c (S k) * binom_pmf k n t) (seq 0 (S n)))
        + sumQ (List.map u (seq 0 (S n))))).
  - rewrite (seq_0_S (S n)), List.map_cons, List.map_map, sumQ_cons.
    apply Qplus_comp; [reflexivity|].
    transitivity
      (sumQ (List.map (fun k => t * (c (S k) * binom_pmf k n t) + u k)
               (seq 0 (S n)))).
    + apply sumQ_ext. intros k _. unfold u, binom_pmf.
      change (choose (S n) (S k)) with (choose n k + choose n (S k))%nat.
      rewrite Nat2Z.inj_add, inject_Z_plus. simpl. ring.
    + rewrite sumQ_plus, sumQ_scale. reflexivity.
  - assert (Hu : sumQ (List.map u (seq 0 (S n))) ==
                 (1 - t) * sumQ (List.map
                                   (fun k => c (S k) * binom_pmf (S k) n t)
                                   (seq 0 n))).
    { rewrite seq_S, List.map_app, sumQ_app.
      assert (Hun : sumQ (List.map u [(0 + n)%nat]) == 0).
      { unfold u. simpl. rewrite choose_above by lia. simpl. ring. }
      rewrite Hun.
      transitivity
        (sumQ (List.map
                 (fun k => (1 - t) * (c (S k) * binom_pmf (S k) n t))
                 (seq 0 n))); [|apply sumQ_scale].
      rewrite Qplus_0_r.
      apply sumQ_ext. intros k Hk%in_seq. unfold u, binom_pmf.
      replace (n - k)%nat with (S (n - S k)) by lia. simpl. ring. }
    rewrite Hu.
    rewrite (seq_0_S n) at 2. rewrite List.map_cons, List.map_map, sumQ_cons.
    rewrite binom_pmf_0_S. ring.
Qed.

Lemma bernstein_coeff_le n c d t :
  0 <= t -> t <= 1 ->
  (forall k, (k <= n)%nat -> c k <= d k) ->
  bernstein n c t <= bernstein n d t.
Proof.
  intros H0 H1 Hcd. unfold bernstein. apply sumQ_le.
  intros k Hk%in_seq. apply Qmult_le_compat_r; [apply Hcd; lia|].
  by apply binom_pmf_nonneg.
Qed.

(** A Bernstein polynomial with increasing coefficients increases on the
    unit interval. *)
Lemma bernstein_monotone n : forall c s t,
  (forall k, (k < n)%nat -> c k <= c (S k)) ->
  0 <= s -> s <= t -> t <= 1 ->
  bernstein n c s <= bernstein n c t.
Proof.
  induction n as [|n IH]; intros c s t Hc H0 Hst H1.
  - unfold bernstein, binom_pmf. simpl. lra.
  - rewrite !bernstein_step.
    assert (HA : bernstein n c s <= bernstein n c t).
    { apply IH; try done. intros k Hk. apply Hc. lia. }
    assert (HB : bernstein n (fun k => c (S k)) s
                 <= bernstein n (fun k => c (S k)) t).
    { apply IH; try done. intros k Hk. apply Hc. lia. }
    assert (HAB : bernstein n c s <= bernstein n (fun k => c (S k)) s).
    { apply bernstein_coeff_le; [done | lra |]. intros k Hk. apply Hc. lia. }
    nra.
Qed.
(** The dot product with a line of the basis is the Bernstein polynomial of
    the coefficients. *)
Lemma dot_map_seq (g : nat -> Q) (a : list Q) : forall i,
  dot a (List.map g (seq i (length a))) ==
  sumQ (List.map (fun k => nth (k - i) a 0 * g k) (seq i (length a))).
Proof.
  induction a as [|x a IH]; intros i; [reflexivity|].
  cbn [length seq List.map dot]. rewrite sumQ_cons, IH, Nat.sub_diag.
  apply Qplus_comp; [reflexivity|].
  apply sumQ_ext. intros k Hk%in_seq.
  replace (k - i)%nat with (S (k - S i)) by lia. reflexivity.
Qed.

Lemma dot_basis_row (a : list Q) p :
  a ≠ [] ->
  dot a (basis_row (length a - 1) p) ==
  bernstein (length a - 1) (fun k => nth k a 0) p.
Proof.
  intros Ha. unfold basis_row, bernstein.
  replace (S (length a - 1)) with (length a)
    by (destruct a; [done | simpl; lia]).
  rewrite dot_map_seq. apply sumQ_ext. intros k _.
  by rewrite Nat.sub_0_r.
Qed.

Lemma cumsum_from_length xs : forall acc,
  length (cumsum_from acc xs) = length xs.
Proof. induction xs as [|x xs IH]; intros acc; simpl; [done|]. by rewrite IH. Qed.

(** Partial sums of increments that are not negative increase. *)
Lemma cumsum_from_increasing xs : forall acc k,
  Forall (fun a => 0 <= a) (tl xs) -> (S k < length xs)%nat ->
  nth k (cumsum_from acc xs) 0 <= nth (S k) (cumsum_from acc xs) 0.
Proof.
  induction xs as [|x xs IH]; intros acc k Hinc Hk; simpl in *; [lia|].
  destruct k as [|k].
  - destruct xs as [|y xs]; simpl in *; [lia|].
    apply Forall_inv in Hinc. lra.
  - apply IH; [|lia]. destruct xs as [|y xs]; simpl in *; [done|].
    by apply Forall_inv_tail in Hinc.
Qed.

(** One quantile of the reconstruction, as a function of the level. *)
Lemma quantile_monotone (coeff : list Q) (p1 p2 : Q) :
  increments_nonneg coeff -> 0 <= p1 -> p1 <= p2 -> p2 <= 1 ->
  dot (cumsum coeff) (basis_row (length (cumsum coeff) - 1) p1) <=
  dot (cumsum coeff) (basis_row (length (cumsum coeff) - 1) p2).
Proof.
  intros Hinc H0 H12 H1.
  destruct coeff as [|a0 incs]; [apply Qle_refl|].
  rewrite !dot_basis_row by done.
  apply bernstein_monotone; try done.
  intros k Hk. unfold cumsum in *. rewrite cumsum_from_length in Hk.
  apply cumsum_from_increasing; [done|]. simpl in *. lia.
Qed.

Lemma StronglySorted_map {A B} (R : A -> A -> Prop) (R' : B -> B -> Prop)
    (P : A -> Prop) (f : A -> B) l :
  (forall x y, P x -> P y -> R x y -> R' (f x) (f y)) ->
  Forall P l -> StronglySorted R l -> StronglySorted R' (List.map f l).
Proof.
  intros Hf HP Hs. induction Hs as [|x l Hs IH Hx]; simpl; constructor.
  - apply IH. by apply Forall_inv_tail in HP.
  - apply Forall_forall. intros y [z [<- Hz]]%list_elem_of_In%in_map_iff.
    apply list_elem_of_In in Hz.
    rewrite Forall_forall in Hx, HP. apply Hf.
    + apply HP, list_elem_of_here.
    + by apply HP, list_elem_of_further.
    + by apply Hx.
Qed.

Lemma seq_sorted n : forall i, StronglySorted le (seq i n).
Proof.
  induction n as [|n IH]; intros i; simpl; constructor; [apply IH|].
  apply Forall_forall. intros j Hj%list_elem_of_In%in_seq. lia.
Qed.

Lemma arange_sorted start stop step :
  0 <= step -> StronglySorted Qle (arange start stop step).
Proof.
  intros Hstep. unfold arange.
  apply (StronglySorted_map le Qle (fun _ => True)).
  - intros i j _ _ Hij. apply Qplus_le_r. apply Qmult_le_compat_r; [|done].
    rewrite <- Zle_Qle. lia.
  - by apply Forall_forall.
  - apply seq_sorted.
Qed.

(** C4.  When the increments after the first coefficient are not negative,
    the quantiles that [get_results] reconstructs (accumulate the
    coefficients, then take the dot product with the Bernstein basis at each
    level) do not decrease along increasing levels of the unit interval:
    they cannot cross. *)
Theorem bqn_quantiles_never_cross (coeff_bern : list (list Q))
    (q_levels : list Q) :
  Forall increments_nonneg coeff_bern ->
  Forall (fun p => 0 <= p /\ p <= 1) q_levels ->
  StronglySorted Qle q_levels ->
  Forall (StronglySorted Qle) (get_results_f coeff_bern q_levels).
Proof.
  intros Hinc Hunit Hsorted.
  unfold get_results_f, get_results_alpha, bern_quants.
  rewrite List.map_map. apply Forall_forall.
  intros qs [coeff [<- Hcoeff%list_elem_of_In]]%list_elem_of_In%in_map_iff.
  rewrite Forall_forall in Hinc.
  apply (StronglySorted_map Qle Qle (fun p => 0 <= p /\ p <= 1)); try done.
  intros p1 p2 [H0 _] [_ H1] H12.
  apply quantile_monotone; try done. by apply Hinc.
Qed.

(** The same for the quantiles inside the loss function of [_build]. *)
Lemma loss_quantiles_never_cross (y_pred : list (list Q)) :
  Forall increments_nonneg y_pred ->
  Forall (fun coeff => length coeff = S p_degree) y_pred ->
  Forall (StronglySorted Qle) (loss_quantiles y_pred).
Proof.
  intros Hinc Hlen. unfold loss_quantiles. apply Forall_forall.
  intros qs [coeff [<- Hcoeff%list_elem_of_In]]%list_elem_of_In%in_map_iff.
  rewrite Forall_forall in Hinc, Hlen. unfold B. rewrite List.map_map.
  assert (Hdeg : p_degree = (length (cumsum coeff) - 1)%nat).
  { unfold cumsum. rewrite cumsum_from_length, (Hlen _ Hcoeff). lia. }
  rewrite Hdeg.
  apply (StronglySorted_map Qle Qle (fun p => 0 <= p /\ p <= 1)).
  - intros p1 p2 [H0 _] [_ H1] H12. apply quantile_monotone; auto.
  - apply Forall_forall. intros p [i Hi]%list_elem_of_lookup.
    assert (Hlt : (i < 99)%nat).
    { apply lookup_lt_Some in Hi. by vm_compute in Hi. }
    apply arange_lookup in Hi as ->.
    assert (H0 : 0 <= inject_Z (Z.of_nat i)).
    { rewrite <- (Zle_Qle 0). lia. }
    assert (H1 : inject_Z (Z.of_nat i) <= 98).
    { rewrite <- (Zle_Qle _ 98). lia. }
    assert (Hc : 1 / inject_Z (n_q + 1) == 1 # 100) by reflexivity.
    rewrite Hc. split; lra.
  - by apply arange_sorted.
Qed.
Lemma bqn_quantiles_never_cross_witness :
  Forall increments_nonneg [[3; 1 # 2; 0; 2]] /\
  Forall (fun p => 0 <= p /\ p <= 1) [1 # 100; 1 # 2; 1] /\
  StronglySorted Qle [1 # 100; 1 # 2; 1] /\
  Forall (StronglySorted Qle)
    (get_results_f [[3; 1 # 2; 0; 2]] [1 # 100; 1 # 2; 1]).
Proof.
  assert (H1 : Forall increments_nonneg [[3; 1 # 2; 0; 2]]).
  { repeat constructor; by vm_compute. }
  assert (H2 : Forall (fun p => 0 <= p /\ p <= 1) [1 # 100; 1 # 2; 1]).
  { repeat constructor; by vm_compute. }
  assert (H3 : StronglySorted Qle [1 # 100; 1 # 2; 1]).
  { repeat constructor; by vm_compute. }
  split_and!; [done..|].
  exact (bqn_quantiles_never_cross [[3; 1 # 2; 0; 2]] [1 # 100; 1 # 2; 1]
           H1 H2 H3).
Defined.

(** On the default grid of the model the reconstructed quantiles do not
    cross. *)
Corollary bqn_quantiles_never_cross_default (coeff_bern : list (list Q)) :
  Forall increments_nonneg coeff_bern ->
  Forall (StronglySorted Qle) (get_results_f coeff_bern (init_q_levels None)).
Proof.
  intros Hinc. apply bqn_quantiles_never_cross; [done | |].
  - eapply Forall_impl; [exact default_q_levels_in_unit|].
    intros p [H0 H1]. split; lra.
  - by apply arange_sorted.
Qed.
End Bernstein.

(* ===================================================================== *)
(** ** run_ensemble: the seeds *)
(* ===================================================================== *)

Section EnsembleTrace.
Import ss_1_ensemble.

Context {dataset prediction rng_state : Type}.
Variable seed_state : Z -> rng_state.
Variable fn_nn_ss : string -> option (pp_fn dataset prediction rng_state).
Variable transform_ranks_to_pit : prediction -> prediction.
Variable cpu_count : Z.

Local Abbreviation world := (world dataset prediction rng_state).
Local Abbreviation io := (io dataset prediction rng_state).
Local Abbreviation event := (event prediction rng_state).

Lemma io_bind_eq {A B} (m : io A) (k : A -> io B) (w : world) :
  (m ≫= k) w =
  match m w with
  | (w', Ok a) => k a w'
  | (w', Raise e) => (w', Raise e)
  end.
Proof. reflexivity. Qed.

Lemma seeds_app (a b : list event) : seeds (a ++ b) = seeds a ++ seeds b.
Proof. apply omap_app. Qed.

Lemma first_member_states_app (a b : list event) :
  first_member_states (a ++ b) =
  first_member_states a ++ first_member_states b.
Proof. apply omap_app. Qed.

(** A loop adds what its rounds add. *)
Lemma for_io_adds {A} (Q : list event -> Prop) (xs : list A)
    (body : A -> io unit) :
  Q [] -> (forall a b, Q a -> Q b -> Q (a ++ b)) ->
  (forall (x : A) (w : world), x ∈ xs ->
     exists evs, trace (fst (body x w)) = trace w ++ evs /\ Q evs) ->
  forall w,
    exists evs, trace (fst (for_io xs body w)) = trace w ++ evs /\ Q evs.
Proof.
  intros Hnil Happ. induction xs as [|x xs IH]; intros Hbody w.
  - exists []. by rewrite app_nil_r.
  - cbn [for_io]. rewrite io_bind_eq.
    destruct (Hbody x w) as (evs1 & Ht1 & HQ1); [apply list_elem_of_here|].
    destruct (body x w) as [w1 [[]|e]]; simpl in *; [|eauto].
    destruct (IH (fun y w' Hy => Hbody y w' (list_elem_of_further _ _ _ Hy))
                w1) as (evs2 & Ht2 & HQ2).
    exists (evs1 ++ evs2). rewrite Ht2, Ht1, app_assoc. auto.
Qed.

(** Fitting a member sets no seed; the first member starts from the state
    of the generator in which the loop is entered. *)
Lemma member_body_adds fn_pp temp_nn i_scenario i_sim n_ens d i_valid
    num_cores data_out_path i_ens (w : world) :
  exists evs,
    trace (fst (member_body transform_ranks_to_pit fn_pp temp_nn i_scenario i_sim n_ens d i_valid
                  num_cores data_out_path i_ens w)) = trace w ++ evs /\
    seeds evs = [] /\
    first_member_states evs = match i_ens with O => [rng w] | S _ => [] end.
Proof.
  unfold member_body. rewrite io_bind_eq. unfold call_pp.
  destruct (fn_pp d i_valid n_ens num_cores (rng w)) as [[p st]|e]; simpl.
  - eexists [_; _]. rewrite <- app_assoc. split; [reflexivity|].
    by destruct i_ens.
  - eexists [_]. split; [reflexivity|]. by destruct i_ens.
Qed.

Lemma member_loop_adds fn_pp temp_nn i_scenario i_sim n_ens d i_valid
    num_cores data_out_path (w : world) :
  exists evs,
    trace (fst (for_io (seq 0 (Z.to_nat n_ens))
                  (member_body transform_ranks_to_pit fn_pp temp_nn i_scenario i_sim n_ens d i_valid
                     num_cores data_out_path) w)) = trace w ++ evs /\
    seeds evs = [] /\
    Forall (fun st => st = rng w) (first_member_states evs).
Proof.
  destruct (Z.to_nat n_ens) as [|n].
  - exists []. simpl. by rewrite app_nil_r.
  - cbn [seq for_io]. rewrite io_bind_eq.
    destruct (member_body_adds fn_pp temp_nn i_scenario i_sim n_ens d i_valid
                num_cores data_out_path 0 w) as (evs1 & Ht1 & Hs1 & Hf1).
    destruct (member_body _ _ _ _ _ _ _ _ _ _ 0%nat w) as [w1 [[]|e]];
      simpl in *.
    + destruct (for_io_adds
                  (fun evs => seeds evs = [] /\ first_member_states evs = [])
                  (seq 1 n)
                  (member_body transform_ranks_to_pit fn_pp temp_nn i_scenario i_sim n_ens d i_valid
                     num_cores data_out_path)) with (w := w1)
        as (evs2 & Ht2 & Hs2 & Hf2).
      * done.
      * intros a b [Ha1 Ha2] [Hb1 Hb2].
        by rewrite seeds_app, first_member_states_app, Ha1, Ha2, Hb1, Hb2.
      * intros i w' Hi%list_elem_of_In%in_seq.
        destruct (member_body_adds fn_pp temp_nn i_scenario i_sim n_ens d
                    i_valid num_cores data_out_path i w')
          as (evs & Ht & Hs & Hf).
        exists evs. destruct i; [lia | done].
      * exists (evs1 ++ evs2). rewrite Ht2, Ht1, app_assoc.
        rewrite seeds_app, first_member_states_app, Hs1, Hs2, Hf1, Hf2.
        split_and!; try done. by repeat constructor.
    + exists evs1. rewrite Hf1. split_and!; try done. by repeat constructor.
Qed.
(** One network variant sets the seed of the pair at most once, and
    exactly once when it goes through. *)
Lemma variant_body_adds i_scenario i_sim n_ens d i_valid num_cores
    data_out_path temp_nn (w : world) :
  exists evs,
    trace (fst (variant_body seed_state fn_nn_ss transform_ranks_to_pit
                  i_scenario i_sim n_ens d i_valid num_cores data_out_path
                  temp_nn w)) = trace w ++ evs /\
    Forall (fun s => s = 123 + 10 * i_scenario + 100 * i_sim) (seeds evs) /\
    Forall (fun st => st = seed_state (123 + 10 * i_scenario + 100 * i_sim))
      (first_member_states evs) /\
    (snd (variant_body seed_state fn_nn_ss transform_ranks_to_pit
            i_scenario i_sim n_ens d i_valid num_cores data_out_path
            temp_nn w) = Ok tt ->
     seeds evs = [123 + 10 * i_scenario + 100 * i_sim]).
Proof.
  unfold variant_body. rewrite io_bind_eq. unfold get_pp.
  destruct (fn_nn_ss _) as [fn_pp|]; simpl.
  2: { exists []. rewrite app_nil_r. split_and!; try done. }
  rewrite io_bind_eq. unfold np_random_seed.
  destruct (_ && _); simpl.
  2: { exists []. rewrite app_nil_r. split_and!; try done. }
  match goal with
  | |- context [for_io _ _ ?w1] =>
      destruct (member_loop_adds fn_pp temp_nn i_scenario i_sim n_ens d
                  i_valid num_cores data_out_path w1)
        as (evs & Ht & Hs & Hf)
  end.
  simpl in *. exists (Seeded (123 + 10 * i_scenario + 100 * i_sim) :: evs).
  rewrite Ht, <- app_assoc. split_and!; try done.
  - change (Seeded ?s :: evs) with ([@Seeded prediction rng_state s] ++ evs).
    rewrite seeds_app, Hs. by repeat constructor.
  - intros _.
    change (Seeded ?s :: evs) with ([@Seeded prediction rng_state s] ++ evs).
    by rewrite seeds_app, Hs.
Qed.

(** The events of a whole run. *)
Lemma run_ensemble_adds i_scenario i_sim n_ens nn_vec data_in_path
    data_out_path (w : world) :
  exists evs,
    trace (fst (run_ensemble seed_state fn_nn_ss transform_ranks_to_pit
                  cpu_count i_scenario i_sim n_ens nn_vec data_in_path
                  data_out_path w)) = trace w ++ evs /\
    Forall (fun s => s = 123 + 10 * i_scenario + 100 * i_sim) (seeds evs) /\
    Forall (fun st => st = seed_state (123 + 10 * i_scenario + 100 * i_sim))
      (first_member_states evs) /\
    (snd (run_ensemble seed_state fn_nn_ss transform_ranks_to_pit
            cpu_count i_scenario i_sim n_ens nn_vec data_in_path
            data_out_path w) = Ok tt ->
     seeds evs =
     replicate (length nn_vec) (123 + 10 * i_scenario + 100 * i_sim)).
Proof.
  unfold run_ensemble. rewrite io_bind_eq. unfold pickle_load.
  destruct (files w _) as [d|]; simpl.
  2: { exists []. rewrite app_nil_r. split_and!; try done. }
  generalize (if (i_scenario =? 6)%Z then seqZ 2500 (3000 - 2500)
              else seqZ 5000 (6000 - 5000)).
  generalize (inject_Z cpu_count / 2 - 1)%Q. intros num_cores i_valid.
  revert w. induction nn_vec as [|temp_nn nns IH]; intros w.
  - exists []. simpl. rewrite app_nil_r. split_and!; try done.
  - cbn [for_io]. rewrite io_bind_eq.
    destruct (variant_body_adds i_scenario i_sim n_ens d i_valid num_cores
                data_out_path temp_nn w) as (evs1 & Ht1 & Hs1 & Hf1 & Hok1).
    destruct (variant_body _ _ _ _ _ _ _ _ _ _ _ w) as [w1 [[]|e]];
      simpl in *.
    + destruct (IH w1) as (evs2 & Ht2 & Hs2 & Hf2 & Hok2).
      exists (evs1 ++ evs2).
      rewrite Ht2, Ht1, app_assoc, seeds_app, first_member_states_app.
      split_and!; try done.
      * by apply Forall_app.
      * by apply Forall_app.
      * intros Hok. by rewrite Hok1, Hok2.
    + exists evs1. split_and!; try done.
Qed.
End EnsembleTrace.

Section EnsembleClaim.
Import ss_1_ensemble.

Context {dataset prediction rng_state : Type}.
Variable seed_state : Z -> rng_state.

(** C9.  The seed that [run_ensemble] sets is [123 + 10 * i_scenario +
    100 * i_sim]: every seed of a run is this number, a run that goes through
    sets it once for each network variant, and the first member of every
    variant is fitted from the state of the generator that this seed gives.
    So two runs on the same pair, whatever their networks, ensemble sizes,
    paths, files and machines, set the same seeds. *)
Theorem run_ensemble_seed_of_pair (i_scenario i_sim : Z)
    (fn_nn_ss fn_nn_ss' : string -> option (pp_fn dataset prediction rng_state))
    (to_pit to_pit' : prediction -> prediction) (cpu_count cpu_count' : Z)
    (n_ens n_ens' : Z) (nn_vec nn_vec' : list string)
    (data_in_path data_out_path data_in_path' data_out_path' : string)
    (w w' : world dataset prediction rng_state) :
  let run := run_ensemble seed_state fn_nn_ss to_pit cpu_count i_scenario
               i_sim n_ens nn_vec data_in_path data_out_path in
  let run' := run_ensemble seed_state fn_nn_ss' to_pit' cpu_count' i_scenario
                i_sim n_ens' nn_vec' data_in_path' data_out_path' in
  Forall (fun s => s = 123 + 10 * i_scenario + 100 * i_sim)
    (seeds (events_of run w)) /\
  (snd (run w) = Ok tt ->
   seeds (events_of run w) =
   replicate (length nn_vec) (123 + 10 * i_scenario + 100 * i_sim)) /\
  Forall (fun st => st = seed_state (123 + 10 * i_scenario + 100 * i_sim))
    (first_member_states (events_of run w)) /\
  (forall s s', s ∈ seeds (events_of run w) ->
                s' ∈ seeds (events_of run' w') -> s = s').
Proof.
  intros run run'.
  destruct (run_ensemble_adds seed_state fn_nn_ss to_pit cpu_count i_scenario
              i_sim n_ens nn_vec data_in_path data_out_path w)
    as (evs & Ht & Hs & Hf & Hok).
  destruct (run_ensemble_adds seed_state fn_nn_ss' to_pit' cpu_count'
              i_scenario i_sim n_ens' nn_vec' data_in_path' data_out_path' w')
    as (evs' & Ht' & Hs' & _ & _).
  assert (He : events_of run w = evs).
  { unfold events_of, run. by rewrite Ht, drop_app_length. }
  assert (He' : events_of run' w' = evs').
  { unfold events_of, run'. by rewrite Ht', drop_app_length. }
  rewrite He, He'. split_and!; try done.
  intros s s' Hin Hin'. rewrite Forall_forall in Hs, Hs'.
  by rewrite (Hs s Hin), (Hs' s' Hin').
Qed.

End EnsembleClaim.

Lemma run_ensemble_seed_of_pair_witness :
  ss_1_ensemble.seeds
    (ss_1_ensemble.events_of (examples.toy_run 3 ["drn"; "bqn"])
       examples.toy_world) = [233; 233] /\
  snd (examples.toy_run 3 ["drn"; "bqn"] examples.toy_world) = Ok tt /\
  (forall s s',
     s ∈ ss_1_ensemble.seeds
           (ss_1_ensemble.events_of (examples.toy_run 3 ["drn"; "bqn"])
              examples.toy_world) ->
     s' ∈ ss_1_ensemble.seeds
            (ss_1_ensemble.events_of (examples.toy_run 5 ["bqn"])
               examples.toy_world) ->
     s = s').
Proof.
  destruct (run_ensemble_seed_of_pair (fun seed => seed) 1 1
              examples.toy_fn_nn_ss examples.toy_fn_nn_ss
              (fun p => p) (fun p => p) 8 8 3 5 ["drn"; "bqn"] ["bqn"]
              "data/ss_data" "data/model" "data/ss_data" "data/model"
              examples.toy_world examples.toy_world)
    as (_ & Hok & _ & Hsame).
  split_and!.
  - apply Hok. vm_compute. reflexivity.
  - vm_compute. reflexivity.
  - exact Hsame.
Defined.


(* ===================================================================== *)
(** ** Vincentization of a single member *)
(* ===================================================================== *)

Section Vincentization.
Import aggregation.
Local Open Scope Q_scope.

Lemma map_nth_seq (F G : Q -> Q) (f : list Q) :
  (forall x, F x == G x) ->
  Forall2 Qeq (List.map (fun j => F (nth j f 0)) (seq 0 (length f)))
    (List.map G f).
Proof.
  intros HFG. induction f as [|x f IH]; [constructor|].
  cbn [length]. rewrite <- cons_seq, <- seq_shift, List.map_cons, List.map_map.
  constructor; [apply HFG | exact IH].
Qed.

(** One member with weight [w]: every quantile is scaled by [w] and shifted
    by the intercept. *)
Lemma vincentize_single (a w : Q) (f : list Q) :
  same_forecast (vincentize a [w] [f]) (List.map (fun x => a + w * x) f).
Proof.
  unfold same_forecast, vincentize. cbn [combine List.map BQNModels.sumQ
    fold_right fst snd].
  apply (map_nth_seq (fun x => a + (w * x + 0)) (fun x => a + w * x)).
  intros x. ring.
Qed.

Lemma same_forecast_map (F : Q -> Q) (f : list Q) :
  (forall x, F x == x) -> same_forecast (List.map F f) f.
Proof.
  intros HF. induction f as [|x f IH]; constructor; [apply HF | exact IH].
Qed.

Lemma same_forecast_map2 (F G : Q -> Q) (f : list Q) :
  (forall x, F x == G x) -> same_forecast (List.map F f) (List.map G f).
Proof.
  intros HF. induction f as [|x f IH]; constructor; [apply HF | exact IH].
Qed.

Lemma same_forecast_trans (f g h : list Q) :
  same_forecast f g -> same_forecast g h -> same_forecast f h.
Proof.
  unfold same_forecast. intros Hfg. revert h.
  induction Hfg as [|x y f g Hxy Hfg IH]; intros h Hgh; inversion Hgh; subst;
    constructor.
  - by rewrite Hxy.
  - by apply IH.
Qed.

(** What the formula gives for a single member: with the weight [1/K = 1],
    or with estimated weights that obey the sum constraint, the member
    shifted by the intercept of the variant. *)
Lemma formula_of_one_member (v : variant) (est : estimate) (f : list Q) :
  constrained est 1 ->
  same_forecast (vincentize (intercept_of v est) (weights_of v est 1) [f])
    (List.map (fun x => intercept_of v est + x) f).
Proof.
  intros [Hlen Hsum]. destruct est as [a ws]. simpl in *.
  destruct ws as [|w [|w' ws]]; try discriminate. simpl in Hsum.
  assert (Hw : w == 1) by lra.
  assert (Hone : 1 / inject_Z (Z.of_nat 1) == 1) by reflexivity.
  destruct v; cbn [intercept_of weights_of repeat est_a est_w];
    (eapply same_forecast_trans; [apply vincentize_single|]);
    apply same_forecast_map2; intros x; rewrite ?Hone, ?Hw; ring.
Qed.

(** C6.  A one-member ensemble is returned as it is by every variant of
    Vincentization: this is the edge case [K = 1] of the aggregator.  For
    the variants whose intercept is fixed at 0 ("vi" with the weight
    [1/K = 1], "vi-w" with estimated weights under the sum constraint) the
    formula [a + sum_k w_k * Q_k(p)] gives the same forecast; for the
    variants with an estimated intercept ("vi-a", "vi-aw") the formula gives
    the member shifted by that intercept, and the edge case overrides it. *)
Theorem vincentization_of_one_member (v : variant) (est : estimate)
    (f : list Q) :
  aggregate v est [f] = f /\
  (constrained est 1 ->
   same_forecast (vincentize (intercept_of v est) (weights_of v est 1) [f])
     (List.map (fun x => intercept_of v est + x) f) /\
   (v = vi \/ v = vi_w ->
    same_forecast (vincentize (intercept_of v est) (weights_of v est 1) [f])
      (aggregate v est [f]))).
Proof.
  split; [reflexivity|]. intros Hc.
  pose proof (formula_of_one_member v est f Hc) as Hf.
  split; [exact Hf|]. intros Hv.
  eapply same_forecast_trans; [exact Hf|]. cbn [aggregate].
  apply same_forecast_map. intros x.
  destruct Hv as [-> | ->]; cbn [intercept_of]; ring.
Qed.

Lemma vincentization_of_one_member_witness :
  constrained (mk_estimate (- 6) [1]) 1 /\
  aggregate vi_a (mk_estimate (- 6) [1]) [[7; 8; 10]] = [7; 8; 10] /\
  same_forecast
    (vincentize (intercept_of vi_a (mk_estimate (- 6) [1]))
       (weights_of vi_a (mk_estimate (- 6) [1]) 1) [[7; 8; 10]])
    (List.map (fun x => intercept_of vi_a (mk_estimate (- 6) [1]) + x)
       [7; 8; 10]).
Proof.
  assert (Hc : constrained (mk_estimate (- 6) [1]) 1).
  { split; reflexivity. }
  destruct (vincentization_of_one_member vi_a (mk_estimate (- 6) [1])
              [7; 8; 10]) as [Hid Hformula].
  split; [exact Hc|]. split; [exact Hid|]. exact (proj1 (Hformula Hc)).
Defined.

(** The example figure is an instance of the formula: the quantile
    [mu_k + sd_k * z] of each normal member, aggregated with the intercept
    and the weight of the variant, is the quantile of the normal
    distribution with the parameters of [example_mu_sd]. *)
Lemma example_is_vincentization temp (mu1 mu2 sd1 sd2 z : Q) :
  let a := example_intercept temp in
  let w := example_weight temp 2 in
  same_forecast
    (vincentize a [w; w] [[mu1 + sd1 * z]; [mu2 + sd2 * z]])
    [fst (example_mu_sd temp 2 [mu1; mu2] [sd1; sd2])
     + snd (example_mu_sd temp 2 [mu1; mu2] [sd1; sd2]) * z].
Proof.
  intros a w. unfold same_forecast, vincentize, example_mu_sd. simpl.
  constructor; [|constructor]. fold a w. ring.
Qed.
End Vincentization.

(* ===================================================================== *)
(** * Part III: further properties of the code *)
(* ===================================================================== *)

(* ===================================================================== *)
(** ** get_panel_data: errors and shape *)
(* ===================================================================== *)

Section PanelShape.
Import results panel_shape.

Variable fs : file_system.
Variables (data_path ens_method : string).
Variables (score_vec nn_vec agg_meths : list string).
Variable n_ens_vec : list Z.

Lemma collect_app {A R} (xs ys : list A) (g : A -> result (list R)) :
  collect (xs ++ ys) g =
  (r1 ← collect xs g; r2 ← collect ys g; Ok (r1 ++ r2)).
Proof.
  induction xs as [|x xs IH]; simpl.
  - by destruct (collect ys g).
  - destruct (g x) as [new|e]; simpl; [|done]. rewrite IH.
    destruct (collect xs g) as [r1|e]; simpl; [|done].
    destruct (collect ys g) as [r2|e]; simpl; [|done].
    by rewrite app_assoc.
Qed.

(** X1.  When the file of a dataset is missing and the datasets before it
    went through, [get_panel_data] raises [FileNotFoundError] with the path
    of that file. *)
Theorem get_panel_data_missing_file pre ds post :
  (exists df, get_panel_data fs data_path pre score_vec nn_vec n_ens_vec
                agg_meths ens_method = Ok df) ->
  fs (eval_path data_path ds ens_method) = None ->
  get_panel_data fs data_path (pre ++ ds :: post) score_vec nn_vec n_ens_vec
    agg_meths ens_method
  = Raise (FileNotFoundError (eval_path data_path ds ens_method)).
Proof.
  intros [df Hpre] Hfile. rewrite get_panel_data_rows in *.
  unfold panel_rows in *. rewrite collect_app, Hpre. cbn [collect].
  assert (Hds : dataset_rows fs data_path score_vec nn_vec n_ens_vec
                  agg_meths ens_method ds
                = Raise (FileNotFoundError
                           (eval_path data_path ds ens_method))).
  { unfold dataset_rows, load. by rewrite Hfile. }
  by rewrite Hds.
Qed.

Lemma collect_keys {A R K} (key : R -> K) (k : A -> list K) (xs : list A)
    (g : A -> result (list R)) :
  (forall x new, x ∈ xs -> g x = Ok new -> List.map key new = k x) ->
  forall rs, collect xs g = Ok rs -> List.map key rs = flat_map k xs.
Proof.
  induction xs as [|x xs IH]; intros Hk rs H; simpl in *.
  - by injection H as <-.
  - apply bind_Ok_inv in H as (new & Hg & H).
    apply bind_Ok_inv in H as (rest & Hrest & [= <-]).
    rewrite List.map_app. f_equal.
    + apply Hk; [apply list_elem_of_here | done].
    + apply IH; [|done]. intros y new' Hy. apply Hk.
      by apply list_elem_of_further.
Qed.

Lemma agg_rows_keys ds sr out temp_nn s_opt df_nn i_ens (aggs : list string) :
  forall rs,
  collect aggs (agg_rows ds sr out temp_nn s_opt df_nn i_ens) = Ok rs ->
  List.map panel_key rs =
  List.map (fun g => (ds, temp_nn, sr, i_ens, g))
    (List.filter (fun g => negb (skipped sr g)) aggs).
Proof.
  induction aggs as [|g aggs IH]; intros rs H; simpl in *.
  - by injection H as <-.
  - apply bind_Ok_inv in H as (new & Hg & H).
    apply bind_Ok_inv in H as (rest & Hrest & [= <-]).
    rewrite List.map_app, (IH rest Hrest). unfold agg_rows in Hg.
    destruct (skipped sr g); simpl in *.
    + by injection Hg as <-.
    + apply bind_Ok_inv in Hg as (sc & _ & [= <-]). done.
Qed.

Lemma panel_rows_keys dataset_ls df :
  get_panel_data fs data_path dataset_ls score_vec nn_vec n_ens_vec
    agg_meths ens_method = Ok df ->
  List.map panel_key df =
  panel_keys dataset_ls score_vec nn_vec n_ens_vec agg_meths.
Proof.
  rewrite get_panel_data_rows. unfold panel_rows, panel_keys.
  apply collect_keys. intros ds new1 _ H1. unfold dataset_rows in H1.
  apply bind_Ok_inv in H1 as (df_scores & _ & H1). revert new1 H1.
  apply collect_keys. intros sr new2 _ H2. unfold score_rows in H2.
  apply bind_Ok_inv in H2 as (s_opt & _ & H2). revert new2 H2.
  apply collect_keys. intros temp_nn new3 _ H3. unfold nn_rows in H3.
  revert new3 H3.
  apply collect_keys. intros i_ens new4 _ H4. unfold ens_rows in H4.
  by apply agg_rows_keys in H4.
Qed.

(** X2.  The key columns of the panel do not depend on the scores: when
    [get_panel_data] returns, its lines are, in loop order, one for each
    dataset, score, network, ensemble size and aggregation method of
    ["opt"; "ens"] + agg_meths that is not skipped. *)
Theorem get_panel_data_keys dataset_ls df :
  get_panel_data fs data_path dataset_ls score_vec nn_vec n_ens_vec
    agg_meths ens_method = Ok df ->
  List.map panel_key df =
  panel_keys dataset_ls score_vec nn_vec n_ens_vec agg_meths.
Proof. apply panel_rows_keys. Qed.

End PanelShape.

Lemma get_panel_data_missing_file_witness :
  results.get_panel_data examples.files "data/dataset" (["boston"] ++ "wine" :: [])
    ["crps"; "crpss"] ["drn"] [2] ["vi"] "rand_init"
  = Raise (FileNotFoundError "data/wine/eval_wine_rand_init.pkl").
Proof.
  apply (get_panel_data_missing_file examples.files "data/dataset"
           "rand_init" ["crps"; "crpss"] ["drn"] ["vi"] [2] ["boston"] "wine"
           []).
  - exists examples.boston_panel. vm_compute. reflexivity.
  - vm_compute. reflexivity.
Defined.

Lemma get_panel_data_keys_witness :
  List.map panel_shape.panel_key examples.boston_panel =
  panel_shape.panel_keys ["boston"] ["crps"; "crpss"] ["drn"] [2] ["vi"].
Proof.
  apply (get_panel_data_keys examples.files "data/dataset" "rand_init"
           ["crps"; "crpss"] ["drn"] ["vi"] [2] ["boston"]
           examples.boston_panel).
  vm_compute. reflexivity.
Defined.

Section PanelScores.
Import results panel_shape.

Variable fs : file_system.
Variables (data_path ens_method : string).
Variables (dataset_ls score_vec nn_vec agg_meths : list string).
Variable n_ens_vec : list Z.

Local Abbreviation panel :=
  (get_panel_data fs data_path dataset_ls score_vec nn_vec n_ens_vec agg_meths
     ens_method).

(** What the score of a line of the panel is, by aggregation method. *)
Lemma panel_row_score df ds temp_nn sr i_ens g sc :
  panel = Ok df -> mk_panel_row ds temp_nn sr i_ens g sc ∈ df ->
  exists df_scores s_opt s_ref,
    fs (eval_path data_path ds ens_method) = Some df_scores /\
    optimal_score (startswith ds "scen") (scenario_frame df_scores ds) sr
      (output_column sr) = Ok s_opt /\
    reference_score (network_frame (scenario_frame df_scores ds) temp_nn)
      (output_column sr) i_ens = Ok s_ref /\
    skipped sr g = false /\
    if g =? "ens" then sc = s_ref
    else if g =? "opt" then sc = s_opt
    else exists sc0,
           read_out_score (network_frame (scenario_frame df_scores ds) temp_nn)
             (output_column sr) i_ens g = Ok sc0 /\
           sc = (let sc1 := if sr =? "crpss" then skill s_ref sc0 s_opt
                            else sc0 in
                 if sr =? "w" then rel_weight_diff i_ens sc1 else sc1).
Proof.
  intros Hdf Hr. apply (get_panel_data_elem _ _ _ _ _ _ _ _ _ _ Hdf) in Hr.
  destruct Hr as (df_scores & s_opt & _ & Hload & _ & Hopt & _ & _ & _ & Hskip
                  & Hsc).
  simpl in *. unfold load in Hload.
  destruct (fs _) as [df'|] eqn:Hfs; [|done]. injection Hload as ->.
  unfold cell_score in Hsc. apply bind_Ok_inv in Hsc as (s_ref & Href & Hsc).
  exists df_scores, s_opt, s_ref. split_and!; try done.
  destruct (g =? "ens"); [by injection Hsc|].
  destruct (g =? "opt"); [by injection Hsc|].
  apply bind_Ok_inv in Hsc as (sc0 & Hsc0 & [= <-]). eauto.
Qed.

(** X3.  The CRPSS of a cell can be recomputed from the CRPS lines of the
    same panel: it is [100 * (ens - agg) / (ens - opt)] with the scores of
    the lines "ens", of the aggregation method, and "opt" of the same
    dataset, network and ensemble size. *)
Theorem crpss_from_crps_lines df ds temp_nn i_ens g s_skill s_agg s_ens s_opt :
  get_panel_data fs data_path dataset_ls score_vec nn_vec n_ens_vec agg_meths
    ens_method = Ok df ->
  mk_panel_row ds temp_nn "crpss" i_ens g s_skill ∈ df ->
  mk_panel_row ds temp_nn "crps" i_ens g s_agg ∈ df ->
  mk_panel_row ds temp_nn "crps" i_ens "ens" s_ens ∈ df ->
  mk_panel_row ds temp_nn "crps" i_ens "opt" s_opt ∈ df ->
  s_skill = fdiv (fmul (of_int 100) (fsub s_ens s_agg)) (fsub s_ens s_opt).
Proof.
  intros Hdf Hs Ha He Ho.
  destruct (panel_row_score _ _ _ _ _ _ _ Hdf Hs)
    as (d1 & o1 & r1 & Hf1 & Ho1 & Hr1 & Hk1 & H1).
  destruct (panel_row_score _ _ _ _ _ _ _ Hdf Ha)
    as (d2 & o2 & r2 & Hf2 & Ho2 & Hr2 & _ & H2).
  destruct (panel_row_score _ _ _ _ _ _ _ Hdf He)
    as (d3 & o3 & r3 & Hf3 & Ho3 & Hr3 & _ & H3).
  destruct (panel_row_score _ _ _ _ _ _ _ Hdf Ho)
    as (d4 & o4 & r4 & Hf4 & Ho4 & Hr4 & _ & H4).
  assert (d2 = d1) as -> by congruence.
  assert (d3 = d1) as -> by congruence.
  assert (d4 = d1) as -> by congruence.
  change (output_column "crpss") with "crps" in *.
  change (output_column "crps") with "crps" in *.
  assert (Hoo : optimal_score (startswith ds "scen") (scenario_frame d1 ds)
                  "crpss" "crps"
                = optimal_score (startswith ds "scen") (scenario_frame d1 ds)
                    "crps" "crps") by done.
  rewrite Hoo in Ho1.
  assert (o4 = o1) as -> by congruence.
  assert (r3 = r1) as -> by congruence.
  simpl in H3, H4. subst s_ens s_opt.
  apply skipped_crpss in Hk1 as [Hge Hgo]. rewrite Hge, Hgo in H1, H2.
  destruct H1 as (sc1 & Hsc1 & ->). destruct H2 as (sc2 & Hsc2 & ->).
  simpl. assert (sc2 = sc1) as -> by congruence. done.
Qed.

(** X4.  All "opt" lines of a dataset and a score carry one and the same
    number, whatever the network and the ensemble size. *)
Theorem opt_lines_agree df ds sr nn1 nn2 i1 i2 s1 s2 :
  get_panel_data fs data_path dataset_ls score_vec nn_vec n_ens_vec agg_meths
    ens_method = Ok df ->
  mk_panel_row ds nn1 sr i1 "opt" s1 ∈ df ->
  mk_panel_row ds nn2 sr i2 "opt" s2 ∈ df ->
  s1 = s2.
Proof.
  intros Hdf H1 H2.
  destruct (panel_row_score _ _ _ _ _ _ _ Hdf H1)
    as (d1 & o1 & r1 & Hf1 & Ho1 & _ & _ & E1).
  destruct (panel_row_score _ _ _ _ _ _ _ Hdf H2)
    as (d2 & o2 & r2 & Hf2 & Ho2 & _ & _ & E2).
  simpl in E1, E2. congruence.
Qed.

End PanelScores.

Lemma crpss_from_crps_lines_witness :
  Fin (400 # 16) =
  fdiv (fmul (of_int 100) (fsub (Fin (8 # 2)) (Fin 3)))
    (fsub (Fin (8 # 2)) (Fin 0)).
Proof.
  apply (crpss_from_crps_lines examples.files "data/dataset" "rand_init"
           ["boston"] ["crps"; "crpss"] ["drn"] ["vi"] [2]
           examples.boston_panel "boston" "drn" 2 "vi").
  - vm_compute. reflexivity.
  - by apply (list_elem_of_lookup_2 _ 3%nat).
  - by apply (list_elem_of_lookup_2 _ 2%nat).
  - by apply (list_elem_of_lookup_2 _ 1%nat).
  - by apply (list_elem_of_lookup_2 _ 0%nat).
Defined.

Lemma opt_lines_agree_witness :
  results.score
    (results.mk_panel_row "energy" "bqn" "crps" 2 "opt" (Fin 0)) =
  results.score
    (results.mk_panel_row "energy" "drn" "crps" 4 "opt" (Fin 0)).
Proof.
  apply (opt_lines_agree examples.energy_files "data/dataset" "rand_init"
           ["energy"] best.score_vec ["bqn"; "drn"] ["lp"; "vi"] [2; 4]
           examples.energy_panel "energy" "crps" "bqn" "drn" 2 4).
  - vm_compute. reflexivity.
  - by apply (list_elem_of_lookup_2 _ 0%nat).
  - by apply (list_elem_of_lookup_2 _ 12%nat).
Defined.

Section SkillAlgebra.
Import results.



End SkillAlgebra.

Section PanelMissingColumn.
Import results.

(** A loop raises what its first round that does not come back raises. *)
Lemma collect_raise {A R} (xs : list A) (g : A -> result (list R)) (e : exn)
    (x0 : A) :
  x0 ∈ xs ->
  (forall x, x ∈ xs -> g x = Raise e \/ g x = Ok []) ->
  g x0 = Raise e ->
  collect xs g = Raise e.
Proof.
  intros Hx0 Hall Hraise. induction xs as [|x xs IH]; simpl.
  - by apply elem_of_nil in Hx0.
  - destruct (Hall x) as [-> | Hnil]; [apply list_elem_of_here | done |].
    rewrite Hnil. simpl.
    apply elem_of_cons in Hx0 as [<- | Hx0]; [congruence|].
    rewrite IH; [done | done |].
    intros y Hy. apply Hall. by apply list_elem_of_further.
Qed.

Lemma collect_head_raise {A R} (x : A) (xs : list A)
    (g : A -> result (list R)) (e : exn) :
  g x = Raise e -> collect (x :: xs) g = Raise e.
Proof. intros H. simpl. by rewrite H. Qed.

Lemma column_missing df name :
  str_in name ["model"; "type"; "nn"] = false ->
  str_in name (columns df) = false ->
  column df name = Raise (KeyError name).
Proof. intros H1 H2. unfold column. by rewrite H1, H2. Qed.

(** X7.  A score that is no column of the evaluation table is a
    [KeyError]: as soon as the loops have one cell to fill for the first
    dataset and the first score, [get_panel_data] raises it, whatever the
    other scores and datasets. *)
Theorem get_panel_data_missing_column fs data_path ens_method ds dataset_ls
    sr score_vec temp_nn nn_vec i_ens n_ens_vec agg_meths g df_scores :
  fs (eval_path data_path ds ens_method) = Some df_scores ->
  numeric_column df_scores "n_rep" ->
  str_in (output_column sr) ["model"; "type"; "nn"] = false ->
  str_in (output_column sr) (columns df_scores) = false ->
  g ∈ ["opt"; "ens"] ++ agg_meths -> skipped sr g = false ->
  get_panel_data fs data_path (ds :: dataset_ls) (sr :: score_vec)
    (temp_nn :: nn_vec) (i_ens :: n_ens_vec) agg_meths ens_method
  = Raise (KeyError (output_column sr)).
Proof.
  intros Hfs Hrep Htext Hcol Hg Hskip.
  rewrite get_panel_data_rows. unfold panel_rows.
  apply collect_head_raise. unfold dataset_rows, load. rewrite Hfs. simpl.
  apply collect_head_raise. unfold score_rows.
  assert (Hmean : forall df mask,
             columns df = columns df_scores ->
             column_mean df mask (output_column sr)
             = Raise (KeyError (output_column sr))).
  { intros df mask Hc. unfold column_mean.
    rewrite column_select, column_missing; [done | done | by rewrite Hc]. }
  unfold optimal_score.
  destruct (_ && _); [by rewrite Hmean|]. simpl.
  apply collect_head_raise. unfold nn_rows.
  apply collect_head_raise. unfold ens_rows.
  assert (Hcell : forall g', skipped sr g' = false ->
             agg_rows ds sr (output_column sr) temp_nn (of_int 0)
               (network_frame (scenario_frame df_scores ds) temp_nn) i_ens g'
             = Raise (KeyError (output_column sr))).
  { intros g' Hg'. unfold agg_rows, cell_score, reference_score.
    rewrite Hg'. unfold network_frame, scenario_frame.
    rewrite !column_select, (column_numeric _ _ Hrep). simpl.
    by rewrite Hmean. }
  apply (collect_raise _ _ _ g); [done | | by apply Hcell].
  intros g' _. destruct (skipped sr g') eqn:Hg'.
  - right. unfold agg_rows. by rewrite Hg'.
  - left. by apply Hcell.
Qed.

End PanelMissingColumn.

Lemma get_panel_data_missing_column_witness :
  results.get_panel_data examples.files "data/dataset" ["boston"; "scen_1"]
    ["me"; "crps"] ["drn"; "bqn"] [2; 4] ["vi"] "rand_init"
  = Raise (KeyError "me").
Proof.
  apply (get_panel_data_missing_column examples.files "data/dataset"
           "rand_init" "boston" ["scen_1"] "me" ["crps"] "drn" ["bqn"] 2 [4]
           ["vi"] "opt" examples.boston_scores).
  - vm_compute. reflexivity.
  - split; vm_compute; reflexivity.
  - vm_compute. reflexivity.
  - vm_compute. reflexivity.
  - apply list_elem_of_here.
  - vm_compute. reflexivity.
Defined.

(* ===================================================================== *)
(** ** get_best_result_table: errors and slots *)
(* ===================================================================== *)

Section BestEdges.
Import results best panel_shape.

Variable fs : file_system.
Variable data_path : string.
Variables (agg_meths dataset_ls : list string).
Variable n_ens_vec : list Z.

Lemma flat_map_nil {A B} (f : A -> list B) (l : list A) :
  (forall x, f x = []) -> flat_map f l = [].
Proof.
  intros H. induction l as [|x l IH]; [done|]. simpl. by rewrite H, IH.
Qed.

(** X8.  A panel without lines has no column "agg": with no dataset, no
    network or no ensemble size to go through, [get_best_result_table]
    raises [KeyError] for the first ensemble method whose files are there. *)
Theorem get_best_result_table_empty_panel nn_vec m ens_method_ls df :
  get_panel_data fs data_path dataset_ls score_vec nn_vec n_ens_vec agg_meths
    m = Ok df ->
  dataset_ls = [] \/ nn_vec = [] \/ n_ens_vec = [] ->
  get_best_result_table fs data_path nn_vec (m :: ens_method_ls) agg_meths
    dataset_ls n_ens_vec = Raise (KeyError "agg").
Proof.
  intros Hdf Hempty.
  assert (Hnil : df = []).
  { apply (panel_rows_keys fs data_path m score_vec nn_vec agg_meths
             n_ens_vec dataset_ls df) in Hdf.
    apply (f_equal length) in Hdf. rewrite length_map in Hdf.
    assert (Hk : panel_keys dataset_ls score_vec nn_vec n_ens_vec agg_meths
                 = []).
    { unfold panel_keys.
      destruct Hempty as [-> | [-> | ->]]; [done | |].
      - by do 2 (apply flat_map_nil; intros).
      - by do 3 (apply flat_map_nil; intros). }
    rewrite Hk in Hdf. by destruct df. }
  unfold get_best_result_table. cbn [for_each]. unfold method_body.
  rewrite Hdf. simpl. by rewrite Hnil.
Qed.

Lemma agg_column_of_ens_result m rows rows' :
  existsb (fun c => str_in c (tb_columns (ens_result m rows)))
    (tb_columns (ens_result m rows')) = true.
Proof.
  apply existsb_exists. exists (m +:+ "_agg").
  assert (Hin : m +:+ "_agg" ∈ tb_columns (ens_result m rows)).
  { simpl. apply list_elem_of_In, filter_In. split.
    - apply list_elem_of_In. unfold data_keys. apply elem_of_remove_dups.
      set_solver.
    - apply negb_true_iff, String.eqb_neq, agg_key_ne_dataset. }
  split; [by apply list_elem_of_In | by apply str_in_elem].
Qed.

(** X9.  Every network other than "drn" is kept in [bqn_results]: when two
    networks of [nn_vec] that share a table both have all their scores,
    the second is joined to the table of the first under the same column
    names, and [get_best_result_table] raises [ValueError]. *)
Theorem get_best_result_table_shared_table nn1 nn2 nn_vec m ens_method_ls df :
  get_panel_data fs data_path dataset_ls score_vec (nn1 :: nn2 :: nn_vec)
    n_ens_vec agg_meths m = Ok df ->
  df ≠ [] ->
  (nn1 =? "drn") = (nn2 =? "drn") ->
  nan_free agg_meths df nn1 -> nan_free agg_meths df nn2 ->
  get_best_result_table fs data_path (nn1 :: nn2 :: nn_vec)
    (m :: ens_method_ls) agg_meths dataset_ls n_ens_vec
  = Raise (ValueError "columns overlap but no suffix specified").
Proof.
  intros Hdf Hne Hslot Hfree1 Hfree2.
  unfold get_best_result_table. cbn [for_each]. unfold method_body.
  rewrite Hdf. cbn [mbind result_bind].
  destruct (basic_filter agg_meths df) as [df'|e] eqn:Hdf';
    [|by destruct df].
  pose proof (nan_free_network_rows agg_meths df df' nn1 Hdf' Hfree1) as H1.
  pose proof (nan_free_network_rows agg_meths df df' nn2 Hdf' Hfree2) as H2.
  apply no_nan_present in H1, H2.
  cbn [nn_loop mbind result_bind]. rewrite H1.
  assert (Hnone : slot nn1 (mk_best_results None None) = None).
  { unfold slot. by destruct (nn1 =? "drn"). }
  rewrite Hnone. cbn [nn_loop mbind result_bind]. rewrite H2.
  rewrite slot_store_same by done.
  unfold join. by rewrite agg_column_of_ens_result.
Qed.

Lemma nn_loop_keeps_drn m df nns : forall res res',
  (forall nn, nn ∈ nns -> nn ≠ "drn") ->
  nn_loop m df nns res = Ok res' -> drn_results res' = drn_results res.
Proof.
  induction nns as [|nn nns IH]; intros res res' Hnn H; cbn [nn_loop] in H.
  - by injection H as <-.
  - destruct (existsb _ _); [by injection H as <-|].
    apply bind_Ok_inv in H as (temp & _ & H).
    rewrite (IH _ _ (fun x Hx => Hnn x (list_elem_of_further _ _ _ Hx)) H).
    unfold store.
    assert (Hne : (nn =? "drn") = false).
    { apply String.eqb_neq, Hnn, list_elem_of_here. }
    by rewrite Hne.
Qed.

Lemma nn_loop_keeps_bqn m df nns : forall res res',
  (forall nn, nn ∈ nns -> nn = "drn") ->
  nn_loop m df nns res = Ok res' -> bqn_results res' = bqn_results res.
Proof.
  induction nns as [|nn nns IH]; intros res res' Hnn H; cbn [nn_loop] in H.
  - by injection H as <-.
  - destruct (existsb _ _); [by injection H as <-|].
    apply bind_Ok_inv in H as (temp & _ & H).
    rewrite (IH _ _ (fun x Hx => Hnn x (list_elem_of_further _ _ _ Hx)) H).
    unfold store. by rewrite (Hnn nn (list_elem_of_here _ _)).
Qed.

Lemma method_loop_untouched nn_vec ms : forall res0 res,
  for_each ms res0
    (method_body fs data_path nn_vec agg_meths dataset_ls n_ens_vec) = Ok res ->
  ("drn" ∉ nn_vec -> drn_results res = drn_results res0) /\
  ((forall nn, nn ∈ nn_vec -> nn = "drn") ->
   bqn_results res = bqn_results res0).
Proof.
  induction ms as [|m ms IH]; intros res0 res H; cbn [for_each] in H.
  - by injection H as <-.
  - apply bind_Ok_inv in H as (res1 & H1 & H).
    destruct (IH res1 res H) as [IHd IHb].
    unfold method_body in H1.
    apply bind_Ok_inv in H1 as (df & _ & H1).
    apply bind_Ok_inv in H1 as (df' & _ & H1).
    split.
    + intros Hdrn. rewrite (IHd Hdrn).
      apply (nn_loop_keeps_drn m df' nn_vec); [|done].
      intros nn Hnn ->. by apply Hdrn.
    + intros Hall. rewrite (IHb Hall).
      by apply (nn_loop_keeps_bqn m df' nn_vec).
Qed.

(** X10.  The table of a kind of network that is not asked for stays
    [None]: [drn_results] when "drn" is not in [nn_vec], [bqn_results] when
    [nn_vec] has no other network than "drn". *)
Theorem get_best_result_table_untouched nn_vec ens_method_ls res :
  get_best_result_table fs data_path nn_vec ens_method_ls agg_meths
    dataset_ls n_ens_vec = Ok res ->
  ("drn" ∉ nn_vec -> drn_results res = None) /\
  ((forall nn, nn ∈ nn_vec -> nn = "drn") -> bqn_results res = None).
Proof.
  intros H. by apply method_loop_untouched in H.
Qed.

End BestEdges.

Lemma get_best_result_table_empty_panel_witness :
  best.get_best_result_table examples.energy_files "data/dataset" ["bqn"]
    ("rand_init" :: ["bagging"]) ["lp"; "vi"] [] [2; 4]
  = Raise (KeyError "agg").
Proof.
  apply (get_best_result_table_empty_panel examples.energy_files
           "data/dataset" ["lp"; "vi"] [] [2; 4] ["bqn"] "rand_init"
           ["bagging"] []).
  - reflexivity.
  - by left.
Defined.

Lemma get_best_result_table_shared_table_witness :
  best.get_best_result_table examples.energy_files "data/dataset"
    ("bqn" :: "bqn" :: []) ("rand_init" :: []) ["lp"; "vi"] ["energy"] [2; 4]
  = Raise (ValueError "columns overlap but no suffix specified").
Proof.
  apply (get_best_result_table_shared_table examples.energy_files
           "data/dataset" ["lp"; "vi"] ["energy"] [2; 4] "bqn" "bqn" []
           "rand_init" [] examples_more.energy_panel_twice).
  - vm_compute. reflexivity.
  - discriminate.
  - reflexivity.
  - apply nan_free_b_spec. vm_compute. reflexivity.
  - apply nan_free_b_spec. vm_compute. reflexivity.
Defined.

Lemma get_best_result_table_untouched_witness :
  ("drn" ∉ ["bqn"] ->
   best.drn_results examples_more.energy_tables_bqn = None) /\
  ((forall nn, nn ∈ ["bqn"] -> nn = "drn") ->
   best.bqn_results examples_more.energy_tables_bqn = None).
Proof.
  apply (get_best_result_table_untouched examples.energy_files "data/dataset"
           ["lp"; "vi"] ["energy"] [2; 4] ["bqn"] ["rand_init"]
           examples_more.energy_tables_bqn).
  vm_compute. reflexivity.
Defined.

(* ===================================================================== *)
(** ** BQNModels: the range of the quantiles, the loss, the ranks *)
(* ===================================================================== *)

Section BernsteinRange.
Import BQNModels.
Local Open Scope Q_scope.

(** The Bernstein basis sums to one. *)
Lemma bernstein_const n (a t : Q) : bernstein n (fun _ => a) t == a.
Proof.
  induction n as [|n IH].
  - unfold bernstein, binom_pmf. simpl. ring.
  - rewrite bernstein_step, IH. ring.
Qed.

Lemma bernstein_at_one n : forall c, bernstein n c 1 == c n.
Proof.
  induction n as [|n IH]; intros c.
  - unfold bernstein, binom_pmf. simpl. ring.
  - rewrite bernstein_step, (IH (fun k => c (S k))). ring.
Qed.

Lemma increasing_from_zero (c : nat -> Q) n :
  (forall k, (k < n)%nat -> c k <= c (S k)) ->
  forall k, (k <= n)%nat -> c O <= c k /\ c k <= c n.
Proof.
  intros Hc k Hk. split.
  - induction k as [|k IH]; [apply Qle_refl|].
    eapply Qle_trans; [apply IH; lia | apply Hc; lia].
  - induction n as [|n IH]; [replace k with O by lia; apply Qle_refl|].
    destruct (decide (k = S n)) as [-> | Hne]; [apply Qle_refl|].
    eapply Qle_trans; [apply IH; [intros j Hj; apply Hc|]; lia | apply Hc; lia].
Qed.

(** A Bernstein polynomial with increasing coefficients stays between
    its first and its last coefficient on the unit interval. *)
Lemma bernstein_range n c t :
  (forall k, (k < n)%nat -> c k <= c (S k)) -> 0 <= t -> t <= 1 ->
  c O <= bernstein n c t /\ bernstein n c t <= c n.
Proof.
  intros Hc H0 H1. split.
  - eapply Qle_trans; [apply Qle_lteq; right; symmetry;
                        apply (bernstein_const n (c O) t)|].
    apply bernstein_coeff_le; try done.
    intros k Hk. by apply (increasing_from_zero c n Hc).
  - eapply Qle_trans; [|apply Qle_lteq; right;
                         apply (bernstein_const n (c n) t)].
    apply bernstein_coeff_le; try done.
    intros k Hk. by apply (increasing_from_zero c n Hc).
Qed.

Lemma cumsum_from_last xs : forall acc,
  xs ≠ [] ->
  nth (length xs - 1) (cumsum_from acc xs) 0 == acc + sumQ xs.
Proof.
  induction xs as [|x xs IH]; intros acc Hne; [done|].
  destruct xs as [|y xs].
  - simpl. ring.
  - assert (Hl : y :: xs ≠ []) by done.
    remember (y :: xs) as l eqn:El.
    replace (length (x :: l) - 1)%nat with (S (length l - 1))
      by (rewrite El; simpl; lia).
    cbn [cumsum_from nth]. rewrite (IH (acc + x) Hl).
    change (sumQ (x :: l)) with (x + sumQ l). ring.
Qed.

(** One reconstructed quantile lies between the first coefficient and the
    sum of all coefficients. *)
Lemma quantile_range (coeff : list Q) (p : Q) :
  coeff ≠ [] -> increments_nonneg coeff -> 0 <= p -> p <= 1 ->
  hd 0 coeff <= dot (cumsum coeff) (basis_row (length (cumsum coeff) - 1) p)
  /\ dot (cumsum coeff) (basis_row (length (cumsum coeff) - 1) p)
     <= sumQ coeff.
Proof.
  intros Hne Hinc H0 H1.
  assert (Hc : cumsum coeff ≠ []) by (by destruct coeff).
  rewrite !dot_basis_row by done.
  destruct (bernstein_range (length (cumsum coeff) - 1)
              (fun k => nth k (cumsum coeff) 0) p) as [Hlo Hhi]; try done.
  { intros k Hk. unfold cumsum in *. rewrite cumsum_from_length in Hk.
    apply cumsum_from_increasing; [done | lia]. }
  split.
  - eapply Qle_trans; [|exact Hlo]. destruct coeff as [|a0 l]; [done|].
    unfold cumsum. simpl. lra.
  - eapply Qle_trans; [exact Hhi|]. unfold cumsum.
    rewrite cumsum_from_length, cumsum_from_last by done. lra.
Qed.

Lemma q_levels_loss_in_unit :
  Forall (fun p => 0 < p /\ p < 1) q_levels_loss.
Proof.
  apply Forall_forall. intros p [i Hi]%list_elem_of_lookup.
  assert (Hlt : (i < 99)%nat).
  { apply lookup_lt_Some in Hi. by vm_compute in Hi. }
  apply arange_lookup in Hi as ->.
  assert (H0 : 0 <= inject_Z (Z.of_nat i)).
  { rewrite <- (Zle_Qle 0). lia. }
  assert (H1 : inject_Z (Z.of_nat i) <= 98).
  { rewrite <- (Zle_Qle _ 98). lia. }
  assert (Hc : 1 / inject_Z (n_q + 1) == 1 # 100) by reflexivity.
  rewrite Hc. split; lra.
Qed.

(** X11.  Inside the loss function every quantile of a line lies between
    the first coefficient of the line and the sum of its coefficients, when
    the increments are not negative. *)
Theorem loss_quantiles_range (y_pred : list (list Q)) :
  Forall increments_nonneg y_pred ->
  Forall (fun coeff => length coeff = S p_degree) y_pred ->
  Forall2 (fun coeff qline =>
             Forall (fun q => hd 0 coeff <= q /\ q <= sumQ coeff) qline)
    y_pred (loss_quantiles y_pred).
Proof.
  intros Hinc Hlen. unfold loss_quantiles.
  induction y_pred as [|coeff y_pred IH]; [constructor|].
  apply Forall_cons in Hinc as [Hinc1 Hinc].
  apply Forall_cons in Hlen as [Hlen1 Hlen].
  cbn [List.map]. constructor; [|by apply IH].
  unfold B. rewrite List.map_map. apply Forall_forall.
  intros q (p & <- & Hp%list_elem_of_In)%list_elem_of_In%in_map_iff.
  pose proof q_levels_loss_in_unit as Hunit.
  rewrite Forall_forall in Hunit. destruct (Hunit p Hp) as [H0 H1].
  assert (Hdeg : p_degree = (length (cumsum coeff) - 1)%nat).
  { unfold cumsum. rewrite cumsum_from_length, Hlen1. lia. }
  rewrite Hdeg. apply quantile_range; try done; try lra.
  by destruct coeff.
Qed.

Lemma loss_quantiles_range_witness :
  Forall2 (fun coeff qline =>
             Forall (fun q => hd 0 coeff <= q /\ q <= sumQ coeff) qline)
    [[3; 1; 0; 2; 0; 0; 0; 0; 1; 0; 0; 0; 1 # 2]]
    (loss_quantiles [[3; 1; 0; 2; 0; 0; 0; 0; 1; 0; 0; 0; 1 # 2]]).
Proof.
  apply loss_quantiles_range.
  - repeat constructor; by vm_compute.
  - repeat constructor.
Defined.

End BernsteinRange.

Section QuantileLoss.
Import BQNModels BQN_loss.
Local Open Scope Q_scope.

Lemma qmax_term (e tau : Q) :
  0 < tau -> tau < 1 ->
  0 <= qmax (e * tau) (e * (tau - 1)) /\
  (qmax (e * tau) (e * (tau - 1)) == 0 <-> e == 0).
Proof.
  intros H0 H1. unfold qmax.
  destruct (Qle_bool (e * tau) (e * (tau - 1))) eqn:E.
  - apply Qle_bool_iff in E. split; [nra|]. split; intros H; nra.
  - assert (Hlt : e * (tau - 1) < e * tau).
    { apply Qnot_le_lt. intros Hle. apply Qle_bool_iff in Hle. congruence. }
    split; [nra|]. split; intros H; nra.
Qed.

(** The summands of the loss of one line. *)
Lemma loss_terms (y : Q) (q : list Q) : forall levels,
  Forall (fun tau => 0 < tau /\ tau < 1) levels ->
  (length q <= length levels)%nat ->
  let terms :=
    maximum (times (List.map (fun qj => y - qj) q) levels)
      (times (List.map (fun qj => y - qj) q)
         (List.map (fun tau => tau - 1) levels)) in
  length terms = length q /\ 0 <= sumQ terms /\
  (sumQ terms == 0 <-> Forall (fun qj => qj == y) q).
Proof.
  induction q as [|qj q IH]; intros levels Hlev Hlen.
  - simpl. split; [done|]. split; [apply Qle_refl|]. split; [constructor|done].
  - destruct levels as [|tau levels]; [simpl in Hlen; lia|].
    apply Forall_cons in Hlev as [[H0 H1] Hlev].
    destruct (IH levels Hlev) as (Hl & Hs & Hz); [simpl in Hlen; lia|].
    destruct (qmax_term (y - qj) tau H0 H1) as [Hm Hmz].
    cbn [List.map times maximum length].
    split; [by rewrite Hl|].
    change (sumQ (?a :: ?l)) with (a + sumQ l).
    split; [lra|]. rewrite Forall_cons. split.
    + intros Hsum. split; [|apply Hz; lra].
      assert (He : y - qj == 0) by (apply Hmz; lra). lra.
    + intros [Hq Hall]. apply Hz in Hall.
      assert (He : qmax ((y - qj) * tau) ((y - qj) * (tau - 1)) == 0)
        by (apply Hmz; lra).
      lra.
Qed.

Lemma mean_line_sign (xs : list Q) :
  0 <= sumQ xs ->
  0 <= mean_line xs /\ (xs ≠ [] -> mean_line xs == 0 <-> sumQ xs == 0).
Proof.
  intros Hs. unfold mean_line.
  destruct xs as [|x xs].
  - split; [by vm_compute|done].
  - assert (Hn : 0 < inject_Z (Z.of_nat (length (x :: xs)))).
    { rewrite <- (Zlt_Qlt 0). simpl. lia. }
    set (n := inject_Z (Z.of_nat (length (x :: xs)))) in *.
    split.
    + apply Qle_shift_div_l; [done|]. lra.
    + intros _. split; intros H.
      * assert (Hd : sumQ (x :: xs) == sumQ (x :: xs) / n * n)
          by (field; lra).
        rewrite Hd, H. ring.
      * rewrite H. field. lra.
Qed.

Lemma quantile_loss_sign (y : Q) (q : list Q) :
  (length q <= length q_levels_loss)%nat ->
  0 <= quantile_loss y q /\
  (quantile_loss y q == 0 <-> Forall (fun qj => qj == y) q).
Proof.
  intros Hlen. unfold quantile_loss.
  destruct (loss_terms y q q_levels_loss q_levels_loss_in_unit Hlen)
    as (Hl & Hs & Hz).
  cbv zeta in Hl, Hs, Hz.
  set (terms := maximum _ _) in *.
  destruct (mean_line_sign terms Hs) as [Hm Hmz].
  split; [done|].
  destruct q as [|qj q].
  - destruct terms; [|done]. split; [constructor|]. intros _. by vm_compute.
  - rewrite Hmz; [done|]. by destruct terms.
Qed.

Lemma lines_loss_lookup (y_true : list Q) : forall (q : list (list Q)) i y ql,
  y_true !! i = Some y -> q !! i = Some ql ->
  lines_loss y_true q !! i = Some (quantile_loss y ql).
Proof.
  induction y_true as [|y0 y_true IH]; intros q i y ql Hy Hq; [done|].
  destruct q as [|q0 q]; [done|].
  destruct i as [|i]; simpl in *; [congruence|]. by apply IH.
Qed.

(** X12.  The loss of an observation is never negative, and it is zero
    exactly when all quantiles that the loss function reconstructs for the
    line are equal to the observation. *)
Theorem qt_loss_zero_iff_exact (y_true : list Q) (y_pred : list (list Q))
    (i : nat) (y : Q) (qline : list Q) :
  y_true !! i = Some y ->
  loss_quantiles y_pred !! i = Some qline ->
  exists l, qt_loss y_true y_pred !! i = Some l /\ 0 <= l /\
            (l == 0 <-> Forall (fun q => q == y) qline).
Proof.
  intros Hy Hq. exists (quantile_loss y qline).
  split; [by apply lines_loss_lookup|].
  apply quantile_loss_sign.
  unfold loss_quantiles in Hq. rewrite list_lookup_fmap in Hq.
  destruct (y_pred !! i) as [coeff|]; [|done].
  injection Hq as <-.
  change (length (List.map (dot (cumsum coeff)) B) <= length q_levels_loss)%nat.
  unfold B. by rewrite !List.length_map.
Qed.

Lemma qt_loss_zero_iff_exact_witness :
  exists l,
    qt_loss [7 # 2] [[3; 1; 0; 0; 0; 0; 0; 0; 0; 0; 0; 0; 0]] !! O
      = Some l /\ 0 <= l /\
    (l == 0 <->
     Forall (fun q => q == 7 # 2)
       (List.map (dot (cumsum [3; 1; 0; 0; 0; 0; 0; 0; 0; 0; 0; 0; 0])) B)).
Proof.
  apply (qt_loss_zero_iff_exact [7 # 2]
           [[3; 1; 0; 0; 0; 0; 0; 0; 0; 0; 0; 0; 0]] O (7 # 2)).
  - reflexivity.
  - reflexivity.
Defined.

End QuantileLoss.

Section Ranks.
Import BQNModels.
Local Open Scope Q_scope.

(** Rounding up: the least integer that is not smaller. *)
Lemma Qceiling_spec (x : Q) (b : Z) :
  Qceiling x = b <-> inject_Z (b - 1) < x /\ x <= inject_Z b.
Proof.
  split.
  - intros <-. split; [apply Qceiling_lt | apply Qle_ceiling].
  - intros [Hlo Hhi].
    assert (H1 : (Qceiling x <= b)%Z).
    { rewrite <- (Qceiling_Z b). by apply Qceiling_resp_le. }
    assert (H2 : (b - 1 < Qceiling x)%Z).
    { rewrite Zlt_Qlt. eapply Qlt_le_trans; [exact Hlo | apply Qle_ceiling]. }
    lia.
Qed.

Lemma scaled_rank (n_ens k r : Z) :
  (0 < n_ens + 1)%Z -> (0 < k)%Z ->
  inject_Z r * inject_Z (n_ens + 1) / inject_Z (k * (n_ens + 1))
  == inject_Z r / inject_Z k.
Proof.
  intros Hn Hk. rewrite inject_Z_mult.
  assert (H1 : 0 < inject_Z (n_ens + 1)) by (rewrite <- (Zlt_Qlt 0); lia).
  assert (H2 : 0 < inject_Z k) by (rewrite <- (Zlt_Qlt 0); lia).
  field. split; lra.
Qed.

(** X13.  A rank between 1 and the number of quantiles plus one is
    transformed to a whole number between 1 and [n_ens + 1]. *)
Theorem transform_rank_range (n_ens : Z) (n_quantiles : nat) (r : Z) :
  (0 <= n_ens)%Z -> (1 <= r <= Z.of_nat n_quantiles + 1)%Z ->
  exists b : Z,
    transform_rank n_ens n_quantiles (inject_Z r) = inject_Z b /\
    (1 <= b <= n_ens + 1)%Z.
Proof.
  intros Hens [Hr1 Hr2]. unfold transform_rank.
  destruct (Z.eqb_spec (Z.of_nat n_quantiles) n_ens) as [E | _].
  - exists r. split; [done | lia].
  - eexists. split; [reflexivity|].
    set (x := inject_Z r * inject_Z (n_ens + 1)
              / inject_Z (Z.of_nat n_quantiles + 1)).
    assert (Hq : 0 < inject_Z (Z.of_nat n_quantiles + 1))
      by (rewrite <- (Zlt_Qlt 0); lia).
    assert (He : 0 < inject_Z (n_ens + 1)) by (rewrite <- (Zlt_Qlt 0); lia).
    assert (Hr : 1 <= inject_Z r) by (rewrite <- (Zle_Qle 1); lia).
    assert (Hr' : inject_Z r <= inject_Z (Z.of_nat n_quantiles + 1))
      by (rewrite <- Zle_Qle; lia).
    assert (Hpos : 0 < x).
    { unfold x. apply Qlt_shift_div_l; [done|]. nra. }
    assert (Hup : x <= inject_Z (n_ens + 1)).
    { unfold x. apply Qle_shift_div_r; [done|]. nra. }
    split.
    + assert (H : (0 < Qceiling x)%Z); [|lia].
      rewrite Zlt_Qlt. eapply Qlt_le_trans; [exact Hpos | apply Qle_ceiling].
    + rewrite <- (Qceiling_Z (n_ens + 1)). by apply Qceiling_resp_le.
Qed.

Lemma transform_rank_range_witness :
  exists b : Z,
    transform_rank 10 99 (inject_Z 37) = inject_Z b /\ (1 <= b <= 10 + 1)%Z.
Proof.
  apply (transform_rank_range 10 99 37); lia.
Defined.

(** X14.  When the number of quantiles plus one is [k] times [n_ens + 1],
    the ranks are binned exactly: bin [b] receives the [k] ranks
    [(b - 1) * k + 1 .. b * k]. *)
Theorem transform_rank_exact_bins (n_ens : Z) (n_quantiles : nat)
    (k r b : Z) :
  (0 < n_ens + 1)%Z -> (0 < k)%Z ->
  (Z.of_nat n_quantiles + 1 = k * (n_ens + 1))%Z ->
  transform_rank n_ens n_quantiles (inject_Z r) == inject_Z b
  <-> ((b - 1) * k < r <= b * k)%Z.
Proof.
  intros Hn Hk Hmul. unfold transform_rank.
  destruct (Z.eqb_spec (Z.of_nat n_quantiles) n_ens) as [E | _].
  - assert (k = 1)%Z as -> by nia.
    rewrite inject_Z_injective. lia.
  - rewrite Hmul, inject_Z_injective.
    assert (H2 : 0 < inject_Z k) by (rewrite <- (Zlt_Qlt 0); lia).
    rewrite Qceiling_spec, scaled_rank by done.
    assert (Hd : inject_Z r / inject_Z k * inject_Z k == inject_Z r)
      by (field; lra).
    set (d := inject_Z r / inject_Z k) in *.
    split.
    + intros [Hlo Hhi].
      assert (Hlo' : inject_Z ((b - 1) * k) < inject_Z r)
        by (rewrite inject_Z_mult; nra).
      assert (Hhi' : inject_Z r <= inject_Z (b * k))
        by (rewrite inject_Z_mult; nra).
      rewrite <- Zlt_Qlt in Hlo'. rewrite <- Zle_Qle in Hhi'. lia.
    + intros [Hlo Hhi].
      rewrite Zlt_Qlt, inject_Z_mult in Hlo.
      rewrite Zle_Qle, inject_Z_mult in Hhi.
      split; nra.
Qed.

Lemma transform_rank_exact_bins_witness :
  transform_rank 9 99 (inject_Z 31) == inject_Z 4
  <-> ((4 - 1) * 10 < 31 <= 4 * 10)%Z.
Proof.
  apply (transform_rank_exact_bins 9 99 10 31 4); [lia | lia | reflexivity].
Defined.

End Ranks.

Section TopQuantile.
Import BQNModels.
Local Open Scope Q_scope.

Lemma bernstein_level_ext n : forall c s t,
  s == t -> bernstein n c s == bernstein n c t.
Proof.
  induction n as [|n IH]; intros c s t Hst.
  - unfold bernstein, binom_pmf. simpl. ring.
  - rewrite !bernstein_step.
    rewrite (IH c s t Hst), (IH (fun k => c (S k)) s t Hst), Hst.
    reflexivity.
Qed.

Lemma last_map {A B} (f : A -> B) (l : list A) :
  last (List.map f l) = f <$> last l.
Proof. exact (fmap_last f l). Qed.

Lemma default_q_levels_last :
  exists p, last (init_q_levels None) = Some p /\ p == 1.
Proof. eexists. split; [by vm_compute | by vm_compute]. Qed.

Lemma nth_cumsum_last (coeff : list Q) :
  coeff ≠ [] ->
  nth (length (cumsum coeff) - 1) (cumsum coeff) 0 == sumQ coeff.
Proof.
  intros Hne. unfold cumsum. rewrite cumsum_from_length.
  rewrite cumsum_from_last by done. ring.
Qed.

(** X15.  With the default quantile levels the last quantile of every
    forecast is the sum of all its coefficients: the level 1.0 is the
    upper end of the forecast distribution. *)
Theorem get_results_top_quantile (coeff_bern : list (list Q)) :
  Forall2 (fun coeff qline =>
             exists q, last qline = Some q /\ q == sumQ coeff)
    coeff_bern (get_results_f coeff_bern (init_q_levels None)).
Proof.
  unfold get_results_f, get_results_alpha, bern_quants.
  induction coeff_bern as [|coeff l IH]; [constructor|].
  cbn [List.map]. constructor; [|exact IH].
  destruct default_q_levels_last as (p & Hlast & Hp).
  exists (dot (cumsum coeff) (basis_row (length (cumsum coeff) - 1) p)).
  split.
  - by rewrite last_map, Hlast.
  - destruct coeff as [|a0 coeff]; [by vm_compute|].
    rewrite dot_basis_row by done.
    rewrite (bernstein_level_ext _ _ p 1 Hp), bernstein_at_one.
    by apply nth_cumsum_last.
Qed.

End TopQuantile.

(* ===================================================================== *)
(** ** run_ensemble: the members and their files *)
(* ===================================================================== *)

Section EnsembleFiles.
Import ss_1_ensemble ensemble_files.

Context {dataset prediction rng_state : Type}.
Variable seed_state : Z -> rng_state.
Variable fn_nn_ss : string -> option (pp_fn dataset prediction rng_state).
Variable transform_ranks_to_pit : prediction -> prediction.
Variable cpu_count : Z.

Local Abbreviation world := (world dataset prediction rng_state).
Local Abbreviation io := (io dataset prediction rng_state).
Local Abbreviation event := (event prediction rng_state).

Lemma dumped_app (a b : list event) : dumped (a ++ b) = dumped a ++ dumped b.
Proof. apply omap_app. Qed.

Lemma fitted_app (a b : list event) : fitted (a ++ b) = fitted a ++ fitted b.
Proof. apply omap_app. Qed.

Lemma members_cons (n_ens : Z) (temp_nn : string) (nn_vec : list string) :
  members n_ens (temp_nn :: nn_vec) =
  members n_ens [temp_nn] ++ members n_ens nn_vec.
Proof. unfold members. cbn [flat_map]. by rewrite app_nil_r. Qed.

(** A loop that goes through adds what its rounds add, in order. *)
Lemma for_io_ok {A X} (proj : list event -> list X) (f : A -> list X)
    (xs : list A) (body : A -> io unit) :
  proj [] = [] -> (forall a b, proj (a ++ b) = proj a ++ proj b) ->
  (forall (x : A) (w : world), x ∈ xs -> snd (body x w) = Ok tt ->
     exists evs, trace (fst (body x w)) = trace w ++ evs /\ proj evs = f x) ->
  forall w, snd (for_io xs body w) = Ok tt ->
    exists evs, trace (fst (for_io xs body w)) = trace w ++ evs /\
                proj evs = flat_map f xs.
Proof.
  intros Hnil Happ. induction xs as [|x xs IH]; intros Hbody w Hok.
  - exists []. by rewrite app_nil_r.
  - cbn [for_io] in *. rewrite io_bind_eq in *.
    pose proof (Hbody x w (list_elem_of_here _ _)) as H1.
    destruct (body x w) as [w1 [[]|e]]; simpl in *; [|done].
    destruct (H1 eq_refl) as (evs1 & Ht1 & Hp1).
    destruct (IH (fun y w' Hy => Hbody y w' (list_elem_of_further _ _ _ Hy))
                w1 Hok) as (evs2 & Ht2 & Hp2).
    exists (evs1 ++ evs2). by rewrite Ht2, Ht1, app_assoc, Happ, Hp1, Hp2.
Qed.

Lemma member_body_ok fn_pp temp_nn i_scenario i_sim n_ens d i_valid
    num_cores data_out_path i_ens (w : world) :
  snd (member_body transform_ranks_to_pit fn_pp temp_nn i_scenario i_sim
         n_ens d i_valid num_cores data_out_path i_ens w) = Ok tt ->
  exists evs,
    trace (fst (member_body transform_ranks_to_pit fn_pp temp_nn i_scenario
                  i_sim n_ens d i_valid num_cores data_out_path i_ens w))
    = trace w ++ evs /\
    (fun evs => (fitted evs, dumped evs)) evs =
    ([(temp_nn, i_ens)],
     [member_path data_out_path i_scenario i_sim (temp_nn, i_ens)]).
Proof.
  unfold member_body. rewrite io_bind_eq. unfold call_pp.
  destruct (fn_pp d i_valid n_ens num_cores (rng w)) as [[p st]|e]; simpl;
    [|done].
  intros _. eexists [_; _]. rewrite <- app_assoc. split; reflexivity.
Qed.

(** The events of a network variant that goes through. *)
Lemma variant_body_ok i_scenario i_sim n_ens d i_valid num_cores
    data_out_path temp_nn (w : world) :
  snd (variant_body seed_state fn_nn_ss transform_ranks_to_pit i_scenario
         i_sim n_ens d i_valid num_cores data_out_path temp_nn w) = Ok tt ->
  exists evs,
    trace (fst (variant_body seed_state fn_nn_ss transform_ranks_to_pit
                  i_scenario i_sim n_ens d i_valid num_cores data_out_path
                  temp_nn w)) = trace w ++ evs /\
    fitted evs = members n_ens [temp_nn] /\
    dumped evs =
    List.map (member_path data_out_path i_scenario i_sim)
      (members n_ens [temp_nn]).
Proof.
  unfold variant_body. rewrite io_bind_eq. unfold get_pp.
  destruct (fn_nn_ss _) as [fn_pp|]; simpl; [|done].
  rewrite io_bind_eq. unfold np_random_seed.
  destruct (_ && _); simpl; [|done].
  intros Hok.
  set (body := member_body transform_ranks_to_pit fn_pp temp_nn i_scenario
                 i_sim n_ens d i_valid num_cores data_out_path) in *.
  match type of Hok with
  | snd (for_io _ _ ?w1) = _ =>
      destruct (for_io_ok (fun evs => fitted evs) (fun i => [(temp_nn, i)])
                  (seq 0 (Z.to_nat n_ens)) body) with (w := w1)
        as (evs & Ht & Hf); try done;
      [ apply fitted_app
      | intros i w' _ Hi;
        destruct (member_body_ok fn_pp temp_nn i_scenario i_sim n_ens d
                    i_valid num_cores data_out_path i w' Hi)
          as (evs & Ht & [= Hf _]); by exists evs
      | destruct (for_io_ok (fun evs => dumped evs)
                    (fun i => [member_path data_out_path i_scenario i_sim
                                 (temp_nn, i)])
                    (seq 0 (Z.to_nat n_ens)) body) with (w := w1)
          as (evs' & Ht' & Hd); try done;
        [ apply dumped_app
        | intros i w' _ Hi;
          destruct (member_body_ok fn_pp temp_nn i_scenario i_sim n_ens d
                      i_valid num_cores data_out_path i w' Hi)
            as (evs' & Ht' & [= _ Hd]); by exists evs'
        | ] ]
  end.
  simpl in *. rewrite Ht in Ht'. apply app_inv_head in Ht' as <-.
  exists (Seeded (123 + 10 * i_scenario + 100 * i_sim) :: evs).
  rewrite Ht, <- app_assoc. split; [done|].
  change (Seeded ?s :: evs) with ([@Seeded prediction rng_state s] ++ evs).
  rewrite fitted_app, dumped_app, Hf, Hd. unfold members. simpl.
  rewrite !app_nil_r. clear.
  induction (seq 0 (Z.to_nat n_ens)) as [|i l [IH1 IH2]]; [done|].
  simpl. split; by f_equal.
Qed.

(** X16.  A run that goes through fits, network after network, the members
    [0 .. n_ens - 1] and writes each of them to its own file
    [{temp_nn}_scen_{i_scenario}_sim_{i_sim}_ens_{i_ens}.pkl] in
    [data_out_path]: [n_ens] files for each network, in this order, and
    nothing else. *)
Theorem run_ensemble_members (i_scenario i_sim n_ens : Z)
    (nn_vec : list string) (data_in_path data_out_path : string) (w : world) :
  let run := run_ensemble seed_state fn_nn_ss transform_ranks_to_pit
               cpu_count i_scenario i_sim n_ens nn_vec data_in_path
               data_out_path in
  snd (run w) = Ok tt ->
  fitted (events_of run w) = members n_ens nn_vec /\
  dumped (events_of run w) =
  List.map (member_path data_out_path i_scenario i_sim)
    (members n_ens nn_vec).
Proof.
  intros run. unfold run, events_of, run_ensemble.
  rewrite io_bind_eq. unfold pickle_load.
  destruct (files w _) as [d|]; simpl; [|done].
  generalize (if (i_scenario =? 6)%Z then seqZ 2500 (3000 - 2500)
              else seqZ 5000 (6000 - 5000)).
  generalize (inject_Z cpu_count / 2 - 1)%Q. intros num_cores i_valid Hok.
  set (body := variant_body seed_state fn_nn_ss transform_ranks_to_pit
                 i_scenario i_sim n_ens d i_valid num_cores data_out_path)
    in *.
  destruct (for_io_ok (fun evs => fitted evs)
              (fun temp_nn => members n_ens [temp_nn]) nn_vec body)
    with (w := w) as (evs & Ht & Hf); try done.
  { apply fitted_app. }
  { intros nn w' _ Hnn.
    destruct (variant_body_ok i_scenario i_sim n_ens d i_valid num_cores
                data_out_path nn w' Hnn) as (evs & Ht & Hf & _).
    by exists evs. }
  destruct (for_io_ok (fun evs => dumped evs)
              (fun temp_nn =>
                 List.map (member_path data_out_path i_scenario i_sim)
                   (members n_ens [temp_nn])) nn_vec body)
    with (w := w) as (evs' & Ht' & Hd); try done.
  { apply dumped_app. }
  { intros nn w' _ Hnn.
    destruct (variant_body_ok i_scenario i_sim n_ens d i_valid num_cores
                data_out_path nn w' Hnn) as (evs' & Ht' & _ & Hd).
    by exists evs'. }
  rewrite Ht in Ht'. apply app_inv_head in Ht' as <-.
  rewrite Ht, drop_app_length, Hf, Hd. clear.
  split.
  - induction nn_vec as [|nn l IH]; [done|]. cbn [flat_map].
    by rewrite IH, <- members_cons.
  - induction nn_vec as [|nn l IH]; [done|]. cbn [flat_map].
    by rewrite IH, <- List.map_app, <- members_cons.
Qed.

Lemma for_io_app {A} (xs ys : list A) (body : A -> io unit) (w : world) :
  for_io (xs ++ ys) body w =
  match for_io xs body w with
  | (w', Ok _) => for_io ys body w'
  | (w', Raise e) => (w', Raise e)
  end.
Proof.
  revert w. induction xs as [|x xs IH]; intros w; [done|].
  cbn [app for_io]. rewrite !io_bind_eq.
  destruct (body x w) as [w1 [[]|e]]; [apply IH | done].
Qed.

(** X17.  A network without a function [{temp_nn}_pp] in [fn_nn_ss] stops
    the run with an [AttributeError] when its turn comes: the networks
    before it are done, no seed is set for it, and nothing of it or of the
    networks after it is fitted or written. *)
Theorem run_ensemble_unknown_network (i_scenario i_sim n_ens : Z)
    (pre post : list string) (temp_nn : string)
    (data_in_path data_out_path : string) (w : world) :
  let run nn_vec := run_ensemble seed_state fn_nn_ss transform_ranks_to_pit
                      cpu_count i_scenario i_sim n_ens nn_vec data_in_path
                      data_out_path in
  fn_nn_ss (temp_nn +:+ "_pp") = None ->
  snd (run pre w) = Ok tt ->
  run (pre ++ temp_nn :: post) w =
  (fst (run pre w), Raise (AttributeError (temp_nn +:+ "_pp"))).
Proof.
  intros run Hnone. unfold run, run_ensemble.
  rewrite !io_bind_eq. unfold pickle_load.
  destruct (files w _) as [d|]; simpl; [|done].
  rewrite for_io_app.
  destruct (for_io pre _ w) as [w1 [[]|e]]; simpl; [|done].
  intros _. cbn [for_io]. rewrite io_bind_eq.
  unfold variant_body at 1. rewrite io_bind_eq. unfold get_pp.
  by rewrite Hnone.
Qed.

End EnsembleFiles.

Lemma run_ensemble_members_witness :
  ensemble_files.fitted
    (ss_1_ensemble.events_of (examples.toy_run 2 ["drn"; "bqn"])
       examples.toy_world)
  = [("drn", 0%nat); ("drn", 1%nat); ("bqn", 0%nat); ("bqn", 1%nat)] /\
  ensemble_files.dumped
    (ss_1_ensemble.events_of (examples.toy_run 2 ["drn"; "bqn"])
       examples.toy_world)
  = ["data/model/drn_scen_1_sim_1_ens_0.pkl";
     "data/model/drn_scen_1_sim_1_ens_1.pkl";
     "data/model/bqn_scen_1_sim_1_ens_0.pkl";
     "data/model/bqn_scen_1_sim_1_ens_1.pkl"].
Proof.
  apply (run_ensemble_members (fun seed => seed) examples.toy_fn_nn_ss
           (fun p => p) 8 1 1 2 ["drn"; "bqn"] "data/ss_data" "data/model"
           examples.toy_world).
  vm_compute. reflexivity.
Defined.

Lemma run_ensemble_unknown_network_witness :
  examples.toy_run 2 (["drn"] ++ "hen" :: ["bqn"]) examples.toy_world =
  (fst (examples.toy_run 2 ["drn"] examples.toy_world),
   Raise (AttributeError ("hen" +:+ "_pp"))).
Proof.
  apply (run_ensemble_unknown_network (fun seed => seed)
           examples.toy_fn_nn_ss (fun p => p) 8 1 1 2 ["drn"] ["bqn"] "hen"
           "data/ss_data" "data/model" examples.toy_world).
  - vm_compute. reflexivity.
  - vm_compute. reflexivity.
Defined.

Section MemberFiles.
Import ss_1_ensemble ensemble_files.

Lemma string_length_app (s t : string) :
  String.length (s +:+ t) = (String.length s + String.length t)%nat.
Proof. induction s as [|a s IH]; simpl; [done|]. by rewrite IH. Qed.

Lemma string_app_inj_r (t s1 s2 : string) : s1 +:+ t = s2 +:+ t -> s1 = s2.
Proof.
  revert s2. induction s1 as [|a s1 IH]; intros [|b s2] H.
  - done.
  - apply (f_equal String.length) in H.
    rewrite !string_length_app in H. simpl in H. lia.
  - apply (f_equal String.length) in H.
    rewrite !string_length_app in H. simpl in H. lia.
  - simpl in H. injection H as -> H. f_equal. by apply IH.
Qed.

Lemma member_file_inj (temp_nn : string) (i_scenario i_sim : Z) (i j : nat) :
  member_file temp_nn i_scenario i_sim i =
  member_file temp_nn i_scenario i_sim j -> i = j.
Proof.
  unfold member_file. intros H.
  do 6 (apply String.app_inj in H).
  apply string_app_inj_r in H. by apply pretty_nat_inj in H.
Qed.

Lemma path_join_inj (a b1 b2 : string) :
  path_join a b1 = path_join a b2 -> b1 = b2.
Proof.
  unfold path_join. destruct (String.eqb a ""); [done|].
  destruct (String.eqb _ "/"); intros H.
  - by apply String.app_inj in H.
  - by do 2 (apply String.app_inj in H).
Qed.

(** X18.  The members of the ensemble of one network are written to
    pairwise different files: no member overwrites another one. *)
Theorem member_paths_of_network_differ (data_out_path : string)
    (i_scenario i_sim n_ens : Z) (temp_nn : string) :
  NoDup (List.map (member_path data_out_path i_scenario i_sim)
           (members n_ens [temp_nn])).
Proof.
  unfold members. cbn [flat_map]. rewrite app_nil_r, List.map_map.
  apply (NoDup_fmap_2_strong
           (fun i => member_path data_out_path i_scenario i_sim (temp_nn, i))).
  - intros i j _ _ H. unfold member_path in H. simpl in H.
    by apply path_join_inj, member_file_inj in H.
  - apply NoDup_ListNoDup, List.seq_NoDup.
Qed.

End MemberFiles.

(* ===================================================================== *)
(** ** get_skills_table *)
(* ===================================================================== *)

Section SkillsLoops.
Import results skills.

Lemma for_out_collect {A R} (xs : list A) (g : A -> outcome (list R))
    (body : A -> list R -> outcome (list R)) :
  (forall x acc, body x acc =
     match g x with Done new => Done (acc ++ new) | Failed e => Failed e end) ->
  forall acc, for_out xs acc body =
    match collect_out xs g with
    | Done new => Done (acc ++ new)
    | Failed e => Failed e
    end.
Proof.
  intros Hbody. induction xs as [|x xs IH]; intros acc; simpl.
  - by rewrite app_nil_r.
  - rewrite Hbody. destruct (g x) as [new|e]; [|done].
    rewrite IH. destruct (collect_out xs g) as [rest|e]; [|done].
    by rewrite app_assoc.
Qed.

Lemma collect_out_elem {A R} (xs : list A) (g : A -> outcome (list R)) rs
    (r : R) :
  collect_out xs g = Done rs ->
  r ∈ rs <-> exists x new, x ∈ xs /\ g x = Done new /\ r ∈ new.
Proof.
  revert rs. induction xs as [|x xs IH]; simpl; intros rs H.
  - injection H as <-. split.
    + intros Hr. by apply elem_of_nil in Hr.
    + intros (x & new & Hx & _). by apply elem_of_nil in Hx.
  - destruct (g x) as [new|e] eqn:Hg; [|done].
    destruct (collect_out xs g) as [rest|e]; [|done]. injection H as <-.
    rewrite elem_of_app, (IH rest eq_refl). split.
    + intros [Hr | (y & new' & Hy & Hgy & Hr)].
      * exists x, new. split; [apply list_elem_of_here | done].
      * exists y, new'. split; [by apply list_elem_of_further | done].
    + intros (y & new' & Hy & Hgy & Hr).
      apply elem_of_cons in Hy as [-> | Hy].
      * left. congruence.
      * right. eauto.
Qed.

Lemma collect_out_each {A R} (xs : list A) (g : A -> outcome (list R)) rs x :
  collect_out xs g = Done rs -> x ∈ xs -> exists new, g x = Done new.
Proof.
  revert rs. induction xs as [|y xs IH]; simpl; intros rs H Hx.
  - by apply elem_of_nil in Hx.
  - destruct (g y) as [new|e] eqn:Hg; [|done].
    destruct (collect_out xs g) as [rest|e]; [|done].
    apply elem_of_cons in Hx as [-> | Hx]; eauto.
Qed.

Variable fs : file_system.
Variable data_path : string.
Variables (dataset_ls score_vec nn_vec agg_meths : list string).
Variable n_ens_vec : list Z.

Lemma agg_body_line ens_method df dataset nn agg acc :
  agg_body ens_method n_ens_vec (network_frame df dataset nn) agg acc =
  match agg_line ens_method n_ens_vec df dataset nn agg with
  | Done new => Done (acc ++ new)
  | Failed e => Failed e
  end.
Proof.
  unfold agg_line, agg_body.
  by destruct (agg_frame (network_frame df dataset nn) agg).
Qed.

Lemma method_body_lines ens_method acc :
  method_body fs data_path dataset_ls score_vec nn_vec n_ens_vec agg_meths
    ens_method acc =
  match method_lines fs data_path dataset_ls score_vec nn_vec n_ens_vec
          agg_meths ens_method with
  | Done new => Done (acc ++ new)
  | Failed e => Failed e
  end.
Proof.
  unfold method_body, method_lines.
  destruct (get_panel_data _ _ _ _ _ _ _ _) as [[|r df]|e]; [done| |done].
  apply for_out_collect. intros dataset acc1.
  apply for_out_collect. intros nn acc2.
  apply for_out_collect. intros agg acc3. apply agg_body_line.
Qed.

(** [get_skills_table] returns the lines of its loops, in loop order. *)
Lemma get_skills_table_lines ens_method_ls :
  get_skills_table fs data_path dataset_ls score_vec nn_vec n_ens_vec
    agg_meths ens_method_ls =
  collect_out ens_method_ls
    (method_lines fs data_path dataset_ls score_vec nn_vec n_ens_vec
       agg_meths).
Proof.
  unfold get_skills_table.
  rewrite (for_out_collect _ _ _ method_body_lines).
  by destruct (collect_out _ _).
Qed.

(** Where a line of the table comes from. *)
Lemma skills_line_origin ens_method_ls tbl row :
  get_skills_table fs data_path dataset_ls score_vec nn_vec n_ens_vec
    agg_meths ens_method_ls = Done tbl ->
  row ∈ tbl ->
  exists m df dataset nn agg r0 rest,
    m ∈ ens_method_ls /\
    get_panel_data fs data_path dataset_ls score_vec nn_vec n_ens_vec
      agg_meths m = Ok df /\
    agg ∈ agg_meths /\
    agg_frame (network_frame df dataset nn) agg = r0 :: rest /\
    row = mk_skills_row m (results.dataset r0) (results.nn r0)
            (results.agg r0)
            (dict_skills n_ens_vec (skills_of (r0 :: rest)))
            (np_mean (skills_of (r0 :: rest))).
Proof.
  rewrite get_skills_table_lines. intros Htbl Hrow.
  apply (collect_out_elem _ _ _ row) in Htbl.
  apply Htbl in Hrow as (m & new & Hm & Hnew & Hrow). clear Htbl.
  unfold method_lines in Hnew.
  destruct (get_panel_data _ _ _ _ _ _ _ m) as [df|e] eqn:Hdf; [|done].
  destruct df as [|r df]; [done|].
  apply (collect_out_elem _ _ _ row) in Hnew.
  apply Hnew in Hrow as (d & new1 & _ & Hnew1 & Hrow). clear Hnew.
  apply (collect_out_elem _ _ _ row) in Hnew1.
  apply Hnew1 in Hrow as (t & new2 & _ & Hnew2 & Hrow). clear Hnew1.
  apply (collect_out_elem _ _ _ row) in Hnew2.
  apply Hnew2 in Hrow as (g & new3 & Hg & Hnew3 & Hrow). clear Hnew2.
  unfold agg_line, agg_body in Hnew3.
  destruct (agg_frame (network_frame (r :: df) d t) g) as [|r0 rest] eqn:Hfr;
    [done|].
  injection Hnew3 as <-. apply list_elem_of_singleton in Hrow.
  exists m, (r :: df), d, t, g, r0, rest. by rewrite Hfr.
Qed.

End SkillsLoops.

Section SkillsEdges.
Import results skills panel_shape.

Variable fs : file_system.
Variable data_path : string.
Variables (dataset_ls score_vec nn_vec agg_meths : list string).
Variable n_ens_vec : list Z.

(** X19.  A panel without lines has no column "dataset": with no dataset,
    no score, no network or no ensemble size to go through,
    [get_skills_table] raises [KeyError] for the first ensemble method whose
    files are there. *)
Theorem get_skills_table_empty_panel m ens_method_ls df :
  get_panel_data fs data_path dataset_ls score_vec nn_vec n_ens_vec agg_meths
    m = Ok df ->
  dataset_ls = [] \/ score_vec = [] \/ nn_vec = [] \/ n_ens_vec = [] ->
  get_skills_table fs data_path dataset_ls score_vec nn_vec n_ens_vec
    agg_meths (m :: ens_method_ls) = Failed (Exn (KeyError "dataset")).
Proof.
  intros Hdf Hempty.
  assert (Hnil : df = []).
  { apply (panel_rows_keys fs data_path m score_vec nn_vec agg_meths
             n_ens_vec dataset_ls df) in Hdf.
    apply (f_equal length) in Hdf. rewrite length_map in Hdf.
    assert (Hk : panel_keys dataset_ls score_vec nn_vec n_ens_vec agg_meths
                 = []).
    { unfold panel_keys.
      destruct Hempty as [-> | [-> | [-> | ->]]]; [done | | |].
      - by apply flat_map_nil; intros.
      - by do 2 (apply flat_map_nil; intros).
      - by do 3 (apply flat_map_nil; intros). }
    rewrite Hk in Hdf. by destruct df. }
  unfold get_skills_table. cbn [for_out]. unfold method_body.
  by rewrite Hdf, Hnil.
Qed.

Lemma filter_none {A} (P : A -> bool) (l : list A) :
  (forall x, x ∈ l -> P x = false) -> List.filter P l = [].
Proof.
  induction l as [|x l IH]; intros H; [done|]. simpl.
  rewrite (H x) by apply list_elem_of_here.
  apply IH. intros y Hy. apply H. by apply list_elem_of_further.
Qed.

(** X20.  Without "crpss" among the scores the table holds no skill at
    all: no line has a column [skill_{n_ens}], and [avg_skill], the mean of
    an empty list, is NaN in every line. *)
Theorem get_skills_table_without_crpss ens_method_ls tbl row :
  "crpss" ∉ score_vec ->
  get_skills_table fs data_path dataset_ls score_vec nn_vec n_ens_vec
    agg_meths ens_method_ls = Done tbl ->
  row ∈ tbl ->
  sk_skills row = ∅ /\ avg_skill row = NaN.
Proof.
  intros Hno Htbl Hrow.
  destruct (skills_line_origin fs data_path dataset_ls score_vec nn_vec
              agg_meths n_ens_vec ens_method_ls tbl row Htbl Hrow)
    as (m & df & d & t & g & r0 & rest & Hm & Hdf & Hg & Hfr & ->).
  assert (Hs : skills_of (r0 :: rest) = []).
  { unfold skills_of. rewrite filter_none; [done|].
    intros r Hr. rewrite <- Hfr in Hr.
    unfold agg_frame, network_frame in Hr.
    apply list_elem_of_In, filter_In in Hr as [Hr _].
    apply filter_In in Hr as [Hr%list_elem_of_In _].
    apply (get_panel_data_elem fs data_path m dataset_ls score_vec nn_vec
             agg_meths n_ens_vec df r Hdf) in Hr
      as (_ & _ & _ & _ & Hmetric & _).
    apply String.eqb_neq. intros E. by rewrite E in Hmetric. }
  simpl. rewrite Hs. split; [|by vm_compute].
  unfold dict_skills. by rewrite zip_with_nil_r.
Qed.

Lemma fsum_from_nan (xs : list float) : fsum_from NaN xs = NaN.
Proof. induction xs as [|x xs IH]; [done|]. exact IH. Qed.

Lemma fsum_from_has_nan (xs : list float) : forall acc,
  NaN ∈ xs -> fsum_from acc xs = NaN.
Proof.
  induction xs as [|x xs IH]; intros acc Hin.
  - by apply elem_of_nil in Hin.
  - apply elem_of_cons in Hin as [<- | Hin]; simpl.
    + replace (fadd acc NaN) with NaN by (by destruct acc).
      apply fsum_from_nan.
    + by apply IH.
Qed.

Lemma foldl_skills_lookup (l : list (Z * float)) :
  forall (d : gmap string float) (k : string) (v : float),
  foldl (fun d p => <[skill_key p.1 := p.2]> d) d l !! k = Some v ->
  d !! k = Some v \/ v ∈ l.*2.
Proof.
  induction l as [|[n s] l IH]; intros d k v H; simpl in *; [by left|].
  apply IH in H as [H | H].
  - destruct (decide (skill_key n = k)) as [<- | Hne].
    + rewrite lookup_insert_eq in H. injection H as ->.
      right. apply list_elem_of_here.
    + rewrite lookup_insert_ne in H by done. by left.
  - right. by apply list_elem_of_further.
Qed.

Lemma dict_skills_value ns skills k v :
  dict_skills ns skills !! k = Some v -> v ∈ skills.
Proof.
  unfold dict_skills. intros [H | H]%foldl_skills_lookup; [done|].
  apply list_elem_of_fmap in H as ([n s] & -> & H). simpl.
  by apply elem_of_zip_r in H.
Qed.

(** X21.  [avg_skill] is the plain mean of the skills: one skill that is
    NaN makes the average of its line NaN. *)
Theorem avg_skill_nan ens_method_ls tbl row k :
  get_skills_table fs data_path dataset_ls score_vec nn_vec n_ens_vec
    agg_meths ens_method_ls = Done tbl ->
  row ∈ tbl ->
  sk_skills row !! k = Some NaN ->
  avg_skill row = NaN.
Proof.
  intros Htbl Hrow Hk.
  destruct (skills_line_origin fs data_path dataset_ls score_vec nn_vec
              agg_meths n_ens_vec ens_method_ls tbl row Htbl Hrow)
    as (m & df & d & t & g & r0 & rest & Hm & Hdf & Hg & Hfr & ->).
  simpl in *. apply dict_skills_value in Hk.
  unfold np_mean, fsum. by rewrite (fsum_from_has_nan _ _ Hk).
Qed.

End SkillsEdges.

Section SkillsPairing.
Import results skills panel_shape.

Lemma filter_filter_and {A} (P Q : A -> bool) (l : list A) :
  List.filter P (List.filter Q l) = List.filter (fun x => P x && Q x) l.
Proof.
  induction l as [|x l IH]; [done|]. simpl.
  destruct (Q x); simpl; rewrite ?andb_true_r, ?andb_false_r.
  - destruct (P x); by rewrite IH.
  - exact IH.
Qed.

Lemma filter_map_key {A K} (key : A -> K) (P : K -> bool) (l : list A) :
  List.map key (List.filter (fun x => P (key x)) l) =
  List.filter P (List.map key l).
Proof.
  induction l as [|x l IH]; [done|]. simpl.
  destruct (P (key x)); simpl; by rewrite IH.
Qed.

Lemma filter_flat_map {A B} (P : B -> bool) (f : A -> list B) (l : list A) :
  List.filter P (flat_map f l) = flat_map (fun x => List.filter P (f x)) l.
Proof.
  induction l as [|x l IH]; [done|]. simpl. by rewrite List.filter_app, IH.
Qed.

Lemma flat_map_nil_in {A B} (f : A -> list B) (l : list A) :
  (forall x, x ∈ l -> f x = []) -> flat_map f l = [].
Proof.
  induction l as [|x l IH]; intros H; [done|]. simpl.
  rewrite (H x) by apply list_elem_of_here.
  apply IH. intros y Hy. apply H. by apply list_elem_of_further.
Qed.

Lemma flat_map_select {B} (l : list string) (x0 : string) (M : list B) :
  NoDup l -> x0 ∈ l ->
  flat_map (fun x => if x =? x0 then M else []) l = M.
Proof.
  induction l as [|x l IH]; intros Hnd Hin; [by apply elem_of_nil in Hin|].
  apply NoDup_cons in Hnd as [Hx Hnd]. simpl.
  destruct (String.eqb_spec x x0) as [-> | Hne].
  - rewrite flat_map_nil_in; [apply app_nil_r|].
    intros y Hy. by destruct (String.eqb_spec y x0) as [-> | _].
  - apply elem_of_cons in Hin as [-> | Hin]; [done|]. by apply IH.
Qed.

End SkillsPairing.

Section SkillsPairingMain.
Import results skills panel_shape.

Variable fs : file_system.
Variable data_path : string.
Variables (dataset_ls score_vec nn_vec agg_meths : list string).
Variable n_ens_vec : list Z.

Lemma skills_of_keys (df : list panel_row) (d t g : string) :
  skills_of (agg_frame (network_frame df d t) g) =
  List.map score
    (List.filter (fun r => crpss_key d t g (panel_key r)) df).
Proof.
  unfold skills_of, agg_frame, network_frame.
  rewrite !filter_filter_and. f_equal. apply List.filter_ext.
  intros r. unfold crpss_key, panel_key. by rewrite <- andb_assoc.
Qed.

Lemma filter_map_swap' {A B} (P : B -> bool) (h : A -> B) (l : list A) :
  List.filter P (List.map h l) = List.map h (List.filter (fun x => P (h x)) l).
Proof. symmetry. apply filter_map_key. Qed.

Lemma filter_single (P : string -> bool) (l : list string) (x0 : string) :
  NoDup l -> x0 ∈ l -> P x0 = true ->
  (forall x, x ∈ l -> P x = true -> x = x0) ->
  List.filter P l = [x0].
Proof.
  induction l as [|x l IH]; intros Hnd Hin H0 Huniq;
    [by apply elem_of_nil in Hin|].
  apply NoDup_cons in Hnd as [Hx Hnd]. simpl.
  destruct (decide (x = x0)) as [-> | Hne].
  - rewrite H0. f_equal. apply filter_none. intros y Hy.
    destruct (P y) eqn:E; [|done].
    assert (y = x0) as -> by (apply Huniq; [by apply list_elem_of_further|done]).
    done.
  - destruct (P x) eqn:E.
    + exfalso. apply Hne, Huniq; [apply list_elem_of_here | done].
    + apply elem_of_cons in Hin as [-> | Hin]; [done|].
      apply IH; try done. intros y Hy. apply Huniq.
      by apply list_elem_of_further.
Qed.

Lemma agg_keys_crpss ds sr temp_nn i_ens (d t g : string) :
  NoDup agg_meths -> g ∈ agg_meths -> g ≠ "opt" -> g ≠ "ens" ->
  List.filter (crpss_key d t g) (agg_keys ds sr temp_nn i_ens agg_meths) =
  if ds =? d then
    if sr =? "crpss" then
      if temp_nn =? t then [(d, t, "crpss", i_ens, g)] else []
    else []
  else [].
Proof.
  intros Hnd Hg Hopt Hens. unfold agg_keys. rewrite filter_map_swap'.
  cbn [crpss_key].
  destruct (String.eqb_spec ds d) as [-> | Hd].
  2: { rewrite filter_none; [done|]. intros x _.
       by rewrite !andb_false_r. }
  destruct (String.eqb_spec sr "crpss") as [-> | Hs].
  2: { rewrite filter_none; [done|]. by intros x _. }
  destruct (String.eqb_spec temp_nn t) as [-> | Ht].
  2: { rewrite filter_none; [done|]. intros x _.
       by rewrite !andb_false_r. }
  change (List.filter (fun g0 => negb (skipped "crpss" g0))
            (["opt"; "ens"] ++ agg_meths))
    with (List.filter (fun g0 => negb (skipped "crpss" g0)) agg_meths).
  rewrite filter_filter_and.
  rewrite (filter_single _ _ g); try done.
  - rewrite !String.eqb_refl. simpl. unfold skipped. simpl.
    apply String.eqb_neq in Hopt, Hens. by rewrite Hopt, Hens.
  - intros x _ H. simpl in H.
    apply andb_true_iff in H as [H _]. rewrite andb_true_r in H.
    by apply String.eqb_eq in H.
Qed.

Lemma flat_map_singleton {A B} (f : A -> B) (l : list A) :
  flat_map (fun x => [f x]) l = List.map f l.
Proof. induction l as [|x l IH]; [done|]. simpl. by rewrite IH. Qed.

(** The lines of the panel from which the skills of [(d, t, g)] are read
    are those of the ensemble sizes, in order. *)
Lemma panel_keys_crpss (d t g : string) :
  NoDup dataset_ls -> NoDup score_vec -> NoDup nn_vec -> NoDup agg_meths ->
  d ∈ dataset_ls -> "crpss" ∈ score_vec -> t ∈ nn_vec -> g ∈ agg_meths ->
  g ≠ "opt" -> g ≠ "ens" ->
  List.filter (crpss_key d t g)
    (panel_keys dataset_ls score_vec nn_vec n_ens_vec agg_meths) =
  List.map (fun n => (d, t, "crpss", n, g)) n_ens_vec.
Proof.
  intros Hds Hsv Hnn Hagg Hd Hs Ht Hg Hopt Hens. unfold panel_keys.
  rewrite filter_flat_map.
  rewrite <- (flat_map_select dataset_ls d
                (List.map (fun n => (d, t, "crpss", n, g)) n_ens_vec))
    by done.
  apply flat_map_ext. intros ds. rewrite filter_flat_map.
  destruct (ds =? d) eqn:Ed.
  2: { apply flat_map_nil. intros sr. rewrite filter_flat_map.
       apply flat_map_nil. intros t'. rewrite filter_flat_map.
       apply flat_map_nil. intros n.
       by rewrite agg_keys_crpss, Ed by done. }
  rewrite <- (flat_map_select score_vec "crpss"
                (List.map (fun n => (d, t, "crpss", n, g)) n_ens_vec))
    by done.
  apply flat_map_ext. intros sr. rewrite filter_flat_map.
  destruct (sr =? "crpss") eqn:Es.
  2: { apply flat_map_nil. intros t'. rewrite filter_flat_map.
       apply flat_map_nil. intros n.
       by rewrite agg_keys_crpss, Ed, Es by done. }
  rewrite <- (flat_map_select nn_vec t
                (List.map (fun n => (d, t, "crpss", n, g)) n_ens_vec))
    by done.
  apply flat_map_ext. intros t'. rewrite filter_flat_map.
  destruct (t' =? t) eqn:Et.
  2: { apply flat_map_nil. intros n.
       by rewrite agg_keys_crpss, Ed, Es, Et by done. }
  rewrite <- flat_map_singleton. apply flat_map_ext. intros n.
  by rewrite agg_keys_crpss, Ed, Es, Et by done.
Qed.

Lemma skill_key_inj (n1 n2 : Z) : skill_key n1 = skill_key n2 -> n1 = n2.
Proof.
  unfold skill_key. intros H%String.app_inj. by apply pretty_Z_inj in H.
Qed.

Lemma foldl_skills_keep (l : list (Z * float)) :
  forall (d : gmap string float) (n : Z),
  n ∉ l.*1 ->
  foldl (fun d p => <[skill_key p.1 := p.2]> d) d l !! skill_key n
  = d !! skill_key n.
Proof.
  induction l as [|[n' s] l IH]; intros d n Hn; [done|]. simpl in *.
  apply not_elem_of_cons in Hn as [Hne Hn].
  rewrite IH by done. apply lookup_insert_ne.
  intros E%skill_key_inj. congruence.
Qed.

Lemma foldl_skills_find (l : list (Z * float)) :
  forall (d : gmap string float) (n : Z) (v : float),
  NoDup l.*1 -> (n, v) ∈ l ->
  foldl (fun d p => <[skill_key p.1 := p.2]> d) d l !! skill_key n = Some v.
Proof.
  induction l as [|[n' s] l IH]; intros d n v Hnd Hin;
    [by apply elem_of_nil in Hin|].
  simpl in *. apply NoDup_cons in Hnd as [Hn' Hnd].
  apply elem_of_cons in Hin as [[= -> ->] | Hin].
  - rewrite foldl_skills_keep by done. apply lookup_insert_eq.
  - by apply IH.
Qed.

(** The dict of the skills holds the score of every line, under the
    ensemble size of the line, when the lines are those of the ensemble
    sizes and no size comes twice. *)
Lemma dict_skills_of_lines (lines : list panel_row) (r : panel_row) :
  NoDup n_ens_vec -> List.map n_ens lines = n_ens_vec -> r ∈ lines ->
  dict_skills n_ens_vec (List.map score lines) !! skill_key (n_ens r)
  = Some (score r).
Proof.
  intros Hnd Hns Hr. unfold dict_skills. rewrite <- Hns in *.
  assert (Hz : zip (List.map n_ens lines) (List.map score lines)
               = List.map (fun r' => (n_ens r', score r')) lines).
  { clear. induction lines as [|r' l IH]; [done|]. simpl. by rewrite IH. }
  rewrite Hz. apply foldl_skills_find.
  - assert (Hf : (List.map (fun r' => (n_ens r', score r')) lines).*1
                 = List.map n_ens lines).
    { clear. induction lines as [|r' l IH]; [done|]. simpl. f_equal.
      exact IH. }
    by rewrite Hf.
  - apply list_elem_of_In, in_map_iff. exists r.
    split; [done | by apply list_elem_of_In].
Qed.

Lemma unique_elem (l : list string) (x : string) : x ∈ unique l <-> x ∈ l.
Proof.
  induction l as [|y l IH]; [done|]. simpl.
  rewrite !elem_of_cons, <- IH, !list_elem_of_In, filter_In.
  rewrite negb_true_iff, String.eqb_neq.
  destruct (decide (x = y)) as [-> | Hne]; [by split; [left|left]|].
  split.
  - intros [-> | [Hx _]]; [done | by right].
  - intros [-> | Hx]; [done | by right].
Qed.

(** X22.  The table pairs the skills with the ensemble sizes by position.
    When no dataset, score, network, ensemble size or aggregation method
    is listed twice, the pairing is right: the CRPSS of every line of the
    panel of an ensemble method is found in the table, in the line of its
    dataset, network and aggregation method, in the column
    [skill_{n_ens}]. *)
Theorem get_skills_table_skill (ens_method_ls : list string) (m : string)
    (df : list panel_row) (tbl : list skills_row) (r : panel_row) :
  NoDup dataset_ls -> NoDup score_vec -> NoDup nn_vec -> NoDup n_ens_vec ->
  NoDup agg_meths ->
  m ∈ ens_method_ls ->
  get_panel_data fs data_path dataset_ls score_vec nn_vec n_ens_vec
    agg_meths m = Ok df ->
  get_skills_table fs data_path dataset_ls score_vec nn_vec n_ens_vec
    agg_meths ens_method_ls = Done tbl ->
  r ∈ df -> metric r = "crpss" ->
  exists row,
    row ∈ tbl /\ sk_ens_method row = m /\ sk_dataset row = dataset r /\
    sk_nn row = nn r /\ sk_agg row = agg r /\
    sk_skills row !! skill_key (n_ens r) = Some (score r).
Proof.
  intros Hds Hsv Hnn Hns Hagg Hm Hdf Htbl Hr Hmetric.
  (* the key of the line *)
  pose proof (get_panel_data_elem fs data_path m dataset_ls score_vec nn_vec
                agg_meths n_ens_vec df r Hdf) as Hcell.
  apply Hcell in Hr as Hc.
  destruct Hc as (df_scores & s_opt & Hd & _ & Hs & _ & Ht & Hn & Hg & Hskip
                  & _).
  rewrite Hmetric in Hs, Hskip.
  assert (Hopt : agg r ≠ "opt") by (intros E; by rewrite E in Hskip).
  assert (Hens : agg r ≠ "ens") by (intros E; by rewrite E in Hskip).
  assert (Hg' : agg r ∈ agg_meths).
  { simpl in Hg. by rewrite !elem_of_cons in Hg; destruct Hg as [?|[?|?]]. }
  (* the lines of the skills *)
  pose proof (panel_rows_keys fs data_path m score_vec nn_vec agg_meths
                n_ens_vec dataset_ls df Hdf) as Hkeys.
  set (lines := List.filter
                  (fun r' => crpss_key (dataset r) (nn r) (agg r)
                               (panel_key r')) df).
  assert (Hlines : List.map n_ens lines = n_ens_vec).
  { transitivity (List.map (fun k : string * string * string * Z * string =>
                              k.1.2) (List.map panel_key lines)).
    { by rewrite List.map_map. }
    unfold lines. rewrite filter_map_key, Hkeys, panel_keys_crpss by done.
    rewrite List.map_map. apply List.map_id. }
  assert (Hrl : r ∈ lines).
  { apply list_elem_of_In, filter_In. split; [by apply list_elem_of_In|].
    unfold crpss_key, panel_key. by rewrite Hmetric, !String.eqb_refl. }
  (* the line of the table *)
  rewrite get_skills_table_lines in Htbl.
  destruct (collect_out_each _ _ _ m Htbl Hm) as (new & Hnew).
  pose proof Hnew as Hnew0. unfold method_lines in Hnew. rewrite Hdf in Hnew.
  destruct df as [|r1 df]; [by apply elem_of_nil in Hr|].
  assert (Hud : dataset r ∈ unique (List.map dataset (r1 :: df))).
  { apply unique_elem, list_elem_of_In, in_map, list_elem_of_In, Hr. }
  assert (Hut : nn r ∈ unique (List.map nn (r1 :: df))).
  { apply unique_elem, list_elem_of_In, in_map, list_elem_of_In, Hr. }
  destruct (collect_out_each _ _ _ _ Hnew Hud) as (new1 & Hnew1).
  destruct (collect_out_each _ _ _ _ Hnew1 Hut) as (new2 & Hnew2).
  destruct (collect_out_each _ _ _ _ Hnew2 Hg') as (new3 & Hnew3).
  pose proof Hnew3 as Hline. unfold agg_line, agg_body in Hline.
  destruct (agg_frame (network_frame (r1 :: df) (dataset r) (nn r)) (agg r))
    as [|r0 rest] eqn:Hfr; [done|].
  injection Hline as Hline.
  assert (Hr0 : r0 ∈ agg_frame
                       (network_frame (r1 :: df) (dataset r) (nn r)) (agg r))
    by (rewrite Hfr; apply list_elem_of_here).
  unfold agg_frame, network_frame in Hr0.
  apply list_elem_of_In, filter_In in Hr0 as [Hr0 Hg0%String.eqb_eq].
  apply filter_In in Hr0 as [_ [Hd0%String.eqb_eq Ht0%String.eqb_eq]%andb_true_iff].
  eexists. split; [|split_and!].
  - apply (collect_out_elem _ _ _ _ Htbl). exists m, new. split_and!; try done.
    apply (collect_out_elem _ _ _ _ Hnew). exists (dataset r), new1.
    split_and!; try done.
    apply (collect_out_elem _ _ _ _ Hnew1). exists (nn r), new2.
    split_and!; try done.
    apply (collect_out_elem _ _ _ _ Hnew2). exists (agg r), new3.
    split_and!; try done.
    rewrite <- Hline. apply list_elem_of_here.
  - done.
  - done.
  - done.
  - done.
  - simpl. rewrite <- Hfr, skills_of_keys. by apply dict_skills_of_lines.
Qed.

End SkillsPairingMain.

Lemma get_skills_table_empty_panel_witness :
  skills.get_skills_table examples.energy_files "data/dataset" ["energy"]
    ["crps"; "crpss"] ["bqn"] [] ["lp"; "vi"] ("rand_init" :: ["bagging"])
  = skills.Failed (skills.Exn (KeyError "dataset")).
Proof.
  apply (get_skills_table_empty_panel examples.energy_files "data/dataset"
           ["energy"] ["crps"; "crpss"] ["bqn"] ["lp"; "vi"] []
           "rand_init" ["bagging"] []).
  - vm_compute. reflexivity.
  - right. right. right. reflexivity.
Defined.

Lemma get_skills_table_without_crpss_witness :
  exists row rest,
    examples_more.energy_skills_crps_only = row :: rest /\
    skills.sk_skills row = ∅ /\ skills.avg_skill row = NaN.
Proof.
  eexists _, _. split; [reflexivity|].
  apply (get_skills_table_without_crpss examples.energy_files "data/dataset"
           ["energy"] ["crps"] ["bqn"] ["lp"; "vi"] [2; 4] ["rand_init"]
           examples_more.energy_skills_crps_only).
  - intros H. apply list_elem_of_In in H. simpl in H.
    destruct H as [H | []]. discriminate H.
  - vm_compute. reflexivity.
  - apply list_elem_of_here.
Defined.

Lemma avg_skill_nan_witness :
  exists row rest,
    examples_more.energy_skills_drn = row :: rest /\
    skills.sk_skills row !! "skill_2" = Some NaN /\
    skills.avg_skill row = NaN.
Proof.
  eexists _, _. split; [reflexivity|]. split; [vm_compute; reflexivity|].
  apply (avg_skill_nan examples.energy_files "data/dataset" ["energy"]
           ["crps"; "crpss"] ["drn"] ["lp"] [2; 4] ["rand_init"]
           examples_more.energy_skills_drn _ "skill_2").
  - vm_compute. reflexivity.
  - apply list_elem_of_here.
  - vm_compute. reflexivity.
Defined.

Lemma get_skills_table_skill_witness :
  exists row,
    row ∈ examples_more.energy_skills /\
    skills.sk_ens_method row = "rand_init" /\
    skills.sk_dataset row = results.dataset examples_more.energy_crpss_line /\
    skills.sk_nn row = results.nn examples_more.energy_crpss_line /\
    skills.sk_agg row = results.agg examples_more.energy_crpss_line /\
    skills.sk_skills row
      !! skills.skill_key (results.n_ens examples_more.energy_crpss_line)
    = Some (results.score examples_more.energy_crpss_line).
Proof.
  apply (get_skills_table_skill examples.energy_files "data/dataset"
           ["energy"] ["crps"; "crpss"] ["bqn"] ["lp"; "vi"] [2; 4]
           ["rand_init"] "rand_init" examples_more.energy_skill_panel
           examples_more.energy_skills examples_more.energy_crpss_line).
  - apply (bool_decide_unpack _). vm_compute. reflexivity.
  - apply (bool_decide_unpack _). vm_compute. reflexivity.
  - apply (bool_decide_unpack _). vm_compute. reflexivity.
  - apply (bool_decide_unpack _). vm_compute. reflexivity.
  - apply (bool_decide_unpack _). vm_compute. reflexivity.
  - apply list_elem_of_here.
  - vm_compute. reflexivity.
  - vm_compute. reflexivity.
  - apply list_elem_of_In. vm_compute. tauto.
  - reflexivity.
Defined.

(* ===================================================================== *)
(** ** plot_pit_ens: the indices of the test set *)
(* ===================================================================== *)

Section PitIndices.
Import pit_indices.

Lemma foldl_max_seq (k : nat) : forall x : Z,
  foldl Z.max x ((fun i : nat => Z.of_nat i + (x + 1)) <$> seq 0 k)
  = x + Z.of_nat k.
Proof.
  induction k as [|k IH]; intros x; [simpl; lia|].
  rewrite seq_S, fmap_app, foldl_app, IH. simpl. lia.
Qed.

Lemma max_range (n : Z) : 0 < n -> max (range n) = Ok (n - 1).
Proof.
  intros Hn. unfold range, seqZ.
  destruct (Z.to_nat n) as [|k] eqn:Ek; [lia|].
  assert (Hs : (fun i : nat => Z.of_nat i + 0) <$> seq 1 k
               = (fun i : nat => Z.of_nat i + (0 + 1)) <$> seq 0 k).
  { rewrite <- seq_shift.
    change (List.map S (seq 0 k)) with (S <$> seq 0 k).
    rewrite <- list_fmap_compose. apply list_fmap_ext.
    intros i x _. simpl. lia. }
  change (seq 0 (S k)) with (O :: seq 1 k). rewrite fmap_cons.
  cbn [max]. f_equal. rewrite Hs.
  change (Z.of_nat 0 + 0) with 0. rewrite foldl_max_seq. lia.
Qed.

Lemma comprehension_total {A B} (f : A -> B) (l : list A) :
  comprehension (fun x => Ok (f x)) l = Ok (f <$> l).
Proof. induction l as [|x l IH]; [done|]. simpl. by rewrite IH. Qed.

(** X23.  The indices of the test set start at the greatest index of the
    validation set, [n_valid - 1], and not behind it: they are
    [n_valid - 1 .. n_valid + n_test - 2].  Without a test set there are
    no indices at all, and with a test set but no validation set [max]
    raises a [ValueError]. *)
Theorem i_test_from_last_validation_index (n_valid n_test : Z) :
  i_test n_valid n_test =
  if (n_test <=? 0)%Z then Ok []
  else if (n_valid <=? 0)%Z
       then Raise (ValueError "max() arg is an empty sequence")
       else Ok (seqZ (n_valid - 1) n_test).
Proof.
  unfold i_test, i_valid.
  destruct (Z.leb_spec n_test 0) as [Ht | Ht].
  - unfold range, seqZ. by replace (Z.to_nat n_test) with O by lia.
  - destruct (Z.leb_spec n_valid 0) as [Hv | Hv].
    + unfold range, seqZ. replace (Z.to_nat n_valid) with O by lia.
      destruct (Z.to_nat n_test) eqn:E; [lia|]. reflexivity.
    + rewrite max_range by done. simpl.
      rewrite (comprehension_total (fun el => n_valid - 1 + el)).
      f_equal. unfold range, seqZ. rewrite <- list_fmap_compose.
      apply list_fmap_ext. intros i x _. simpl. lia.
Qed.

End PitIndices.
